(** * Hospital growth-analysis demo: a shallow embedding of its logic

    The first half embeds the program, one module per source file:

    - [ECMA]            the host's calendar arithmetic behind [Date]
                        (ECMA-262, "Time Values and Time Range"): a [Date]
                        is a time value, an integer count of milliseconds
                        since the epoch, and its getters are functions of
                        the time value and of the local zone offset;
    - [Age]             [utils/age.ts]: [safeDate], [calculateAge];
    - [JS]              [Math.round], [||] on numbers, [Array.from] and the
                        string methods the components call;
    - [Binary64]        the arithmetic of Number: rounding to the nearest
                        double, and the four operations;
    - [Types]           [types.ts];
    - [AnalysisResults] [components/AnalysisResults.tsx]: predicted height,
                        growth curve and composite score, read over exact
                        rationals;
    - [AnalysisResults64] the same lines and the predicted range and the
                        sliders, every operation rounded as the program
                        rounds it;
    - [FileUpload]      [components/FileUpload.tsx]: [validateFile] and the
                        drop and input handlers, as transitions of the
                        component's state, and what each handler holds of
                        the props after a render;
    - [Analyze]         [netlify/functions/analyze.js]: [extractOutputText]
                        and [handler], over the values of [JSON.parse];
    - [Spec]            the formulas of the specification, in its words;
    - [Samples]         concrete inputs;
    - [Calendar]        completed months, and the fields of a date string;
    - [Chart]           [components/AnalysisResults.tsx]: [graphMeta] and
                        [padded], the geometry of the growth chart;
    - [ImageViewer]     [components/ImageViewer.tsx]: the zoom level;
    - [FileUploadRun]   runs of events of the upload widget;
    - [AnalyzeNotions]  notions to speak about the gateway's answers;
    - [AnalysisService] [services/analysisService.ts]: [extractApiError];
    - [ViteProxy]       [vite.config.ts]: the development proxy;
    - [App]             [App.tsx]: the session as a transition system.

    The second half states and proves the properties, module by module.

    JavaScript numbers are embedded as integers ([Z]) where the program only
    ever produces integers (calendar fields, results of [Math.round]) and as
    rationals ([Q]) elsewhere.  The values the results page shows as
    integers depend on how the program rounds: what is proved of them is
    proved in [AnalysisResults64], where every sum, difference, product and
    quotient is rounded to binary64.  [AnalysisResults] keeps the exact
    reading for the interpolation formula, for the order of values and for
    the chart, and the gateway's numbers, which are only compared and
    clamped, are exact as well.  [NaN] and the infinities are outside the
    embedding.  Strings are sequences of bytes, the UTF-8 form of the
    program's strings.  What the host supplies (the [Date] parser and zone,
    [JSON.parse], [fetch], the random sources, the constants of
    [constants.ts]) is a parameter. *)

From Stdlib Require Import ZArith QArith Qround Qminmax Qabs Qpower SpecFloat.
From Stdlib Require Import Lia Lqa Bool List.
From Stdlib Require Import Ascii String DecimalString.
Import ListNotations.

Local Open Scope Z_scope.

(** ** Host calendar arithmetic *)

Module ECMA.

Definition msPerDay : Z := 86400000.

Definition Day (t : Z) : Z := t / msPerDay.

Definition TimeWithinDay (t : Z) : Z := t mod msPerDay.

Definition isLeapYear (y : Z) : bool :=
  if negb (y mod 4 =? 0) then false
  else if negb (y mod 100 =? 0) then true
  else if negb (y mod 400 =? 0) then false
  else true.

Definition DaysInYear (y : Z) : Z := if isLeapYear y then 366 else 365.

Definition DayFromYear (y : Z) : Z :=
  365 * (y - 1970) + (y - 1969) / 4 - (y - 1901) / 100 + (y - 1601) / 400.

(** The largest [y] with [DayFromYear y <= d].  The mean Gregorian year has
    146097/400 days, which places the answer within one year of the
    quotient below. *)
Definition YearFromDay (d : Z) : Z :=
  let y := 1970 + (400 * d) / 146097 in
  if DayFromYear (y + 1) <=? d then y + 1
  else if DayFromYear y <=? d then y
  else y - 1.

Definition DayWithinYear (d : Z) : Z := d - DayFromYear (YearFromDay d).

Definition leapDays (y : Z) : Z := if isLeapYear y then 1 else 0.

(** Month number (0 = January) of the day [dwy] of a year with [leap] leap
    days. *)
Definition MonthFromDayWithinYear (leap dwy : Z) : Z :=
  if dwy <? 31 then 0
  else if dwy <? 59 + leap then 1
  else if dwy <? 90 + leap then 2
  else if dwy <? 120 + leap then 3
  else if dwy <? 151 + leap then 4
  else if dwy <? 181 + leap then 5
  else if dwy <? 212 + leap then 6
  else if dwy <? 243 + leap then 7
  else if dwy <? 273 + leap then 8
  else if dwy <? 304 + leap then 9
  else if dwy <? 334 + leap then 10
  else 11.

(** Day of the year on which month [m] starts. *)
Definition monthStart (leap m : Z) : Z :=
  match m with
  | 0 => 0
  | 1 => 31
  | 2 => 59 + leap
  | 3 => 90 + leap
  | 4 => 120 + leap
  | 5 => 151 + leap
  | 6 => 181 + leap
  | 7 => 212 + leap
  | 8 => 243 + leap
  | 9 => 273 + leap
  | 10 => 304 + leap
  | _ => 334 + leap
  end.

Definition YearFromTime (t : Z) : Z := YearFromDay (Day t).

Definition InLeapYear (t : Z) : Z := leapDays (YearFromTime t).

Definition MonthFromTime (t : Z) : Z :=
  MonthFromDayWithinYear (InLeapYear t) (DayWithinYear (Day t)).

Definition DateFromTime (t : Z) : Z :=
  DayWithinYear (Day t) - monthStart (InLeapYear t) (MonthFromTime t) + 1.

Definition DaysInMonth (y m : Z) : Z :=
  match m with
  | 1 => 28 + leapDays y
  | 3 | 5 | 8 | 10 => 30
  | _ => 31
  end.

(** [MakeDay] for a month already in 0..11, and [MakeDate]. *)
Definition MakeDay (year month date : Z) : Z :=
  DayFromYear year + monthStart (leapDays year) month + date - 1.

Definition MakeDate (day time : Z) : Z := day * msPerDay + time.

(** What the program needs from its host: the parser behind [new Date(s)]
    ([None] stands for the invalid date, whose time value is [NaN]) and the
    offset of local time from UTC, in milliseconds. *)
Record Host : Type := {
  Date_parse : string -> option Z;
  LocalTZA : Z
}.

Definition LocalTime (h : Host) (t : Z) : Z := t + LocalTZA h.

Definition getFullYear (h : Host) (t : Z) : Z := YearFromTime (LocalTime h t).
Definition getMonth (h : Host) (t : Z) : Z := MonthFromTime (LocalTime h t).
Definition getDate (h : Host) (t : Z) : Z := DateFromTime (LocalTime h t).

(** The date-only form [YYYY-MM-DD] of the date-time string format, the form
    an [<input type="date">] hands to the program.  It denotes midnight UTC
    of that day; month and day out of range give the invalid date. *)
Definition digitValue (c : ascii) : option Z :=
  let n := Z.of_N (N_of_ascii c) in
  if (48 <=? n) && (n <=? 57) then Some (n - 48) else None.

Fixpoint parseDigits (acc : Z) (s : string) : option Z :=
  match s with
  | EmptyString => Some acc
  | String c rest =>
      match digitValue c with
      | Some d => parseDigits (10 * acc + d) rest
      | None => None
      end
  end.

Definition parseISODate (s : string) : option Z :=
  if negb (String.length s =? 10)%nat then None
  else if negb (String.eqb (substring 4 1 s) "-"
                && String.eqb (substring 7 1 s) "-") then None
  else
    match parseDigits 0 (substring 0 4 s),
          parseDigits 0 (substring 5 2 s),
          parseDigits 0 (substring 8 2 s) with
    | Some y, Some m, Some d =>
        if (1 <=? m) && (m <=? 12) && (1 <=? d) && (d <=? DaysInMonth y (m - 1))
        then Some (MakeDate (MakeDay y (m - 1) d) 0)
        else None
    | _, _, _ => None
    end.

(** A host that reads date-only strings, in the zone [tza] milliseconds east
    of Greenwich. *)
Definition isoHost (tza : Z) : Host :=
  {| Date_parse := parseISODate; LocalTZA := tza |}.

End ECMA.

(** ** utils/age.ts *)

Module Age.
Import ECMA.

Record AgeResult : Type := { years : Z; months : Z }.

Section WithHost.

Variable host : Host.

Definition safeDate (value : option string) : option Z :=
  match value with
  | None => None
  | Some EmptyString => None
  | Some s => Date_parse host s
  end.

(** [now1] and [now2] are the instants the two [new Date()] fallbacks read
    from the clock. *)
Definition calculateAge (now1 now2 : Z) (birthDate referenceDate : option string)
  : AgeResult :=
  let birth := match safeDate birthDate with Some d => d | None => now1 end in
  let reference := match safeDate referenceDate with Some d => d | None => now2 end in
  let months := getMonth host reference - getMonth host birth in
  let years := getFullYear host reference - getFullYear host birth in
  let months := if getDate host reference <? getDate host birth then months - 1 else months in
  let '(years, months) :=
    if months <? 0 then (years - 1, months + 12) else (years, months) in
  let '(years, months) :=
    if years <? 0 then (0, 0) else (years, months) in
  {| years := years; months := months |}.

End WithHost.

End Age.

(** ** JavaScript primitives used by the components *)

Module JS.

Local Open Scope Q_scope.

(** [Math.round]: the nearest integer, halves towards plus infinity. *)
Definition Math_round (x : Q) : Z := Qfloor (x + (1 # 2)).

(** [x || d] on numbers: zero is the falsy number of the embedding. *)
Definition number_or (x d : Q) : Q := if Qeq_bool x 0 then d else x.

(** [Array.from({ length: n }, (_, idx) => f idx)]. *)
Definition Array_from {A : Type} (n : nat) (f : Z -> A) : list A :=
  map (fun i => f (Z.of_nat i)) (seq 0 n).

Local Open Scope Z_scope.

(** A string is the sequence of bytes of its UTF-8 form, as the literals
    of this file are.  [toLowerCase] maps the ASCII letters. *)
Definition lowerAscii (c : ascii) : ascii :=
  let n := Z.of_N (N_of_ascii c) in
  if (65 <=? n) && (n <=? 90) then ascii_of_N (Z.to_N (n + 32)) else c.

Fixpoint toLowerCase (s : string) : string :=
  match s with
  | EmptyString => EmptyString
  | String c rest => String (lowerAscii c) (toLowerCase rest)
  end.

Definition endsWith (s suffix : string) : bool :=
  let n := String.length s in
  let k := String.length suffix in
  (k <=? n)%nat && String.eqb (substring (n - k) k s) suffix.

Definition startsWith (s p : string) : bool := prefix p s.

(** [String.prototype.trim] strips the code points of the WhiteSpace and
    LineTerminator productions of ECMA-262 from both ends: tab, line feed,
    vertical tab, form feed, carriage return, space, no-break space
    (U+00A0), the space separators U+1680, U+2000 to U+200A, U+202F,
    U+205F and U+3000, the line and paragraph separators U+2028 and U+2029,
    and the byte order mark U+FEFF. *)
Definition whiteSpaceCodePoints : list Z :=
  [9; 10; 11; 12; 13; 32; 160; 5760;
   8192; 8193; 8194; 8195; 8196; 8197; 8198; 8199; 8200; 8201; 8202;
   8232; 8233; 8239; 8287; 12288; 65279].

Definition byte (n : Z) : ascii := ascii_of_N (Z.to_N n).

(** The UTF-8 bytes of a code point below 65536. *)
Definition utf8 (c : Z) : list ascii :=
  if c <? 128 then [byte c]
  else if c <? 2048 then [byte (192 + c / 64); byte (128 + c mod 64)]
  else [byte (224 + c / 4096); byte (128 + (c / 64) mod 64); byte (128 + c mod 64)].

Definition whiteSpace : list (list ascii) := map utf8 whiteSpaceCodePoints.

(** [s] without its prefix [p], when it starts with [p]. *)
Fixpoint dropPrefix (p s : list ascii) : option (list ascii) :=
  match p, s with
  | [], _ => Some s
  | a :: p', b :: s' => if Ascii.eqb a b then dropPrefix p' s' else None
  | _ :: _, [] => None
  end.

(** [s] without its first character, when that is one of [ws]. *)
Fixpoint dropOneOf (ws : list (list ascii)) (s : list ascii) : option (list ascii) :=
  match ws with
  | [] => None
  | w :: ws' =>
      match dropPrefix w s with
      | Some rest => Some rest
      | None => dropOneOf ws' s
      end
  end.

(** Dropping leading characters of [ws], at most [fuel] of them. *)
Fixpoint stripLeading (ws : list (list ascii)) (fuel : nat) (s : list ascii) : list ascii :=
  match fuel with
  | O => s
  | S fuel' =>
      match dropOneOf ws s with
      | Some rest => stripLeading ws fuel' rest
      | None => s
      end
  end.

Definition trimStart (s : string) : string :=
  let l := list_ascii_of_string s in
  string_of_list_ascii (stripLeading whiteSpace (List.length l) l).

Definition trimEnd (s : string) : string :=
  let l := rev (list_ascii_of_string s) in
  string_of_list_ascii
    (rev (stripLeading (map (@rev ascii) whiteSpace) (List.length l) l)).

Definition trim (s : string) : string := trimEnd (trimStart s).

(** Truthiness of a string: every string but the empty one. *)
Definition truthy (s : string) : bool :=
  match s with EmptyString => false | _ => true end.

(** [String(n)] for an integer [n]. *)
Definition String_of_Z (n : Z) : string := NilZero.string_of_int (Z.to_int n).

End JS.

(** ** The arithmetic of Number: IEEE 754 binary64

    A finite double is the rational it denotes.  An arithmetic operation of
    the program gives the exact result rounded to the nearest double, ties
    to the even significand ([round]); a double has a significand of 53
    bits, and the doubles next to zero are the multiples of [2 ^ -1074].
    The two zeros are one number here, and [NaN] and the infinities are
    outside: [round] has no largest exponent, so it is the program's
    rounding wherever the program's result is finite, that is below
    [2 ^ 1024] in magnitude. *)

Module Binary64.

Local Open Scope Q_scope.

(** The binade of a positive number: [2 ^ ilog2 x <= x < 2 ^ (ilog2 x + 1)]. *)
Definition ilog2 (x : Q) : Z :=
  let k := (Z.log2 (Qnum x) - Z.log2 (Zpos (Qden x)))%Z in
  if Qle_bool (2 ^ k) x then k else (k - 1)%Z.

(** The nearest integer, a tie going to the even one. *)
Definition roundTiesToEven (m : Q) : Z :=
  let f := Qfloor m in
  match Qcompare (m - inject_Z f) (1 # 2) with
  | Lt => f
  | Gt => (f + 1)%Z
  | Eq => if Z.even f then f else (f + 1)%Z
  end.

(** The exponent of the last bit of the doubles of the binade of [x]. *)
Definition ulpExponent (x : Q) : Z := Z.max (ilog2 x - 52) (-1074).

(** The nearest multiple of [2 ^ e]. *)
Definition toGrid (e : Z) (x : Q) : Q :=
  inject_Z (roundTiesToEven (x / 2 ^ e)) * 2 ^ e.

Definition roundPositive (x : Q) : Q := toGrid (ulpExponent x) x.

Definition round (x : Q) : Q :=
  match Qcompare x 0 with
  | Eq => 0
  | Gt => roundPositive x
  | Lt => - roundPositive (- x)
  end.

(** [x + y], [x - y], [x * y] and [x / y] on doubles. *)
Definition add (x y : Q) : Q := round (x + y).
Definition sub (x y : Q) : Q := round (x - y).
Definition mul (x y : Q) : Q := round (x * y).
Definition div (x y : Q) : Q := round (x / y).

(** The double a decimal literal or a JSON number denotes. *)
Definition literal (x : Q) : Q := round x.

(** The doubles: a significand of at most 53 bits, an exponent from
    -1074. *)
Definition isDouble (d : Q) : Prop :=
  exists k e : Z,
    (Z.abs k <= 2 ^ 53)%Z /\ (-1074 <= e)%Z /\ d == inject_Z k * 2 ^ e.

(** The same operations as the Standard Library specifies them
    ([SpecFloat], precision 53, [emax] 1024), to compare the two on
    samples: a double as a [spec_float], and back. *)
Definition toSpecFloat (x : Q) : spec_float :=
  let r := Qred x in
  binary_normalize 53 1024 (Qnum r) (- Z.log2 (Zpos (Qden r))) false.

Definition ofSpecFloat (f : spec_float) : option Q :=
  match f with
  | S754_zero _ => Some 0
  | S754_finite s m e =>
      Some ((if s then - inject_Z (Zpos m) else inject_Z (Zpos m)) * 2 ^ e)
  | _ => None
  end.

Definition sameNumber (f : spec_float) (x : Q) : bool :=
  match ofSpecFloat f with
  | Some y => Qeq_bool x y
  | None => false
  end.

(** The four operations agree on the doubles [x] and [y]. *)
Definition agreeOn (x y : Q) : bool :=
  sameNumber (SFadd 53 1024 (toSpecFloat x) (toSpecFloat y)) (add x y)
  && sameNumber (SFsub 53 1024 (toSpecFloat x) (toSpecFloat y)) (sub x y)
  && sameNumber (SFmul 53 1024 (toSpecFloat x) (toSpecFloat y)) (mul x y)
  && sameNumber (SFdiv 53 1024 (toSpecFloat x) (toSpecFloat y)) (div x y).

(** Doubles to compare the two on: significands and exponents from a
    linear congruential sequence, the magnitudes between [2 ^ -256] and
    [2 ^ 256]; and, for the doubles next to zero, multiples of
    [2 ^ -1074] paired with numbers between [2 ^ -8] and [2 ^ 8]. *)
Fixpoint lcg (n : nat) (s : Z) : list Z :=
  match n with
  | O => []
  | S n' =>
      let s' := ((s * 6364136223846793005 + 1442695040888963407) mod 2 ^ 64)%Z in
      s' :: lcg n' s'
  end.

Definition sampleDouble (span : Z) (s : Z) : Q :=
  let m := inject_Z (s / 2 ^ 11 + 1) in
  let e := ((s / 2) mod (2 * span) - span - 53)%Z in
  (if Z.even s then m else - m) * 2 ^ e.

Definition sampleTiny (s : Z) : Q :=
  let m := inject_Z ((s / 2 ^ 20) mod 2 ^ 30) in
  (if Z.even s then m else - m) * 2 ^ (-1074).

Definition samplePairs (n : nat) : list (Q * Q) :=
  combine (map (sampleDouble 256) (lcg n 1)) (map (sampleDouble 256) (lcg n 2))
  ++ combine (map sampleTiny (lcg n 3)) (map (sampleDouble 8) (lcg n 4)).

End Binary64.

(** ** types.ts *)

Module Types.

Record BoundingBox : Type := {
  x : Q; y : Q; width : Q; height : Q;
  label : option string
}.

Inductive PatientSex : Type := Male | Female.

Record PatientInfo : Type := {
  name : option string;
  sex : PatientSex;
  birthDate : string;
  heightCm : Q;
  weightKg : Q;
  examDate : string
}.

Inductive Severity : Type := Low | Medium | High.

Record AnalysisResult : Type := {
  id : string;
  finding : string;
  probability : Q;
  severity : Severity;
  boundingBoxes : list BoundingBox;
  analysisDate : string;
  modality : string;
  patientId : string;
  summary : option string
}.

Record GrowthPoint : Type := { age : Z; gp_height : Q }.

End Types.

(** ** components/AnalysisResults.tsx: the derived display values, over
    exact rationals

    The arithmetic of these lines without its rounding; [AnalysisResults64]
    below has them as the program computes them. *)

Module AnalysisResults.
Import ECMA Age JS Types.

Record Slider : Type := {
  slider_id : string;
  slider_label : string;
  value : Z;
  slider_min : Z;
  slider_max : Z;
  unit : string
}.

Section Component.

Variable host : Host.
Variables now1 now2 : Z.
Variable result : AnalysisResult.
Variable patientInfo : PatientInfo.

Local Open Scope Q_scope.

Definition chronologicalAge : AgeResult :=
  calculateAge host now1 now2
    (Some (birthDate patientInfo)) (Some (examDate patientInfo)).

Definition predictedHeight : Z :=
  let base := number_or (heightCm patientInfo) 140 in
  let delta := (probability result - (1 # 2)) * 12 in
  Math_round (base + 10 + delta).

Definition graphPoints : list GrowthPoint :=
  let baseHeight := number_or (heightCm patientInfo) 140 in
  let startAge := Z.max 4 (years chronologicalAge - 2) in
  let totalPoints := 8%nat in
  let heightDiff := inject_Z predictedHeight - baseHeight in
  Array_from totalPoints (fun idx =>
    {| age := (startAge + idx)%Z;
       gp_height :=
         baseHeight
         + (heightDiff / inject_Z (Z.max 1 (Z.of_nat totalPoints - 1)))
           * inject_Z idx |}).

Definition osteoAgeScore : Z :=
  Math_round (Qmin 100 (Qmax 55 (45 + probability result * 50))).

Definition confidencePercent : Z := Math_round (probability result * 100).

End Component.

End AnalysisResults.

(** ** components/AnalysisResults.tsx: the derived display values, in the
    program's arithmetic

    The same source lines as in [AnalysisResults], every arithmetic
    operation rounded to binary64 as the program rounds it.  [Math.round],
    [Math.min] and [Math.max] are exact on doubles. *)

Module AnalysisResults64.
Import ECMA Age JS Types Binary64.

Record HeightBand : Type := { min : Q; max : Q }.

Section Component.

Variable host : Host.
Variables now1 now2 : Z.
Variable result : AnalysisResult.
Variable patientInfo : PatientInfo.

Local Open Scope Q_scope.

Definition predictedHeight : Z :=
  let base := number_or (heightCm patientInfo) 140 in
  let delta := mul (sub (probability result) (1 # 2)) 12 in
  Math_round (add (add base 10) delta).

Definition predictedRange : HeightBand :=
  {| min := Qmax 120 (sub (inject_Z predictedHeight) 4);
     max := add (inject_Z predictedHeight) 3 |}.

Definition sliderParameters : list AnalysisResults.Slider :=
  let base := add 60 (mul (probability result) 25) in
  [ {| AnalysisResults.slider_id := "nutrition";
       AnalysisResults.slider_label := "영양/식이";
       AnalysisResults.value := Math_round (Qmin 100 (add base 5));
       AnalysisResults.slider_min := 40; AnalysisResults.slider_max := 100;
       AnalysisResults.unit := "%" |};
    {| AnalysisResults.slider_id := "hormone";
       AnalysisResults.slider_label := "호르몬 상태";
       AnalysisResults.value := Math_round (Qmin 100 (sub base 6));
       AnalysisResults.slider_min := 30; AnalysisResults.slider_max := 100;
       AnalysisResults.unit := "%" |};
    {| AnalysisResults.slider_id := "activity";
       AnalysisResults.slider_label := "운동/수면";
       AnalysisResults.value := Math_round (Qmin 100 (add base 2));
       AnalysisResults.slider_min := 20; AnalysisResults.slider_max := 100;
       AnalysisResults.unit := "%" |} ].

Definition graphPoints : list GrowthPoint :=
  let baseHeight := number_or (heightCm patientInfo) 140 in
  let startAge :=
    Z.max 4 (years (AnalysisResults.chronologicalAge host now1 now2 patientInfo) - 2) in
  let totalPoints := 8%nat in
  let heightDiff := sub (inject_Z predictedHeight) baseHeight in
  Array_from totalPoints (fun idx =>
    {| age := (startAge + idx)%Z;
       gp_height :=
         add baseHeight
             (mul (div heightDiff (inject_Z (Z.max 1 (Z.of_nat totalPoints - 1))))
                  (inject_Z idx)) |}).

Definition osteoAgeScore : Z :=
  Math_round (Qmin 100 (Qmax 55 (add 45 (mul (probability result) 50)))).

End Component.

End AnalysisResults64.

(** ** components/FileUpload.tsx *)

Module FileUpload.
Import JS.

Record File : Type := { file_name : string; size : Z }.

(** The component's state, and the calls made so far to the [onFileSelect]
    callback, latest first. *)
Record State : Type := {
  isDragOver : bool;
  error : option string;
  selected : list File
}.

Definition setIsDragOver (b : bool) (st : State) : State :=
  {| isDragOver := b; error := error st; selected := selected st |}.

Definition setError (e : option string) (st : State) : State :=
  {| isDragOver := isDragOver st; error := e; selected := selected st |}.

Definition onFileSelect (file : File) (st : State) : State :=
  {| isDragOver := isDragOver st; error := error st;
     selected := file :: selected st |}.

Section Component.

(** The two constants come from [constants.ts], and the rendering of a
    number inside a template literal from the host. *)
Variable MAX_FILE_SIZE_MB : Q.
Variable SUPPORTED_FILE_TYPES : list (string * list string).
Variable Number_toString : Q -> string.

Local Open Scope string_scope.

Definition sizeLimit : Q := (MAX_FILE_SIZE_MB * 1024 * 1024)%Q.

(** [Object.values(SUPPORTED_FILE_TYPES).flat()] *)
Definition supportedExtensions : list string :=
  List.concat (map snd SUPPORTED_FILE_TYPES).

Definition validateFile (file : File) (st : State) : bool * State :=
  if negb (Qle_bool (inject_Z (size file)) sizeLimit) then
    (false,
     setError (Some ("파일 크기는 " ++ Number_toString MAX_FILE_SIZE_MB
                     ++ "MB를 초과할 수 없습니다.")) st)
  else
    let isValidType :=
      existsb (fun ext => endsWith (toLowerCase (file_name file)) ext)
              supportedExtensions in
    if negb isValidType then
      (false,
       setError (Some "지원하지 않는 파일 형식입니다. JPG 또는 PNG 파일을 업로드해주세요.") st)
    else (true, setError None st).

(** Each handler reads [disabled] from its closure, so it is an argument
    here: the value of the prop at the render that made the handler. *)
Definition handleDragOver (disabled : bool) (st : State) : State :=
  if disabled then st else setIsDragOver true st.

Definition handleDragLeave (disabled : bool) (st : State) : State :=
  if disabled then st else setIsDragOver false st.

(** [files] is [e.dataTransfer.files], the empty list when it is absent. *)
Definition handleDrop (disabled : bool) (files : list File) (st : State) : State :=
  let st := setIsDragOver false st in
  if disabled then st
  else
    match files with
    | file :: _ =>
        let '(ok, st) := validateFile file st in
        if ok then onFileSelect file st else st
    | [] => st
    end.

Definition handleFileInput (disabled : bool) (files : list File) (st : State) : State :=
  if disabled then st
  else
    match files with
    | file :: _ =>
        let '(ok, st) := validateFile file st in
        if ok then onFileSelect file st else st
    | [] => st
    end.

(** What the renders so far have left behind.  [handleDragOver] and
    [handleDragLeave] are memoised on [disabled], and [handleFileInput] is
    made anew by every render: the three hold the [disabled] of the latest
    render.  [handleDrop] is memoised on [onFileSelect] alone: it holds the
    [disabled] of the render that made it, which is the first render or the
    latest one that came with another [onFileSelect]. *)
Record Rendered : Type := {
  disabled : bool;
  dropDisabled : bool
}.

Definition mount (disabled : bool) : Rendered :=
  {| disabled := disabled; dropDisabled := disabled |}.

(** A later render: [sameOnFileSelect] tells whether the [onFileSelect]
    prop is the function of the render before. *)
Definition render (disabled' sameOnFileSelect : bool) (r : Rendered) : Rendered :=
  {| disabled := disabled';
     dropDisabled := if sameOnFileSelect then dropDisabled r else disabled' |}.

(** The handlers bound to [onDragOver], [onDragLeave], [onDrop] and, on
    the file input, [onChange]. *)
Definition onDragOver (r : Rendered) (st : State) : State :=
  handleDragOver (disabled r) st.

Definition onDragLeave (r : Rendered) (st : State) : State :=
  handleDragLeave (disabled r) st.

Definition onDrop (r : Rendered) (files : list File) (st : State) : State :=
  handleDrop (dropDisabled r) files st.

Definition onChange (r : Rendered) (files : list File) (st : State) : State :=
  handleFileInput (disabled r) files st.

End Component.

End FileUpload.

(** ** netlify/functions/analyze.js *)

Module Analyze.
Import JS.

(** Values produced by [JSON.parse].  An object is kept as its list of
    properties; the first entry for a key is the property's value. *)
#[warnings="-register-all"] Inductive JSON : Type :=
| JNull
| JBool (b : bool)
| JNumber (n : Q)
| JString (s : string)
| JArray (items : list JSON)
| JObject (props : list (string * JSON)).

Fixpoint lookup (key : string) (props : list (string * JSON)) : option JSON :=
  match props with
  | [] => None
  | (k, v) :: rest => if String.eqb k key then Some v else lookup key rest
  end.

(** [v?.key]; [None] is [undefined].  None of the keys the program reads is
    a property of an array, a string, a number or a boolean. *)
Definition get (v : JSON) (key : string) : option JSON :=
  match v with
  | JObject props => lookup key props
  | _ => None
  end.

(** [v?.key] where [v] itself may be [undefined]. *)
Definition get_opt (v : option JSON) (key : string) : option JSON :=
  match v with
  | Some v => get v key
  | None => None
  end.

(** [a ?? b] *)
Definition nullish_or (a : option JSON) (b : JSON) : JSON :=
  match a with
  | None | Some JNull => b
  | Some v => v
  end.

(** [v === s] for a string literal [s]. *)
Definition is_string (v : option JSON) (s : string) : bool :=
  match v with
  | Some (JString s') => String.eqb s' s
  | _ => false
  end.

Inductive Body : Type :=
| Empty
| Stringify (v : JSON).

Record Response : Type := {
  statusCode : Z;
  headers : list (string * string);
  body : Body
}.

Record Event : Type := {
  httpMethod : string;
  event_body : option string
}.

Record Env : Type := {
  OPENAI_API_KEY : option string;
  OPENAI_MODEL : option string
}.

(** The request sent upstream, without its fixed parts (prompts and JSON
    schema). *)
Record UpstreamRequest : Type := {
  authorization : string;
  model : string;
  image_url : string
}.

(** A thrown error, as the [catch] clause reads it: [error.message] and
    [String(error)]. *)
Record Thrown : Type := { message : string; asString : string }.

(** What [fetch] and the following [openaiRes.json().catch(() => null)]
    give. *)
Inductive FetchOutcome : Type :=
| Rejected (e : Thrown)
| Resolved (ok : bool) (status : Z) (statusText : string) (payload : JSON).

(** [String_of] is [String(v)]; it throws on an object whose [toString]
    and [valueOf] give no primitive. *)
Record Host : Type := {
  JSON_parse : string -> option JSON;
  String_of : JSON -> Thrown + string;
  fetch : UpstreamRequest -> FetchOutcome;
  randomUUID : string;
  now_toISOString : string;
  Math_random : Q;
  nullPropertyError : Thrown
}.

Local Open Scope string_scope.

Fixpoint firstText (content : list JSON) : option string :=
  match content with
  | [] => None
  | part :: rest =>
      match get part "text" with
      | Some (JString text) =>
          if truthy (trim text) then Some text else firstText rest
      | _ => firstText rest
      end
  end.

Fixpoint scanOutput (output : list JSON) : string :=
  match output with
  | [] => EmptyString
  | item :: rest =>
      match get item "content" with
      | Some (JArray content) =>
          match firstText content with
          | Some text => text
          | None => scanOutput rest
          end
      | _ => scanOutput rest
      end
  end.

Definition extractOutputText (payload : JSON) : string :=
  match get payload "output_text" with
  | Some (JString s) => s
  | _ =>
      match get payload "output" with
      | Some (JArray output) => scanOutput output
      | _ => EmptyString
      end
  end.

Definition json (statusCode : Z) (body : JSON) : Response :=
  {| statusCode := statusCode;
     headers := [("Content-Type", "application/json; charset=utf-8")];
     body := Stringify body |}.

(** The property [key] of the value a response carries as its body. *)
Definition bodyField (r : Response) (key : string) : option JSON :=
  match body r with
  | Stringify v => get v key
  | Empty => None
  end.

Section Handler.

Variable host : Host.
Variable env : Env.

Definition analyzeFailed (e : Thrown) : Response :=
  json 500 (JObject
    [("error", JString "Analyze failed");
     ("message", JString (if truthy (message e) then message e else asString e))]).

(** The result object built from the parsed model output; [finding] is the
    outcome of [String(parsed.finding ?? '')]. *)
Definition analysisResult (parsed : JSON) (finding : string) : JSON :=
  let probability :=
    match get parsed "probability" with
    | Some (JNumber p) => Qmax 0 (Qmin 1 p)
    | _ => 0%Q
    end in
  JObject
    [("id", JString (randomUUID host));
     ("finding", JString finding);
     ("probability", JNumber probability);
     ("severity",
      match get parsed "severity" with
      | Some (JString s) =>
          if String.eqb s "High" || String.eqb s "Medium" || String.eqb s "Low"
          then JString s
          else JString "Low"
      | _ => JString "Low"
      end);
     ("boundingBoxes",
      match get parsed "boundingBoxes" with
      | Some (JArray boxes) => JArray boxes
      | _ => JArray []
      end);
     ("analysisDate", JString (now_toISOString host));
     ("modality", JString "X-RAY/IMG");
     ("patientId",
      JString ("ANON-"
               ++ String_of_Z (Qfloor (Math_random host * 9000) + 1000)))].

(** The answer to the model's output text (the [try] block from
    [extractOutputText] on).  Reading a property of [null] throws, so may
    [String(...)], and the [catch] clause answers. *)
Definition respondToOutput (text : string) : Response :=
  match JSON_parse host text with
  | None =>
      json 502 (JObject
        [("error", JString "Failed to parse model JSON output");
         ("raw", JString text)])
  | Some JNull => analyzeFailed (nullPropertyError host)
  | Some parsed =>
      match String_of host (nullish_or (get parsed "finding") (JString EmptyString)) with
      | inl e => analyzeFailed e
      | inr finding => json 200 (analysisResult parsed finding)
      end
  end.

Definition respondToUpstream (outcome : FetchOutcome) : Response :=
  match outcome with
  | Rejected e => analyzeFailed e
  | Resolved ok status statusText openaiPayload =>
      if negb ok then
        let payloadError := get openaiPayload "error" in
        let status' := if (status =? 0)%Z then 502%Z else status in
        let message :=
          nullish_or (get_opt payloadError "message") (JString statusText) in
        json status' (JObject
          [("error", JString "OpenAI request failed");
           ("status", JNumber (inject_Z status'));
           ("message", message);
           ("details", openaiPayload);
           ("invalidApiKey",
            JBool ((status =? 401)%Z
                   || is_string (get_opt payloadError "type") "invalid_api_key"
                   || is_string (get_opt payloadError "code") "invalid_api_key"))])
      else respondToOutput (extractOutputText openaiPayload)
  end.

Definition handler (event : Event) : Response :=
  if String.eqb (httpMethod event) "OPTIONS" then
    {| statusCode := 204;
       headers :=
         [("Access-Control-Allow-Origin", "*");
          ("Access-Control-Allow-Methods", "POST, OPTIONS");
          ("Access-Control-Allow-Headers", "Content-Type, Authorization")];
       body := Empty |}
  else if negb (String.eqb (httpMethod event) "POST") then
    json 405 (JObject [("error", JString "Method Not Allowed")])
  else
    let apiKey :=
      match OPENAI_API_KEY env with Some k => trim k | None => EmptyString end in
    if negb (truthy apiKey) then
      json 500 (JObject
        [("error", JString "Missing OPENAI_API_KEY");
         ("message",
          JString "Netlify 사이트 설정에서 Environment variables에 OPENAI_API_KEY를 추가한 뒤 재배포해 주세요.")])
    else
      let raw :=
        match event_body event with
        | Some b => if truthy b then b else "{}"
        | None => "{}"
        end in
      match JSON_parse host raw with
      | None => json 400 (JObject [("error", JString "Invalid JSON body")])
      | Some body =>
          match get body "imageDataUrl" with
          | Some (JString imageDataUrl) =>
              if negb (startsWith imageDataUrl "data:image/") then
                json 400 (JObject
                  [("error", JString "`imageDataUrl` is required (data URL)")])
              else
                let resolvedModel :=
                  match OPENAI_MODEL env with
                  | Some m => if truthy (trim m) then trim m else "gpt-4o-mini"
                  | None => "gpt-4o-mini"
                  end in
                respondToUpstream
                  (fetch host
                     {| authorization := "Bearer " ++ apiKey;
                        model := resolvedModel;
                        image_url := imageDataUrl |})
          | _ =>
              json 400 (JObject
                [("error", JString "`imageDataUrl` is required (data URL)")])
          end
      end.

End Handler.

End Analyze.

(** ** The specification's formulas

    Written from the specification's words, to be compared with the
    definitions above, which follow the source. *)

Module Spec.
Import JS.

Local Open Scope Q_scope.

Definition clamp (x lo hi : Q) : Q := Qmin hi (Qmax lo x).

(** A height the form has left blank reads as zero. *)
Definition unset (h : Q) : bool := Qeq_bool h 0.

(** The formulas of the three integer display values are read in the
    program's arithmetic, every operation rounded to binary64. *)
Definition predictedAdultHeight (h p : Q) : Z :=
  let base := if unset h then 140 else h in
  let delta := Binary64.mul (Binary64.sub p (1 # 2)) 12 in
  Math_round (Binary64.add (Binary64.add base 10) delta).

(** [{min: max(120, predicted - 4), max: predicted + 3}] *)
Definition predictedRange (predicted : Z) : Q * Q :=
  (Qmax 120 (Binary64.sub (inject_Z predicted) 4),
   Binary64.add (inject_Z predicted) 3).

Definition osteoAgeScore (p : Q) : Z :=
  Math_round (clamp (Binary64.add 45 (Binary64.mul p 50)) 55 100).

(** A slider value: the rounded score, kept between [lo] and 100. *)
Definition sliderValue (p offset : Q) (lo : Z) : Z :=
  Z.max lo
    (Z.min 100
       (Math_round (Binary64.add (Binary64.add 60 (Binary64.mul p 25)) offset))).

(** Linear interpolation over the seven intervals of the curve. *)
Definition curveHeight (base predicted : Q) (index : Z) : Q :=
  base + (predicted - base) / 7 * inject_Z index.

(** The values of the severity enumeration. *)
Definition severityLevels : list string :=
  ["Low"%string; "Medium"%string; "High"%string].

(** A file name ends in a supported extension; upper and lower case are
    not told apart. *)
Definition hasSupportedExtension
  (SUPPORTED_FILE_TYPES : list (string * list string)) (name : string) : Prop :=
  exists ext,
    In ext (FileUpload.supportedExtensions SUPPORTED_FILE_TYPES)
    /\ endsWith (toLowerCase name) ext = true.

(** A file size, in bytes, is past the ceiling by a byte or more. *)
Definition oversized (MAX_FILE_SIZE_MB : Q) (size : Z) : Prop :=
  FileUpload.sizeLimit MAX_FILE_SIZE_MB + 1 <= inject_Z size.

End Spec.

(** ** Sample inputs *)

Module Samples.
Import Types.

Local Open Scope string_scope.

Definition patient : PatientInfo :=
  {| name := None; sex := Female; birthDate := "2010-06-15";
     heightCm := 142; weightKg := 38; examDate := "2024-06-10" |}.

Definition result : AnalysisResult :=
  {| id := "5e1f"; finding := "finding"; probability := 7 # 10;
     severity := Medium; boundingBoxes := []; analysisDate := EmptyString;
     modality := "X-RAY/IMG"; patientId := "ANON-1234"; summary := None |}.

Definition MAX_FILE_SIZE_MB : Q := 10.

Definition SUPPORTED_FILE_TYPES : list (string * list string) :=
  [("image/jpeg", [".jpg"; ".jpeg"]); ("image/png", [".png"])].

Definition Number_toString (n : Q) : string := JS.String_of_Z (Qfloor n).

Definition idle : FileUpload.State :=
  {| FileUpload.isDragOver := true;
     FileUpload.error := Some "old message";
     FileUpload.selected := [] |}.

Definition goodFile : FileUpload.File :=
  {| FileUpload.file_name := "Hand.PNG"; FileUpload.size := 10485760 |}.

Definition largeFile : FileUpload.File :=
  {| FileUpload.file_name := "hand.png"; FileUpload.size := 10485761 |}.

Definition gifFile : FileUpload.File :=
  {| FileUpload.file_name := "hand.gif"; FileUpload.size := 2048 |}.

(** A model output with a probability out of range and a severity outside
    the enumeration, and a host that parses this text, the request text and
    [null].  Its [String_of] is exact on strings, [null], booleans and plain
    objects, which is all the samples need. *)
Definition quote : string := String (ascii_of_nat 34) EmptyString.

Definition modelText : string :=
  "{" ++ quote ++ "probability" ++ quote ++ ":1.7,"
      ++ quote ++ "severity" ++ quote ++ ":" ++ quote ++ "Severe" ++ quote ++ "}".

Definition modelOutput : Analyze.JSON :=
  Analyze.JObject
    [("probability", Analyze.JNumber (17 # 10));
     ("severity", Analyze.JString "Severe")].

Definition requestText : string :=
  "{" ++ quote ++ "imageDataUrl" ++ quote ++ ":"
      ++ quote ++ "data:image/png;base64,AAAA" ++ quote ++ "}".

Definition gatewayHost : Analyze.Host :=
  {| Analyze.JSON_parse := fun s =>
       if String.eqb s "null" then Some Analyze.JNull
       else if String.eqb s modelText then Some modelOutput
       else if String.eqb s requestText then
         Some (Analyze.JObject
                 [("imageDataUrl", Analyze.JString "data:image/png;base64,AAAA")])
       else None;
     Analyze.String_of := fun v =>
       match v with
       | Analyze.JString s => inr s
       | Analyze.JNull => inr "null"
       | Analyze.JBool true => inr "true"
       | Analyze.JBool false => inr "false"
       | Analyze.JNumber n => inr (JS.String_of_Z (Qfloor n))
       | Analyze.JArray _ => inr EmptyString
       | Analyze.JObject props =>
           match Analyze.lookup "toString" props with
           | Some _ =>
               inl {| Analyze.message := "Cannot convert object to primitive value";
                      Analyze.asString := "TypeError" |}
           | None => inr "[object Object]"
           end
       end;
     Analyze.fetch := fun _ =>
       Analyze.Resolved true 200 "OK"
         (Analyze.JObject [("output_text", Analyze.JString modelText)]);
     Analyze.randomUUID := "0b9c2a4e-5d7f-4c1a-9e3b-6f8d0a1c2e4b";
     Analyze.now_toISOString := "2024-06-10T00:00:00.000Z";
     Analyze.Math_random := 1 # 4;
     Analyze.nullPropertyError :=
       {| Analyze.message := "Cannot read properties of null (reading 'probability')";
          Analyze.asString := "TypeError" |} |}.

Definition gatewayEnv : Analyze.Env :=
  {| Analyze.OPENAI_API_KEY := Some " sk-sample ";
     Analyze.OPENAI_MODEL := None |}.

Definition gatewayEvent : Analyze.Event :=
  {| Analyze.httpMethod := "POST"; Analyze.event_body := Some requestText |}.

(** The point [nth] hands out for an index past the end of a curve. *)
Definition origin : GrowthPoint := {| age := 0; gp_height := 0 |}.

End Samples.

(** ** Derived notions used to state further properties *)

Module Calendar.
Import ECMA Age.

(** The number of whole months from the local calendar day of [birth] to
    that of [reference]: a month counts once the day of the month has come
    round again. *)
Definition completedMonths (h : Host) (birth reference : Z) : Z :=
  12 * (getFullYear h reference - getFullYear h birth)
  + (getMonth h reference - getMonth h birth)
  - (if getDate h reference <? getDate h birth then 1 else 0).

Definition totalMonths (a : AgeResult) : Z := 12 * years a + months a.

(** Year, month (1..12) and day as written in a [YYYY-MM-DD] string that
    [parseISODate] accepts. *)
Definition isoFields (s : string) : option (Z * Z * Z) :=
  if negb (String.length s =? 10)%nat then None
  else if negb (String.eqb (substring 4 1 s) "-"
                && String.eqb (substring 7 1 s) "-") then None
  else
    match parseDigits 0 (substring 0 4 s),
          parseDigits 0 (substring 5 2 s),
          parseDigits 0 (substring 8 2 s) with
    | Some y, Some m, Some d =>
        if (1 <=? m) && (m <=? 12) && (1 <=? d) && (d <=? DaysInMonth y (m - 1))
        then Some (y, m, d)
        else None
    | _, _, _ => None
    end.

End Calendar.

(** ** components/AnalysisResults.tsx: the chart geometry *)

Module Chart.
Import Age JS Types.

Local Open Scope Q_scope.

Record ChartPoint : Type := {
  cp_age : Z;
  cp_height : Q;
  cp_x : Q;
  cp_y : Q
}.

Record GraphMeta : Type := {
  gm_width : Q;
  gm_height : Q;
  normalized : list ChartPoint;
  path : string;
  currentPoint : ChartPoint;
  minAge : Z;
  maxAge : Z
}.

(** [list.map((item, index) => f item index)], counting from [i]. *)
Fixpoint mapi_from {A B : Type} (i : Z) (f : A -> Z -> B) (l : list A) : list B :=
  match l with
  | [] => []
  | a :: rest => f a i :: mapi_from (i + 1)%Z f rest
  end.

(** [Math.min(first, ...rest)] and [Math.max(first, ...rest)]. *)
Definition Math_min_of (first : Q) (rest : list Q) : Q := fold_left Qmin rest first.
Definition Math_max_of (first : Q) (rest : list Q) : Q := fold_left Qmax rest first.

Definition Qltb (a b : Q) : bool := negb (Qle_bool b a).

Definition padded (maxWidth : Q) (index total : Z) : Q :=
  if (total <=? 1)%Z then maxWidth / 2
  else (inject_Z index / inject_Z (total - 1)) * maxWidth.

(** The [reduce] that picks the marker: of two points the one seen first
    stays unless the next is strictly closer. *)
Definition closer (currentDecimalAge : Q) (closest next : ChartPoint) : ChartPoint :=
  if Qltb (Qabs (inject_Z (cp_age next) - currentDecimalAge))
          (Qabs (inject_Z (cp_age closest) - currentDecimalAge))
  then next
  else closest.

(** How far a plotted point's age is from the age [c]; [closer] compares
    these. *)
Definition distance (c : Q) (q : ChartPoint) : Q := Qabs (inject_Z (cp_age q) - c).

Section GraphMeta.

(** How a number is written inside a template literal. *)
Variable Number_toString : Q -> string.

Definition graphMeta (graphPoints : list GrowthPoint) (chronologicalAge : AgeResult)
  : option GraphMeta :=
  match graphPoints with
  | [] => None
  | first :: rest =>
      let width := 320 in
      let height := 160 in
      let padding := 28 in
      let heights := map gp_height rest in
      let minHeight := Qmax 110 (Math_min_of (gp_height first) heights - 4) in
      let maxHeight := Math_max_of (gp_height first) heights + 6 in
      let range := Qmax 1 (maxHeight - minHeight) in
      let normalized :=
        mapi_from 0 (fun point index =>
          let x :=
            padded (width - padding * 2) index (Z.of_nat (List.length graphPoints))
            + padding in
          let y :=
            padding
            + (1 - (gp_height point - minHeight) / range) * (height - padding * 2) in
          {| cp_age := age point; cp_height := gp_height point;
             cp_x := x; cp_y := y |}) graphPoints in
      let path :=
        String.concat " "
          (mapi_from 0 (fun point index =>
             ((if (index =? 0)%Z then "M" else "L") ++ " "
              ++ Number_toString (cp_x point) ++ " "
              ++ Number_toString (cp_y point))%string) normalized) in
      let currentDecimalAge :=
        inject_Z (years chronologicalAge) + inject_Z (months chronologicalAge) / 12 in
      (* [normalized] is as long as [graphPoints]: it has a first point *)
      match normalized with
      | [] => None
      | first' :: _ =>
          Some {| gm_width := width;
                  gm_height := height;
                  normalized := normalized;
                  path := path;
                  currentPoint := fold_left (closer currentDecimalAge) normalized first';
                  minAge := cp_age first';
                  maxAge := cp_age (last normalized first') |}
      end
  end.

End GraphMeta.

End Chart.

(** ** More sample inputs *)

Module ChartSamples.
Import ECMA Age Types.

Definition curve : list GrowthPoint :=
  AnalysisResults.graphPoints (isoHost 32400000) 0 0 Samples.result Samples.patient.

Definition age : AgeResult :=
  AnalysisResults.chronologicalAge (isoHost 32400000) 0 0 Samples.patient.

(** The sample result with a higher probability. *)
Definition surer : AnalysisResult :=
  {| id := id Samples.result; finding := finding Samples.result;
     probability := 9 # 10;
     severity := High; boundingBoxes := []; analysisDate := analysisDate Samples.result;
     modality := modality Samples.result; patientId := patientId Samples.result;
     summary := None |}.

End ChartSamples.


(** ** components/ImageViewer.tsx: the zoom level *)

Module ImageViewer.
Import JS.

Local Open Scope Q_scope.

Definition handleZoomIn (s : Q) : Q := Qmin (s + (1 # 2)) 4.
Definition handleZoomOut (s : Q) : Q := Qmax (s - (1 # 2)) 1.
Definition handleResetZoom (s : Q) : Q := 1.

(** What can happen to the zoom level: the three buttons, and a change of
    file, which the effect answers with [setScale(1)]. *)
Inductive Action : Type := ZoomIn | ZoomOut | ResetZoom | FileChanged.

Definition step (s : Q) (a : Action) : Q :=
  match a with
  | ZoomIn => handleZoomIn s
  | ZoomOut => handleZoomOut s
  | ResetZoom => handleResetZoom s
  | FileChanged => 1
  end.

(** The zoom level after a run of actions, from [useState(1)]. *)
Definition run (actions : list Action) : Q := fold_left step actions 1.

(** The percentage shown in the toolbar. *)
Definition zoomPercent (s : Q) : Z := Math_round (s * 100).

End ImageViewer.

(** ** components/FileUpload.tsx: runs of events *)

Module FileUploadRun.
Import FileUpload.

(** The events of the widget; each carries the [disabled] that its
    handler holds. *)
Inductive Event : Type :=
| DragOver (disabled : bool)
| DragLeave (disabled : bool)
| Drop (disabled : bool) (files : list File)
| Input (disabled : bool) (files : list File).

(** The state at mount: [useState(false)], [useState(null)], and no call
    made yet. *)
Definition mounted : State :=
  {| isDragOver := false; error := None; selected := [] |}.

Section Component.

Variable MAX_FILE_SIZE_MB : Q.
Variable SUPPORTED_FILE_TYPES : list (string * list string).
Variable Number_toString : Q -> string.

Definition step (st : State) (ev : Event) : State :=
  match ev with
  | DragOver disabled => handleDragOver disabled st
  | DragLeave disabled => handleDragLeave disabled st
  | Drop disabled files =>
      handleDrop MAX_FILE_SIZE_MB SUPPORTED_FILE_TYPES Number_toString disabled files st
  | Input disabled files =>
      handleFileInput MAX_FILE_SIZE_MB SUPPORTED_FILE_TYPES Number_toString disabled files st
  end.

Definition run (events : list Event) : State := fold_left step events mounted.

(** Every file handed to [onFileSelect] so far passes both checks. *)
Definition allValid (st : State) : Prop :=
  forall file, In file (selected st) ->
    Spec.hasSupportedExtension SUPPORTED_FILE_TYPES (file_name file)
    /\ (inject_Z (size file) <= sizeLimit MAX_FILE_SIZE_MB)%Q.

(** The widget with its renders: what happens to it is a render, with the
    [disabled] prop and whether [onFileSelect] is the function of before,
    or an event, which goes to the handler the renders have left bound. *)
Inductive WidgetEvent : Type :=
| Render (disabled sameOnFileSelect : bool)
| OnDragOver
| OnDragLeave
| OnDrop (files : list File)
| OnChange (files : list File).

Definition widgetStep (w : Rendered * State) (ev : WidgetEvent) : Rendered * State :=
  match ev with
  | Render d same => (render d same (fst w), snd w)
  | OnDragOver => (fst w, onDragOver (fst w) (snd w))
  | OnDragLeave => (fst w, onDragLeave (fst w) (snd w))
  | OnDrop files =>
      (fst w,
       onDrop MAX_FILE_SIZE_MB SUPPORTED_FILE_TYPES Number_toString (fst w) files (snd w))
  | OnChange files =>
      (fst w,
       onChange MAX_FILE_SIZE_MB SUPPORTED_FILE_TYPES Number_toString (fst w) files (snd w))
  end.

Definition widgetRun (disabled : bool) (events : list WidgetEvent) : Rendered * State :=
  fold_left widgetStep events (mount disabled, mounted).

(** Every render of the run brings another [onFileSelect], as a parent
    does that passes a function it makes at each of its renders. *)
Definition freshCallback (events : list WidgetEvent) : Prop :=
  forall d same, In (Render d same) events -> same = false.

End Component.

End FileUploadRun.

(** ** netlify/functions/analyze.js: notions for further properties *)

Module AnalyzeNotions.
Import JS Analyze.

Local Open Scope string_scope.

(** [text] is the non-blank text of some part of the content of some item
    of [output]. *)
Definition isTextPart (output : list JSON) (text : string) : Prop :=
  exists item content part,
    In item output
    /\ get item "content" = Some (JArray content)
    /\ In part content
    /\ get part "text" = Some (JString text)
    /\ truthy (trim text) = true.

(** The shape of a success body: the eight fields in their order, a
    probability within 0..1 and a severity of the enumeration. *)
Definition isAnalysisResult (v : JSON) : Prop :=
  exists id finding p severity boxes date patientId,
    v = JObject
          [("id", JString id);
           ("finding", JString finding);
           ("probability", JNumber p);
           ("severity", JString severity);
           ("boundingBoxes", JArray boxes);
           ("analysisDate", JString date);
           ("modality", JString "X-RAY/IMG");
           ("patientId", JString patientId)]
    /\ (0 <= p <= 1)%Q
    /\ In severity Spec.severityLevels.

(** The host [h] with [f] in the place of its [fetch]. *)
Definition withFetch (h : Host) (f : UpstreamRequest -> FetchOutcome) : Host :=
  {| JSON_parse := JSON_parse h;
     String_of := String_of h;
     fetch := f;
     randomUUID := randomUUID h;
     now_toISOString := now_toISOString h;
     Math_random := Math_random h;
     nullPropertyError := nullPropertyError h |}.

(** [fetch] resolves with [ok] exactly for the statuses 200..299. *)
Definition fetchWellFormed (h : Host) : Prop :=
  forall request ok status statusText payload,
    fetch h request = Resolved ok status statusText payload ->
    (ok = true <-> (200 <= status <= 299)%Z).

(** The body the handler reads: [event.body || '{}']. *)
Definition requestText (event : Event) : string :=
  match event_body event with
  | Some b => if truthy b then b else "{}"
  | None => "{}"
  end.

End AnalyzeNotions.

(** ** services/analysisService.ts: the error message of a failed call *)

Module AnalysisService.
Import JS Analyze.

Local Open Scope string_scope.

(** Truthiness of a JSON value; [undefined] is [None]. *)
Definition truthyJSON (v : JSON) : bool :=
  match v with
  | JNull => false
  | JBool b => b
  | JNumber n => negb (Qeq_bool n 0)
  | JString s => truthy s
  | JArray _ => true
  | JObject _ => true
  end.

Definition truthyValue (v : option JSON) : bool :=
  match v with
  | Some v => truthyJSON v
  | None => false
  end.

Section Service.

Variable host : Host.

(** The value [extractApiError] returns; the source types it as a string,
    but [payload.error.message] comes back as it is.  An exception inside
    the [try] ([JSON.parse], or [String] on an object that has no primitive)
    makes the [catch] return [text]. *)
Definition extractApiError (text : string) (status : Z) : JSON :=
  if negb (truthy text) then
    JString ("Analyze failed (" ++ String_of_Z status ++ ")")
  else
    match JSON_parse host text with
    | None => JString text
    | Some payload =>
        (* payload?.error && (typeof payload.error === 'string'
                                ? payload.error : payload.error.message) *)
        let fromError : option JSON :=
          match get payload "error" with
          | Some e =>
              if truthyJSON e then
                match e with
                | JString _ => Some e
                | _ => get e "message"
                end
              else Some e
          | None => None
          end in
        (* ... || text *)
        let orText (v : option JSON) : JSON :=
          match v with
          | Some v => if truthyJSON v then v else JString text
          | None => JString text
          end in
        (* payload?.message && String(payload.message) *)
        match get payload "message" with
        | Some m =>
            if truthyJSON m then
              match String_of host m with
              | inl _ => JString text
              | inr s => if truthy s then JString s else orText fromError
              end
            else orText fromError
        | None => orText fromError
        end
    end.

End Service.

End AnalysisService.

(** ** vite.config.ts: the development proxy for [/api/analyze] *)

Module ViteProxy.
Import JS Analyze.

Local Open Scope string_scope.

(** [req.method] and the request's chunks, concatenated and decoded. *)
Record Request : Type := {
  method : string;
  chunks : string
}.

Section Proxy.

Variable host : Host.

(** [env.OPENAI_API_KEY] and [env.OPENAI_MODEL], the plugin's arguments. *)
Variable apiKey : option string.
Variable model : option string.

(** [None] when [JSON.parse] throws. *)
Definition readJsonBody (req : Request) : option JSON :=
  let raw := trim (chunks req) in
  if negb (truthy raw) then Some (JObject [])
  else JSON_parse host raw.

(** The answer written to [res]; [inl] when the handler's promise rejects
    with nothing written: [body.imageDataUrl] is read outside the [try], and
    reading a property of [null] throws. *)
Definition handler (req : Request) : Thrown + Response :=
  if negb (String.eqb (method req) "POST") then
    inr (json 405 (JObject [("error", JString "Method Not Allowed")]))
  else if negb (truthy match apiKey with Some k => trim k | None => EmptyString end) then
    inr (json 500 (JObject [("error", JString "Missing OPENAI_API_KEY in .env.local")]))
  else
    match readJsonBody req with
    | None => inr (json 400 (JObject [("error", JString "Invalid JSON body")]))
    | Some JNull => inl (nullPropertyError host)
    | Some body =>
        match get body "imageDataUrl" with
        | Some (JString imageDataUrl) =>
            if negb (truthy imageDataUrl) then
              inr (json 400 (JObject [("error", JString "`imageDataUrl` is required")]))
            else
              let resolvedModel :=
                match model with
                | Some m => if truthy (trim m) then trim m else "gpt-4o-mini"
                | None => "gpt-4o-mini"
                end in
              inr (respondToUpstream host
                     (fetch host
                        {| authorization :=
                             "Bearer " ++ match apiKey with
                                          | Some k => k
                                          | None => "undefined"
                                          end;
                           Analyze.model := resolvedModel;
                           image_url := imageDataUrl |}))
        | _ =>
            inr (json 400 (JObject [("error", JString "`imageDataUrl` is required")]))
        end
    end.

End Proxy.

End ViteProxy.

(** ** App.tsx: the session *)

Module App.
Import JS Types.

Local Open Scope string_scope.

Inductive AppState : Type := IDLE | ANALYZING | RESULTS.

Record UploadedFile : Type := {
  file : FileUpload.File;
  previewUrl : string
}.

(** The component's state, with the messages shown by [alert] so far (latest
    first) and the number of [analyzeImage] calls that have not settled. *)
Record State : Type := {
  appState : AppState;
  currentFile : option UploadedFile;
  result : option AnalysisResult;
  analysisError : option string;
  patientInfo : PatientInfo;
  alerts : list string;
  inFlight : nat
}.

(** [Partial<PatientInfo>] *)
Record Changes : Type := {
  set_name : option (option string);
  set_sex : option PatientSex;
  set_birthDate : option string;
  set_heightCm : option Q;
  set_weightKg : option Q;
  set_examDate : option string
}.

Definition or_keep {A : Type} (change : option A) (old : A) : A :=
  match change with Some v => v | None => old end.

(** [{ ...prev, ...changes }] *)
Definition merge (prev : PatientInfo) (changes : Changes) : PatientInfo :=
  {| name := or_keep (set_name changes) (name prev);
     sex := or_keep (set_sex changes) (sex prev);
     birthDate := or_keep (set_birthDate changes) (birthDate prev);
     heightCm := or_keep (set_heightCm changes) (heightCm prev);
     weightKg := or_keep (set_weightKg changes) (weightKg prev);
     examDate := or_keep (set_examDate changes) (examDate prev) |}.

Definition isPatientFormComplete (p : PatientInfo) : bool :=
  truthy (birthDate p) && truthy (examDate p)
  && negb (Qeq_bool (heightCm p) 0) && negb (Qeq_bool (weightKg p) 0).

(** The state at mount; [today] is the host's date. *)
Definition initial (today : string) : State :=
  {| appState := IDLE;
     currentFile := None;
     result := None;
     analysisError := None;
     patientInfo :=
       {| name := Some EmptyString; sex := Female; birthDate := EmptyString;
          heightCm := 142; weightKg := 38; examDate := today |};
     alerts := [];
     inFlight := 0 |}.

Definition handlePatientInfoChange (changes : Changes) (st : State) : State :=
  {| appState := appState st;
     currentFile := currentFile st;
     result := result st;
     analysisError := analysisError st;
     patientInfo := merge (patientInfo st) changes;
     alerts := alerts st;
     inFlight := inFlight st |}.

(** [startAnalysis] up to its [await]. *)
Definition startAnalysis (st : State) : State :=
  {| appState := ANALYZING;
     currentFile := currentFile st;
     result := result st;
     analysisError := None;
     patientInfo := patientInfo st;
     alerts := alerts st;
     inFlight := S (inFlight st) |}.

(** [previewUrl] is what [URL.createObjectURL] gives for the file. *)
Definition handleFileSelect (f : FileUpload.File) (previewUrl : string) (st : State)
  : State :=
  if negb (isPatientFormComplete (patientInfo st)) then
    {| appState := appState st;
       currentFile := currentFile st;
       result := result st;
       analysisError := analysisError st;
       patientInfo := patientInfo st;
       alerts := "분석에 앞서 환자 정보를 먼저 입력해주세요." :: alerts st;
       inFlight := inFlight st |}
  else
    startAnalysis
      {| appState := appState st;
         currentFile := Some {| file := f; previewUrl := previewUrl |};
         result := result st;
         analysisError := analysisError st;
         patientInfo := patientInfo st;
         alerts := alerts st;
         inFlight := inFlight st |}.

(** [startAnalysis] after its [await], when the call resolves. *)
Definition analysisResolved (data : AnalysisResult) (st : State) : State :=
  {| appState := RESULTS;
     currentFile := currentFile st;
     result := Some data;
     analysisError := analysisError st;
     patientInfo := patientInfo st;
     alerts := alerts st;
     inFlight := pred (inFlight st) |}.

(** [startAnalysis] after its [await], when the call rejects with an
    [Error] of message [message]. *)
Definition analysisRejected (message : string) (st : State) : State :=
  {| appState := IDLE;
     currentFile := None;
     result := result st;
     analysisError := Some message;
     patientInfo := patientInfo st;
     alerts := message :: alerts st;
     inFlight := pred (inFlight st) |}.

Definition resetApp (st : State) : State :=
  {| appState := IDLE;
     currentFile := None;
     result := None;
     analysisError := None;
     patientInfo := patientInfo st;
     alerts := alerts st;
     inFlight := inFlight st |}.

(** What can happen to the session. *)
Inductive Event : Type :=
| PatientChange (changes : Changes)
| FileSelected (f : FileUpload.File) (previewUrl : string)
| AnalysisResolved (data : AnalysisResult)
| AnalysisRejected (message : string)
| Reset.

(** An event takes place only where the page offers it: the form and the
    upload widget are rendered in the idle state only, the buttons that
    reset (sub-header, back button) outside it only, and a call settles only
    while one is in flight.  [None] marks an event that cannot take place. *)
Definition step (st : State) (ev : Event) : option State :=
  match ev, appState st with
  | PatientChange changes, IDLE => Some (handlePatientInfoChange changes st)
  | FileSelected f previewUrl, IDLE => Some (handleFileSelect f previewUrl st)
  | AnalysisResolved data, _ =>
      if (0 <? inFlight st)%nat then Some (analysisResolved data st) else None
  | AnalysisRejected message, _ =>
      if (0 <? inFlight st)%nat then Some (analysisRejected message st) else None
  | Reset, ANALYZING => Some (resetApp st)
  | Reset, RESULTS => Some (resetApp st)
  | _, _ => None
  end.

Fixpoint run (events : list Event) (st : State) : option State :=
  match events with
  | [] => Some st
  | ev :: rest =>
      match step st ev with
      | Some st' => run rest st'
      | None => None
      end
  end.

(** The results view is rendered. *)
Definition showsResults (st : State) : Prop :=
  appState st = RESULTS /\ currentFile st <> None /\ result st <> None.

(** What holds of the session at all times. *)
Definition sound (st : State) : Prop :=
  (currentFile st <> None ->
   appState st <> IDLE /\ isPatientFormComplete (patientInfo st) = true)
  /\ (appState st = ANALYZING -> currentFile st <> None /\ (0 < inFlight st)%nat)
  /\ (appState st = RESULTS -> result st <> None).

End App.

Module GatewaySamples.
Import Analyze.

Local Open Scope string_scope.

(** An upstream payload without [output_text]: the first content part is
    blank, the second carries the text. *)
Definition partsOutput : list JSON :=
  [JObject [("content",
             JArray [JObject [("text", JString "  ")];
                     JObject [("text", JString "{}")]])]].

Definition partsPayload : JSON := JObject [("output", JArray partsOutput)].

(** The body of the 405 answer as text, and a browser-side host that reads
    it back. *)
Definition methodText : string :=
  "{" ++ Samples.quote ++ "error" ++ Samples.quote ++ ":"
      ++ Samples.quote ++ "Method Not Allowed" ++ Samples.quote ++ "}".

Definition browserHost : Host :=
  {| JSON_parse := fun s =>
       if String.eqb s methodText
       then Some (JObject [("error", JString "Method Not Allowed")])
       else None;
     String_of := String_of Samples.gatewayHost;
     fetch := fetch Samples.gatewayHost;
     randomUUID := randomUUID Samples.gatewayHost;
     now_toISOString := now_toISOString Samples.gatewayHost;
     Math_random := Math_random Samples.gatewayHost;
     nullPropertyError := nullPropertyError Samples.gatewayHost |}.

(** A key without white space around it, and the sample request as the
    development server receives it. *)
Definition cleanEnv : Env :=
  {| OPENAI_API_KEY := Some "sk-sample"; OPENAI_MODEL := None |}.

Definition devRequest : ViteProxy.Request :=
  {| ViteProxy.method := "POST"; ViteProxy.chunks := Samples.requestText |}.

(** A request that is not a POST. *)
Definition getEvent : Event :=
  {| httpMethod := "GET"; event_body := None |}.

(** A no-break space (U+00A0), an upstream payload whose only text is one,
    and an environment whose key is one. *)
Definition nbsp : string := string_of_list_ascii (JS.utf8 160).

Definition nbspPayload : JSON :=
  JObject [("output",
            JArray [JObject [("content", JArray [JObject [("text", JString nbsp)]])]])].

Definition nbspEnv : Env :=
  {| OPENAI_API_KEY := Some nbsp; OPENAI_MODEL := None |}.

End GatewaySamples.

Module SessionSamples.
Import Types App.

Local Open Scope string_scope.

Definition fillIn : Changes :=
  {| set_name := None; set_sex := None; set_birthDate := Some "2010-06-15";
     set_heightCm := None; set_weightKg := None; set_examDate := None |}.

Definition upload : UploadedFile :=
  {| file := Samples.goodFile; previewUrl := "blob:preview" |}.

(** Fill in the birth date, pick a file, and the analysis resolves. *)
Definition session : list Event :=
  [PatientChange fillIn;
   FileSelected Samples.goodFile "blob:preview";
   AnalysisResolved Samples.result].

End SessionSamples.

(** ** Sample inputs in binary64 *)

Module Samples64.
Import Types.

Local Open Scope string_scope.

(** The sample patient with another height, and the sample result with
    another probability. *)
Definition patientOf (h : Q) : PatientInfo :=
  {| name := None; sex := Female; birthDate := "2010-06-15";
     heightCm := h; weightKg := 38; examDate := "2024-06-10" |}.

Definition resultOf (p : Q) : AnalysisResult :=
  {| id := "5e1f"; finding := "finding"; probability := p;
     severity := Medium; boundingBoxes := []; analysisDate := EmptyString;
     modality := "X-RAY/IMG"; patientId := "ANON-1234"; summary := None |}.

End Samples64.

(** * Properties *)

(** ** The calendar *)

Module ECMAFacts.
Import ECMA.

Lemma DayFromYear_succ (y : Z) :
  DayFromYear (y + 1) = DayFromYear y + DaysInYear y.
Proof.
  unfold DayFromYear, DaysInYear, isLeapYear.
  repeat match goal with
         | |- context [?a =? ?b] => destruct (Z.eqb_spec a b); cbn [negb]
         end;
    Z.div_mod_to_equations; lia.
Qed.

Lemma DaysInYear_bounds (y : Z) : 365 <= DaysInYear y <= 366.
Proof. unfold DaysInYear. destruct (isLeapYear y); lia. Qed.

Lemma DaysInYear_leapDays (y : Z) : DaysInYear y = 365 + leapDays y.
Proof. unfold DaysInYear, leapDays. destruct (isLeapYear y); reflexivity. Qed.

(** [YearFromDay d] is the year whose days contain [d]. *)
Lemma YearFromDay_spec (d : Z) :
  DayFromYear (YearFromDay d) <= d < DayFromYear (YearFromDay d + 1).
Proof.
  unfold YearFromDay.
  set (y := 1970 + (400 * d) / 146097).
  assert (Hlo : DayFromYear (y - 1) <= d)
    by (unfold DayFromYear, y; Z.div_mod_to_equations; lia).
  assert (Hhi : d < DayFromYear (y + 2))
    by (unfold DayFromYear, y; Z.div_mod_to_equations; lia).
  destruct (Z.leb_spec (DayFromYear (y + 1)) d).
  - replace (y + 1 + 1) with (y + 2) by lia. lia.
  - destruct (Z.leb_spec (DayFromYear y) d).
    + lia.
    + replace (y - 1 + 1) with y by lia. lia.
Qed.

Lemma DayFromYear_mono (y1 y2 : Z) : y1 <= y2 -> DayFromYear y1 <= DayFromYear y2.
Proof.
  intros H. unfold DayFromYear. Z.div_mod_to_equations. lia.
Qed.

Lemma YearFromDay_mono (d1 d2 : Z) : d1 <= d2 -> YearFromDay d1 <= YearFromDay d2.
Proof.
  intros H.
  pose proof (YearFromDay_spec d1) as [L1 _].
  pose proof (YearFromDay_spec d2) as [_ U2].
  destruct (Z.le_gt_cases (YearFromDay d1) (YearFromDay d2)) as [|Hgt]; [assumption|].
  pose proof (DayFromYear_mono (YearFromDay d2 + 1) (YearFromDay d1)). lia.
Qed.

Lemma DayWithinYear_bounds (d : Z) :
  0 <= DayWithinYear d < 365 + leapDays (YearFromDay d).
Proof.
  unfold DayWithinYear.
  pose proof (YearFromDay_spec d) as [L U].
  rewrite DayFromYear_succ, DaysInYear_leapDays in U. lia.
Qed.

Lemma leapDays_bounds (y : Z) : 0 <= leapDays y <= 1.
Proof. unfold leapDays. destruct (isLeapYear y); lia. Qed.

Ltac split_month :=
  unfold MonthFromDayWithinYear;
  repeat match goal with
         | |- context [?a <? ?b] => destruct (Z.ltb_spec a b)
         end.

Lemma MonthFromDayWithinYear_bounds (leap dwy : Z) :
  0 <= MonthFromDayWithinYear leap dwy <= 11.
Proof. split_month; lia. Qed.

Lemma MonthFromDayWithinYear_mono (leap d1 d2 : Z) :
  d1 <= d2 ->
  MonthFromDayWithinYear leap d1 <= MonthFromDayWithinYear leap d2.
Proof. intros H. split_month; lia. Qed.

Lemma MonthFromTime_bounds (t : Z) : 0 <= MonthFromTime t <= 11.
Proof. apply MonthFromDayWithinYear_bounds. Qed.

(** The day of the month lies within the month. *)
Lemma DateFromTime_bounds (t : Z) :
  1 <= DateFromTime t <= DaysInMonth (YearFromTime t) (MonthFromTime t).
Proof.
  unfold DateFromTime, MonthFromTime, InLeapYear, YearFromTime.
  pose proof (DayWithinYear_bounds (Day t)) as B.
  pose proof (leapDays_bounds (YearFromDay (Day t))) as L.
  set (leap := leapDays (YearFromDay (Day t))) in *.
  set (dwy := DayWithinYear (Day t)) in *.
  unfold DaysInMonth. fold leap.
  split_month; cbn [monthStart]; lia.
Qed.

Lemma Day_mono (t1 t2 : Z) : t1 <= t2 -> Day t1 <= Day t2.
Proof. intros H. unfold Day, msPerDay. apply Z.div_le_mono; lia. Qed.

(** Calendar fields never run backwards: a later instant has a
    lexicographically later (year, month, day). *)
Lemma calendar_mono (t1 t2 : Z) :
  t1 <= t2 ->
  YearFromTime t1 < YearFromTime t2
  \/ (YearFromTime t1 = YearFromTime t2
      /\ (MonthFromTime t1 < MonthFromTime t2
          \/ (MonthFromTime t1 = MonthFromTime t2
              /\ DateFromTime t1 <= DateFromTime t2))).
Proof.
  intros H. apply Day_mono in H.
  pose proof (YearFromDay_mono _ _ H) as HY.
  unfold YearFromTime.
  destruct (Z.eq_dec (YearFromDay (Day t1)) (YearFromDay (Day t2))) as [E|NE];
    [right; split; [exact E|] | left; lia].
  assert (HD : DayWithinYear (Day t1) <= DayWithinYear (Day t2))
    by (unfold DayWithinYear; rewrite E; lia).
  unfold DateFromTime, MonthFromTime, InLeapYear, YearFromTime.
  rewrite E.
  pose proof (MonthFromDayWithinYear_mono
                (leapDays (YearFromDay (Day t2))) _ _ HD) as HM.
  destruct (Z.eq_dec
              (MonthFromDayWithinYear (leapDays (YearFromDay (Day t2)))
                 (DayWithinYear (Day t1)))
              (MonthFromDayWithinYear (leapDays (YearFromDay (Day t2)))
                 (DayWithinYear (Day t2)))) as [EM|NEM].
  - right. split; [exact EM|]. rewrite EM. lia.
  - left. lia.
Qed.

(** Reading back a date built by [MakeDay]. *)
Lemma YearFromDay_MakeDay (y m d : Z) :
  0 <= m <= 11 -> 1 <= d <= DaysInMonth y m ->
  YearFromDay (MakeDay y m d) = y.
Proof.
  intros Hm Hd.
  pose proof (YearFromDay_spec (MakeDay y m d)) as [L U].
  assert (B : DayFromYear y <= MakeDay y m d < DayFromYear (y + 1)).
  { rewrite DayFromYear_succ, DaysInYear_leapDays.
    unfold MakeDay, DaysInMonth in *.
    pose proof (leapDays_bounds y).
    assert (m = 0 \/ m = 1 \/ m = 2 \/ m = 3 \/ m = 4 \/ m = 5 \/ m = 6
            \/ m = 7 \/ m = 8 \/ m = 9 \/ m = 10 \/ m = 11) as C by lia.
    repeat (destruct C as [C|C]; [subst m; cbn [monthStart] in *; lia|]).
    subst m; cbn [monthStart] in *; lia. }
  destruct (Z.lt_trichotomy (YearFromDay (MakeDay y m d)) y) as [Hlt|[Heq|Hgt]].
  - pose proof (DayFromYear_mono (YearFromDay (MakeDay y m d) + 1) y). lia.
  - exact Heq.
  - pose proof (DayFromYear_mono (y + 1) (YearFromDay (MakeDay y m d))). lia.
Qed.

End ECMAFacts.

(** ** utils/age.ts *)

Module AgeFacts.
Import ECMA Age ECMAFacts.

Local Open Scope string_scope.
Local Open Scope Z_scope.

Lemma getMonth_bounds (h : Host) (t : Z) : 0 <= getMonth h t <= 11.
Proof. apply MonthFromTime_bounds. Qed.

(** With both dates parsed, the clock plays no part. *)
Lemma calculateAge_parsed (h : Host) (now1 now2 : Z) (b r : string) (tb tr : Z) :
  safeDate h (Some b) = Some tb ->
  safeDate h (Some r) = Some tr ->
  calculateAge h now1 now2 (Some b) (Some r) = calculateAge h tb tr None None.
Proof.
  intros Hb Hr. unfold calculateAge. rewrite Hb, Hr. reflexivity.
Qed.

(** Case analysis along the three tests of [calculateAge], in program
    order. *)
Ltac split_age :=
  unfold calculateAge; cbn [safeDate]; cbv zeta;
  match goal with
  | |- context [Z.ltb (getDate ?h ?r) (getDate ?h ?b)] =>
      destruct (Z.ltb_spec (getDate h r) (getDate h b))
  end;
  cbv beta iota;
  match goal with
  | |- context [Z.ltb ?m 0] => destruct (Z.ltb_spec m 0)
  end;
  cbv beta iota;
  match goal with
  | |- context [Z.ltb ?y 0] => destruct (Z.ltb_spec y 0)
  end;
  cbn [years months].

(** C1.  When both dates parse and the reference date is on or after the
    birth date, the age has [years >= 0] and [months] within 0..11. *)
Theorem calculateAge_nonnegative
  (h : Host) (now1 now2 : Z) (birthDate referenceDate : string) (birth reference : Z) :
  safeDate h (Some birthDate) = Some birth ->
  safeDate h (Some referenceDate) = Some reference ->
  birth <= reference ->
  0 <= years (calculateAge h now1 now2 (Some birthDate) (Some referenceDate))
  /\ 0 <= months (calculateAge h now1 now2 (Some birthDate) (Some referenceDate)) <= 11.
Proof.
  intros Hb Hr _.
  rewrite (calculateAge_parsed h now1 now2 _ _ _ _ Hb Hr).
  pose proof (getMonth_bounds h birth).
  pose proof (getMonth_bounds h reference).
  split_age; lia.
Qed.

Lemma calculateAge_nonnegative_witness :
  0 <= years (calculateAge (isoHost 32400000) 0 0 (Some "2010-06-15") (Some "2024-06-10"))
  /\ 0 <= months (calculateAge (isoHost 32400000) 0 0 (Some "2010-06-15") (Some "2024-06-10")) <= 11.
Proof.
  apply (calculateAge_nonnegative (isoHost 32400000) 0 0 "2010-06-15" "2024-06-10"
           1276560000000 1717977600000).
  - vm_compute; reflexivity.
  - vm_compute; reflexivity.
  - lia.
Defined.

(** C2.  When both dates parse and the reference instant strictly precedes
    the birth instant, the age is exactly 0 years 0 months, so neither field
    is ever negative. *)
Theorem calculateAge_reference_before_birth
  (h : Host) (now1 now2 : Z) (birthDate referenceDate : string) (birth reference : Z) :
  safeDate h (Some birthDate) = Some birth ->
  safeDate h (Some referenceDate) = Some reference ->
  reference < birth ->
  calculateAge h now1 now2 (Some birthDate) (Some referenceDate)
  = {| years := 0; months := 0 |}.
Proof.
  intros Hb Hr Hlt.
  rewrite (calculateAge_parsed h now1 now2 _ _ _ _ Hb Hr).
  pose proof (getMonth_bounds h birth).
  pose proof (getMonth_bounds h reference).
  assert (Hle : LocalTime h reference <= LocalTime h birth)
    by (unfold LocalTime; lia).
  apply calendar_mono in Hle.
  fold (getFullYear h reference) (getFullYear h birth)
       (getMonth h reference) (getMonth h birth)
       (getDate h reference) (getDate h birth) in Hle.
  split_age; f_equal; lia.
Qed.

Lemma calculateAge_reference_before_birth_witness :
  calculateAge (isoHost 32400000) 0 0 (Some "2024-06-10") (Some "2010-06-15")
  = {| years := 0; months := 0 |}.
Proof.
  apply (calculateAge_reference_before_birth (isoHost 32400000) 0 0
           "2024-06-10" "2010-06-15" 1717977600000 1276560000000).
  - vm_compute; reflexivity.
  - vm_compute; reflexivity.
  - lia.
Defined.

(** A zone offset of less than a day moves midnight UTC of day [k] into day
    [k] itself (east of Greenwich) or into the day before (west). *)
Lemma Day_local_midnight (k tza : Z) :
  - msPerDay < tza < msPerDay ->
  Day (k * msPerDay + tza) = if tza <? 0 then k - 1 else k.
Proof.
  intros H. unfold Day, msPerDay in *.
  destruct (Z.ltb_spec tza 0); Z.div_mod_to_equations; lia.
Qed.

Ltac eval_age tza H :=
  unfold calculateAge;
  cbv [safeDate isoHost Date_parse];
  match goal with
  | |- context [parseISODate ?b] =>
      let v := eval vm_compute in (parseISODate b) in
      replace (parseISODate b) with v by (vm_compute; reflexivity)
  end;
  match goal with
  | |- context [parseISODate ?r] =>
      let v := eval vm_compute in (parseISODate r) in
      replace (parseISODate r) with v by (vm_compute; reflexivity)
  end;
  cbv beta iota delta [getMonth getFullYear getDate LocalTime MonthFromTime
    DateFromTime InLeapYear YearFromTime LocalTZA];
  repeat match goal with
         | |- context [Day (?c + tza)] =>
             let k := eval vm_compute in (c / msPerDay)%Z in
             replace (Day (c + tza)) with (if Z.ltb tza 0 then (k - 1)%Z else k)
               by (rewrite <- (Day_local_midnight k tza H); reflexivity)
         end;
  destruct (Z.ltb tza 0); vm_compute; reflexivity.

(** C7.  The worked examples of the partial-month borrow: born 2010-06-15,
    the age on 2024-06-10 is 13 years 11 months (day 10 is before day 15)
    and on 2024-06-20 it is 14 years 0 months; in every zone whose offset
    from UTC is less than a day. *)
Theorem calculateAge_borrow_examples (tza now1 now2 : Z) :
  - msPerDay < tza < msPerDay ->
  calculateAge (isoHost tza) now1 now2 (Some "2010-06-15") (Some "2024-06-10")
  = {| years := 13; months := 11 |}
  /\ calculateAge (isoHost tza) now1 now2 (Some "2010-06-15") (Some "2024-06-20")
     = {| years := 14; months := 0 |}.
Proof.
  intros H. split.
  - eval_age tza H.
  - eval_age tza H.
Qed.

Lemma calculateAge_borrow_examples_witness :
  calculateAge (isoHost 32400000) 0 0 (Some "2010-06-15") (Some "2024-06-10")
  = {| years := 13; months := 11 |}
  /\ calculateAge (isoHost 32400000) 0 0 (Some "2010-06-15") (Some "2024-06-20")
     = {| years := 14; months := 0 |}.
Proof.
  apply (calculateAge_borrow_examples 32400000 0 0).
  unfold msPerDay. lia.
Defined.

End AgeFacts.

(** ** Strings *)

Module JSFacts.
Import JS.

Lemma dropPrefix_shorter (p s rest : list ascii) :
  p <> [] -> dropPrefix p s = Some rest -> (List.length rest < List.length s)%nat.
Proof.
  revert s. induction p as [|a p IH]; intros s N H; [contradiction|].
  destruct s as [|b s]; [discriminate|]. cbn [dropPrefix] in H.
  destruct (Ascii.eqb a b); [|discriminate].
  destruct p as [|a' p].
  - injection H as <-. cbn. lia.
  - specialize (IH s ltac:(discriminate) H). cbn [List.length]. lia.
Qed.

Lemma dropOneOf_shorter (ws : list (list ascii)) (s rest : list ascii) :
  Forall (fun w => w <> []) ws ->
  dropOneOf ws s = Some rest -> (List.length rest < List.length s)%nat.
Proof.
  induction 1 as [|w ws W _ IH]; cbn [dropOneOf]; [discriminate|].
  destruct (dropPrefix w s) eqn:D.
  - intros [= <-]. apply (dropPrefix_shorter w); assumption.
  - exact IH.
Qed.

(** The fuel of [stripLeading] is enough: what it returns starts with none
    of the characters to strip. *)
Lemma stripLeading_done (ws : list (list ascii)) (fuel : nat) (s : list ascii) :
  Forall (fun w => w <> []) ws ->
  (List.length s <= fuel)%nat ->
  dropOneOf ws (stripLeading ws fuel s) = None.
Proof.
  intros W. revert s. induction fuel as [|fuel IH]; intros s L; cbn [stripLeading].
  - destruct s; [|cbn in L; lia].
    clear L. induction W as [|w ws N _ IHW]; [reflexivity|].
    cbn [dropOneOf]. destruct w; [contradiction|exact IHW].
  - destruct (dropOneOf ws s) eqn:D; [|exact D].
    apply IH. pose proof (dropOneOf_shorter ws s l W D). lia.
Qed.

Lemma whiteSpace_nonempty : Forall (fun w => w <> []) whiteSpace.
Proof. repeat (apply Forall_cons; [discriminate|]). apply Forall_nil. Qed.

(** What [trimStart] returns starts with no white space. *)
Lemma trimStart_done (s : string) :
  dropOneOf whiteSpace (list_ascii_of_string (trimStart s)) = None.
Proof.
  unfold trimStart. rewrite list_ascii_of_string_of_list_ascii.
  apply stripLeading_done; [exact whiteSpace_nonempty | apply Nat.le_refl].
Qed.

(** A no-break space, a byte order mark and a line separator are stripped
    like the ASCII white space; other bytes stay. *)
Example trim_samples :
  let nbsp := string_of_list_ascii (utf8 160) in
  let bom := string_of_list_ascii (utf8 65279) in
  let ls := string_of_list_ascii (utf8 8232) in
  trim nbsp = EmptyString
  /\ trim (bom ++ " sk-1 2 " ++ nbsp ++ ls) = "sk-1 2"%string
  /\ trim ("a" ++ nbsp ++ "b") = ("a" ++ nbsp ++ "b")%string
  /\ list_ascii_of_string nbsp = [byte 194; byte 160]
  /\ list_ascii_of_string bom = [byte 239; byte 187; byte 191].
Proof. vm_compute. repeat split. Qed.

End JSFacts.

(** ** Binary64 arithmetic *)

Module Binary64Facts.
Import Binary64.

Local Open Scope Q_scope.

Lemma pow2_pos (e : Z) : 0 < 2 ^ e.
Proof. apply Qpower_0_lt. reflexivity. Qed.

Lemma pow2_plus (a b : Z) : 2 ^ (a + b) == 2 ^ a * 2 ^ b.
Proof. apply Qpower_plus. discriminate. Qed.

Lemma pow2_Z (n : Z) : (0 <= n)%Z -> 2 ^ n == inject_Z (2 ^ n).
Proof. intros H. rewrite (Zpower_Qpower 2 n H). reflexivity. Qed.

Lemma pow2_le (a b : Z) : (a <= b)%Z -> 2 ^ a <= 2 ^ b.
Proof. intros H. apply Qpower_le_compat_l; [exact H | discriminate]. Qed.

Lemma pow2_lt_inv (a b : Z) : 2 ^ a < 2 ^ b -> (a < b)%Z.
Proof. intros H. apply (Qpower_lt_compat_l_inv 2); [exact H | reflexivity]. Qed.

(** *** Rounding to an integer *)

Lemma roundTiesToEven_cases (m : Q) :
  (m - inject_Z (Qfloor m) < 1 # 2 /\ roundTiesToEven m = Qfloor m)
  \/ (m - inject_Z (Qfloor m) == 1 # 2
      /\ roundTiesToEven m
         = if Z.even (Qfloor m) then Qfloor m else (Qfloor m + 1)%Z)
  \/ (1 # 2 < m - inject_Z (Qfloor m) /\ roundTiesToEven m = (Qfloor m + 1)%Z).
Proof.
  unfold roundTiesToEven.
  destruct (Qcompare_spec (m - inject_Z (Qfloor m)) (1 # 2)); auto.
Qed.

Lemma roundTiesToEven_mono (x y : Q) :
  x <= y -> (roundTiesToEven x <= roundTiesToEven y)%Z.
Proof.
  intros L. pose proof (Qfloor_resp_le _ _ L) as F.
  destruct (Z.eq_dec (Qfloor x) (Qfloor y)) as [E|N].
  - destruct (roundTiesToEven_cases x) as [[Hx ->]|[[Hx ->]|[Hx ->]]];
    destruct (roundTiesToEven_cases y) as [[Hy ->]|[[Hy ->]|[Hy ->]]];
    rewrite E in *; try destruct (Z.even (Qfloor y)); try lia; exfalso; lra.
  - destruct (roundTiesToEven_cases x) as [[_ ->]|[[_ ->]|[_ ->]]];
    destruct (roundTiesToEven_cases y) as [[_ ->]|[[_ ->]|[_ ->]]];
    try destruct (Z.even (Qfloor x)); try destruct (Z.even (Qfloor y)); lia.
Qed.

Lemma roundTiesToEven_comp (x y : Q) :
  x == y -> roundTiesToEven x = roundTiesToEven y.
Proof.
  intros E. apply Z.le_antisymm; apply roundTiesToEven_mono; rewrite E; apply Qle_refl.
Qed.

Lemma roundTiesToEven_Z (n : Z) : roundTiesToEven (inject_Z n) = n.
Proof.
  destruct (roundTiesToEven_cases (inject_Z n)) as [[_ H]|[[H _]|[H _]]];
    rewrite Qfloor_Z in H; [exact H | exfalso; lra | exfalso; lra].
Qed.

Lemma roundTiesToEven_nonneg (x : Q) : 0 <= x -> (0 <= roundTiesToEven x)%Z.
Proof.
  intros H. rewrite <- (roundTiesToEven_Z 0). apply roundTiesToEven_mono. exact H.
Qed.

(** *** The binade of a positive number *)

Lemma ilog2_spec (x : Q) : 0 < x -> 2 ^ ilog2 x <= x /\ x < 2 ^ (ilog2 x + 1).
Proof.
  intros Hx. destruct x as [n d]. unfold ilog2. cbn [Qnum Qden].
  assert (Hn : (0 < n)%Z) by (unfold Qlt in Hx; cbn in Hx; lia).
  set (a := Z.log2 n). set (b := Z.log2 (Z.pos d)).
  assert (Ha : (0 <= a)%Z) by apply Z.log2_nonneg.
  assert (Hb : (0 <= b)%Z) by apply Z.log2_nonneg.
  destruct (Z.log2_spec n Hn) as [A1 A2]. fold a in A1, A2.
  destruct (Z.log2_spec (Z.pos d) eq_refl) as [B1 B2]. fold b in B1, B2.
  assert (EA : 2 ^ a == inject_Z (2 ^ a)) by (apply pow2_Z; exact Ha).
  assert (EB : 2 ^ b == inject_Z (2 ^ b)) by (apply pow2_Z; exact Hb).
  assert (PA : 0 < 2 ^ a) by apply pow2_pos.
  assert (PB : 0 < 2 ^ b) by apply pow2_pos.
  assert (X : (n # d) * inject_Z (Z.pos d) == inject_Z n).
  { unfold Qeq, Qmult, inject_Z. cbn. lia. }
  assert (D0 : 0 < inject_Z (Z.pos d)) by (unfold Qlt; cbn; lia).
  assert (N1 : inject_Z (2 ^ a) <= inject_Z n) by (rewrite <- Zle_Qle; exact A1).
  assert (N2 : inject_Z n < inject_Z (2 ^ Z.succ a)) by (rewrite <- Zlt_Qlt; exact A2).
  assert (D1 : inject_Z (2 ^ b) <= inject_Z (Z.pos d)) by (rewrite <- Zle_Qle; exact B1).
  assert (D2 : inject_Z (Z.pos d) < inject_Z (2 ^ Z.succ b)) by (rewrite <- Zlt_Qlt; exact B2).
  rewrite Z.pow_succ_r, inject_Z_mult in N2, D2 by assumption.
  rewrite <- EA in N1, N2. rewrite <- EB in D1, D2.
  change (inject_Z 2) with 2 in *.
  assert (K0 : 2 ^ (a - b) * 2 ^ b == 2 ^ a).
  { rewrite <- pow2_plus. replace (a - b + b)%Z with a by lia. reflexivity. }
  assert (K1 : 2 ^ (a - b + 1) * 2 ^ b == 2 * 2 ^ a).
  { rewrite <- pow2_plus. replace (a - b + 1 + b)%Z with (1 + a)%Z by lia.
    rewrite pow2_plus. reflexivity. }
  assert (K2 : 2 * 2 ^ (a - b - 1) == 2 ^ (a - b)).
  { change 2 with (2 ^ 1) at 1. rewrite <- pow2_plus.
    replace (1 + (a - b - 1))%Z with (a - b)%Z by lia. reflexivity. }
  set (x := n # d) in *. set (D := inject_Z (Z.pos d)) in *. set (N := inject_Z n) in *.
  set (A := 2 ^ a) in *. set (B := 2 ^ b) in *.
  destruct (Qle_bool (2 ^ (a - b)) x) eqn:T.
  - apply Qle_bool_iff in T. split; [exact T|].
    set (P := 2 ^ (a - b + 1)) in *.
    destruct (Qlt_le_dec x P) as [|G]; [assumption|exfalso].
    assert (P * B <= x * D).
    { apply Qle_trans with (x * B).
      - apply Qmult_le_compat_r; [exact G | lra].
      - rewrite (Qmult_comm x B), (Qmult_comm x D).
        apply Qmult_le_compat_r; [exact D1 | lra]. }
    lra.
  - assert (T' : x < 2 ^ (a - b)).
    { destruct (Qlt_le_dec x (2 ^ (a - b))) as [|G]; [assumption|].
      apply Qle_bool_iff in G. congruence. }
    replace (a - b - 1 + 1)%Z with (a - b)%Z by lia.
    split; [|exact T'].
    set (P := 2 ^ (a - b - 1)) in *.
    assert (PP : 0 < P) by apply pow2_pos.
    destruct (Qlt_le_dec x P) as [G|]; [exfalso|assumption].
    assert (x * D < P * (2 * B)).
    { apply Qle_lt_trans with (P * D).
      - apply Qmult_le_compat_r; [lra | lra].
      - rewrite (Qmult_comm P D), (Qmult_comm P (2 * B)).
        apply Qmult_lt_compat_r; [exact PP | exact D2]. }
    assert (P * (2 * B) == A) by (rewrite <- K0, <- K2; ring).
    lra.
Qed.

Lemma ilog2_mono (x y : Q) : 0 < x -> x <= y -> (ilog2 x <= ilog2 y)%Z.
Proof.
  intros Hx L.
  destruct (ilog2_spec x Hx) as [X1 _].
  destruct (ilog2_spec y) as [_ Y2]; [lra|].
  assert (H : 2 ^ ilog2 x < 2 ^ (ilog2 y + 1)) by lra.
  apply pow2_lt_inv in H. lia.
Qed.

(** *** Rounding to the multiples of a power of two *)

Lemma toGrid_mono (e : Z) (x y : Q) : x <= y -> toGrid e x <= toGrid e y.
Proof.
  intros L. unfold toGrid.
  apply Qmult_le_compat_r; [|apply Qlt_le_weak, pow2_pos].
  rewrite <- Zle_Qle. apply roundTiesToEven_mono.
  unfold Qdiv. apply Qmult_le_compat_r; [exact L|].
  apply Qinv_le_0_compat, Qlt_le_weak, pow2_pos.
Qed.

Lemma toGrid_pow2 (e k : Z) : (e <= k)%Z -> toGrid e (2 ^ k) == 2 ^ k.
Proof.
  intros H.
  assert (E : 2 ^ k == inject_Z (2 ^ (k - e)) * 2 ^ e).
  { rewrite <- pow2_Z by lia. rewrite <- pow2_plus.
    replace (k - e + e)%Z with k by lia. reflexivity. }
  unfold toGrid.
  rewrite (roundTiesToEven_comp (2 ^ k / 2 ^ e) (inject_Z (2 ^ (k - e)))).
  - rewrite roundTiesToEven_Z. symmetry. exact E.
  - rewrite E. apply Qdiv_mult_l. pose proof (pow2_pos e). lra.
Qed.

Lemma toGrid_nonneg (e : Z) (x : Q) : 0 <= x -> 0 <= toGrid e x.
Proof.
  intros H. unfold toGrid. apply Qmult_le_0_compat.
  - change 0 with (inject_Z 0). rewrite <- Zle_Qle. apply roundTiesToEven_nonneg.
    unfold Qdiv. apply Qmult_le_0_compat; [exact H|].
    apply Qinv_le_0_compat, Qlt_le_weak, pow2_pos.
  - apply Qlt_le_weak, pow2_pos.
Qed.

(** *** Rounding to binary64 *)

(** Between two binades the power of two is a point of both grids. *)
Lemma roundPositive_mono (x y : Q) :
  0 < x -> x <= y -> roundPositive x <= roundPositive y.
Proof.
  intros Hx L. unfold roundPositive.
  pose proof (ilog2_mono x y Hx L) as M.
  destruct (Z.eq_dec (ulpExponent x) (ulpExponent y)) as [E|N].
  - rewrite E. apply toGrid_mono. exact L.
  - unfold ulpExponent in *.
    assert (Ey : Z.max (ilog2 y - 52) (-1074) = (ilog2 y - 52)%Z) by lia.
    assert (Lt : (ilog2 x < ilog2 y)%Z) by lia.
    destruct (ilog2_spec x Hx) as [_ X2].
    destruct (ilog2_spec y) as [Y1 _]; [lra|].
    assert (X3 : 2 ^ (ilog2 x + 1) <= 2 ^ ilog2 y) by (apply pow2_le; lia).
    apply Qle_trans with (2 ^ ilog2 y).
    + rewrite <- (toGrid_pow2 (Z.max (ilog2 x - 52) (-1074)) (ilog2 y)) by lia.
      apply toGrid_mono. lra.
    + rewrite Ey.
      rewrite <- (toGrid_pow2 (ilog2 y - 52) (ilog2 y)) at 1 by lia.
      apply toGrid_mono. exact Y1.
Qed.

Lemma roundPositive_nonneg (x : Q) : 0 <= x -> 0 <= roundPositive x.
Proof. apply toGrid_nonneg. Qed.

(** Rounding keeps the order. *)
Lemma round_mono (x y : Q) : x <= y -> round x <= round y.
Proof.
  intros L. unfold round.
  destruct (Qcompare_spec x 0) as [X|X|X]; destruct (Qcompare_spec y 0) as [Y|Y|Y];
    try (exfalso; lra).
  - apply Qle_refl.
  - apply roundPositive_nonneg. lra.
  - pose proof (roundPositive_nonneg (- x)). lra.
  - pose proof (roundPositive_mono (- y) (- x)). lra.
  - pose proof (roundPositive_nonneg (- x)). pose proof (roundPositive_nonneg y). lra.
  - apply roundPositive_mono; assumption.
Qed.

Lemma round_comp (x y : Q) : x == y -> round x == round y.
Proof.
  intros E. apply Qle_antisym; apply round_mono; rewrite E; apply Qle_refl.
Qed.

Lemma roundPositive_comp (x y : Q) :
  0 < x -> x == y -> roundPositive x == roundPositive y.
Proof.
  intros Hx E. apply Qle_antisym; apply roundPositive_mono; lra.
Qed.

Lemma roundPositive_dyadic (k e : Z) :
  (0 < k < 2 ^ 53)%Z -> (-1074 <= e)%Z ->
  roundPositive (inject_Z k * 2 ^ e) == inject_Z k * 2 ^ e.
Proof.
  intros K E. set (x := inject_Z k * 2 ^ e).
  assert (Hx : 0 < x).
  { unfold x. apply Qmult_lt_0_compat; [|apply pow2_pos].
    change 0 with (inject_Z 0). rewrite <- Zlt_Qlt. lia. }
  assert (U : (ulpExponent x <= e)%Z).
  { unfold ulpExponent. apply Z.max_lub; [|exact E].
    destruct (ilog2_spec x Hx) as [X1 _].
    assert (X2 : x < 2 ^ (53 + e)).
    { unfold x. rewrite pow2_plus. apply Qmult_lt_compat_r; [apply pow2_pos|].
      rewrite pow2_Z by lia. rewrite <- Zlt_Qlt. lia. }
    assert (H : 2 ^ ilog2 x < 2 ^ (53 + e)) by lra.
    apply pow2_lt_inv in H. lia. }
  unfold roundPositive. set (u := ulpExponent x) in *.
  assert (X : x == inject_Z (k * 2 ^ (e - u)) * 2 ^ u).
  { unfold x. rewrite inject_Z_mult, <- pow2_Z by lia.
    rewrite <- Qmult_assoc, <- pow2_plus.
    replace (e - u + u)%Z with e by lia. reflexivity. }
  unfold toGrid.
  rewrite (roundTiesToEven_comp (x / 2 ^ u) (inject_Z (k * 2 ^ (e - u)))).
  - rewrite roundTiesToEven_Z. symmetry. exact X.
  - rewrite X. apply Qdiv_mult_l. pose proof (pow2_pos u). lra.
Qed.

(** A number with a significand below [2 ^ 53] and an exponent from -1074
    is a double: rounding leaves it as it is. *)
Lemma round_dyadic (k e : Z) :
  (Z.abs k < 2 ^ 53)%Z -> (-1074 <= e)%Z ->
  round (inject_Z k * 2 ^ e) == inject_Z k * 2 ^ e.
Proof.
  intros K E. unfold round.
  assert (P := pow2_pos e).
  assert (S : forall j : Z, (0 <= j)%Z -> 0 <= inject_Z j * 2 ^ e).
  { intros j Hj. apply Qmult_le_0_compat; [|lra].
    change 0 with (inject_Z 0). rewrite <- Zle_Qle. exact Hj. }
  destruct (Qcompare_spec (inject_Z k * 2 ^ e) 0) as [X|X|X].
  - symmetry. exact X.
  - assert (Hk : (k < 0)%Z).
    { destruct (Z.lt_ge_cases k 0) as [|G]; [assumption|exfalso].
      pose proof (S k G). lra. }
    assert (N : - (inject_Z k * 2 ^ e) == inject_Z (- k) * 2 ^ e)
      by (rewrite inject_Z_opp; ring).
    assert (Pos : 0 < - (inject_Z k * 2 ^ e)) by lra.
    rewrite (roundPositive_comp _ _ Pos N).
    rewrite roundPositive_dyadic by lia. rewrite <- N. ring.
  - assert (Hk : (0 < k)%Z).
    { destruct (Z.lt_ge_cases 0 k) as [|G]; [assumption|exfalso].
      pose proof (S (- k)%Z ltac:(lia)) as H.
      rewrite inject_Z_opp in H. lra. }
    apply roundPositive_dyadic; lia.
Qed.

(** Integers below [2 ^ 53] in magnitude are doubles. *)
Lemma round_Z (n : Z) : (Z.abs n < 2 ^ 53)%Z -> round (inject_Z n) == inject_Z n.
Proof.
  intros H. pose proof (round_dyadic n 0 H ltac:(lia)) as R.
  rewrite (round_comp (inject_Z n) (inject_Z n * 2 ^ 0)); [rewrite R|]; cbn; ring.
Qed.

(** So are the halves below [2 ^ 52]. *)
Lemma round_half (n : Z) :
  (Z.abs n < 2 ^ 52)%Z -> round (inject_Z n + (1 # 2)) == inject_Z n + (1 # 2).
Proof.
  intros H. pose proof (round_dyadic (2 * n + 1) (-1) ltac:(lia) ltac:(lia)) as R.
  assert (E : inject_Z n + (1 # 2) == inject_Z (2 * n + 1) * 2 ^ (-1)).
  { rewrite inject_Z_plus, inject_Z_mult. change (2 ^ (-1)) with (1 # 2).
    change (inject_Z 2) with 2. change (inject_Z 1) with 1. ring. }
  rewrite (round_comp _ _ E), R. symmetry. exact E.
Qed.

(** Rounding keeps a value between two doubles between them. *)
Lemma round_between (a b x : Q) :
  round a == a -> round b == b -> a <= x <= b -> a <= round x <= b.
Proof.
  intros A B [L U]. split.
  - rewrite <- A. apply round_mono. exact L.
  - rewrite <- B. apply round_mono. exact U.
Qed.

Lemma round_above (a x : Q) : round a == a -> a <= x -> a <= round x.
Proof. intros A L. rewrite <- A. apply round_mono. exact L. Qed.

Lemma round_below (b x : Q) : round b == b -> x <= b -> round x <= b.
Proof. intros B U. rewrite <- B. apply round_mono. exact U. Qed.

(** Up to [2 ^ (52 - j)] in magnitude, rounding moves a number by at most
    [2 ^ - j]: the multiples of [2 ^ - j] are doubles there. *)
Lemma round_near (j : Z) (x : Q) :
  (0 <= j <= 1074)%Z ->
  - 2 ^ (52 - j) <= x <= 2 ^ (52 - j) ->
  x - 2 ^ (- j) <= round x <= x + 2 ^ (- j).
Proof.
  intros J [L U].
  assert (P : 0 < 2 ^ j) by apply pow2_pos.
  assert (P' : 0 < 2 ^ (- j)) by apply pow2_pos.
  assert (I : 2 ^ j * 2 ^ (- j) == 1).
  { rewrite <- pow2_plus. replace (j + - j)%Z with 0%Z by lia. reflexivity. }
  assert (T : 2 ^ (52 - j) * 2 ^ j == inject_Z (2 ^ 52)).
  { rewrite <- pow2_plus. replace (52 - j + j)%Z with 52%Z by lia. reflexivity. }
  set (a := Qfloor (x * 2 ^ j)).
  pose proof (Qfloor_le (x * 2 ^ j)) as A1.
  pose proof (Qlt_floor (x * 2 ^ j)) as A2. fold a in A1, A2.
  pose proof (Qmult_le_compat_r _ _ (2 ^ j) L (Qlt_le_weak _ _ P)) as L'.
  pose proof (Qmult_le_compat_r _ _ (2 ^ j) U (Qlt_le_weak _ _ P)) as U'.
  assert (B : (- 2 ^ 52 <= a <= 2 ^ 52)%Z).
  { split.
    - unfold a. rewrite <- (Qfloor_Z (- 2 ^ 52)). apply Qfloor_resp_le.
      rewrite inject_Z_opp. lra.
    - rewrite Zle_Qle. lra. }
  pose proof (Qmult_le_compat_r _ _ (2 ^ (- j)) A1 (Qlt_le_weak _ _ P')) as X1.
  pose proof (Qmult_le_compat_r _ _ (2 ^ (- j)) (Qlt_le_weak _ _ A2)
                (Qlt_le_weak _ _ P')) as X2.
  assert (E : x * 2 ^ j * 2 ^ (- j) == x) by (rewrite <- Qmult_assoc, I; ring).
  rewrite E in X1, X2.
  pose proof (round_between _ _ x
                (round_dyadic a (- j) ltac:(lia) ltac:(lia))
                (round_dyadic (a + 1) (- j) ltac:(lia) ltac:(lia))
                (conj X1 X2)) as [R1 R2].
  rewrite inject_Z_plus in R2, A2, X2. change (inject_Z 1) with 1 in *.
  assert (A2' : x * 2 ^ j * 2 ^ (- j) < (inject_Z a + 1) * 2 ^ (- j)).
  { apply Qmult_lt_compat_r; assumption. }
  rewrite E in A2'.
  split; lra.
Qed.

Lemma roundTiesToEven_near (m : Q) :
  Qabs (inject_Z (roundTiesToEven m) - m) <= 1 # 2.
Proof.
  pose proof (Qfloor_le m) as F1. pose proof (Qlt_floor m) as F2.
  rewrite inject_Z_plus in F2. change (inject_Z 1) with 1 in F2.
  apply Qabs_Qle_condition.
  destruct (roundTiesToEven_cases m) as [[H ->]|[[H ->]|[H ->]]];
    try destruct (Z.even (Qfloor m));
    rewrite ?inject_Z_plus; change (inject_Z 1) with 1; split; lra.
Qed.

Lemma roundPositive_significand (x : Q) :
  0 < x ->
  (0 <= roundTiesToEven (x / 2 ^ ulpExponent x) <= 2 ^ 53)%Z.
Proof.
  intros Hx. set (e := ulpExponent x).
  assert (P : 0 < 2 ^ e) by apply pow2_pos.
  assert (Q0 : 0 <= x / 2 ^ e).
  { apply Qle_shift_div_l; [exact P | lra]. }
  split; [apply roundTiesToEven_nonneg; exact Q0|].
  rewrite <- (roundTiesToEven_Z (2 ^ 53)). apply roundTiesToEven_mono.
  apply Qle_shift_div_r; [exact P|].
  destruct (ilog2_spec x Hx) as [_ X2].
  assert (L : 2 ^ (ilog2 x + 1) <= 2 ^ (53 + e)).
  { apply pow2_le. unfold e, ulpExponent. lia. }
  rewrite (pow2_plus 53 e) in L. rewrite <- pow2_Z by lia. lra.
Qed.

Lemma round_opp (x : Q) : round (- x) == - round x.
Proof.
  unfold round.
  destruct (Qcompare_spec x 0) as [X|X|X];
    destruct (Qcompare_spec (- x) 0) as [Y|Y|Y]; try (exfalso; lra).
  - reflexivity.
  - ring.
  - rewrite (roundPositive_comp (- - x) x); [reflexivity | lra | ring].
Qed.

(** What [round] gives is a double. *)
Lemma round_isDouble (x : Q) : isDouble (round x).
Proof.
  unfold round. destruct (Qcompare_spec x 0) as [X|X|X].
  - exists 0%Z, 0%Z. split; [cbn; lia|]. split; [lia|]. reflexivity.
  - assert (Hx : 0 < - x) by lra.
    pose proof (roundPositive_significand (- x) Hx) as K.
    exists (- roundTiesToEven (- x / 2 ^ ulpExponent (- x)))%Z, (ulpExponent (- x)).
    split; [lia|]. split; [unfold ulpExponent; lia|].
    unfold roundPositive, toGrid. rewrite inject_Z_opp. ring.
  - pose proof (roundPositive_significand x X) as K.
    exists (roundTiesToEven (x / 2 ^ ulpExponent x)), (ulpExponent x).
    split; [lia|]. split; [unfold ulpExponent; lia|]. reflexivity.
Qed.

(** A double is left as it is. *)
Lemma isDouble_round (d : Q) : isDouble d -> round d == d.
Proof.
  intros [k [e [K [E D]]]].
  rewrite (round_comp _ _ D), D.
  destruct (Z.eq_dec (Z.abs k) (2 ^ 53)) as [T|T].
  - assert (S : inject_Z k * 2 ^ e == inject_Z (Z.sgn k) * 2 ^ (53 + e)).
    { rewrite pow2_plus, (pow2_Z 53) by lia. rewrite Qmult_assoc, <- inject_Z_mult.
      replace (Z.sgn k * 2 ^ 53)%Z with k by lia. reflexivity. }
    rewrite (round_comp _ _ S), S. apply round_dyadic; lia.
  - apply round_dyadic; lia.
Qed.

(** A positive double is a multiple of the last bit of any binade that is
    not above its own. *)
Lemma double_on_grid (d : Q) (e : Z) :
  0 < d -> round d == d -> (e <= ulpExponent d)%Z ->
  exists m : Z, d == inject_Z m * 2 ^ e.
Proof.
  intros Hd D E.
  exists (roundTiesToEven (d / 2 ^ ulpExponent d) * 2 ^ (ulpExponent d - e))%Z.
  rewrite <- D at 1. unfold round.
  destruct (Qcompare_spec d 0) as [X|X|X]; try (exfalso; lra).
  unfold roundPositive, toGrid.
  rewrite inject_Z_mult, <- pow2_Z by lia.
  rewrite <- Qmult_assoc, <- pow2_plus.
  replace (ulpExponent d - e + e)%Z with (ulpExponent d) by lia. reflexivity.
Qed.

Lemma ulpExponent_mono (x y : Q) :
  0 < x -> x <= y -> (ulpExponent x <= ulpExponent y)%Z.
Proof.
  intros Hx L. pose proof (ilog2_mono x y Hx L). unfold ulpExponent. lia.
Qed.

(** On the multiples of [E], rounding the quotient to the nearest integer
    gives a multiple that is as near as the multiple below and the
    multiple above. *)
Lemma nearest_on_grid (q E : Q) :
  0 < E ->
  Qabs (inject_Z (roundTiesToEven q) * E - q * E) <= q * E - inject_Z (Qfloor q) * E
  /\ (~ q == inject_Z (Qfloor q) ->
      Qabs (inject_Z (roundTiesToEven q) * E - q * E)
      <= (inject_Z (Qfloor q) + 1) * E - q * E)
  /\ (q == inject_Z (Qfloor q) -> inject_Z (roundTiesToEven q) * E == q * E).
Proof.
  intros P. set (f := Qfloor q).
  pose proof (Qfloor_le q) as F1. pose proof (Qlt_floor q) as F2. fold f in F1, F2.
  rewrite inject_Z_plus in F2. change (inject_Z 1) with 1 in F2.
  assert (A1 : inject_Z f * E <= q * E) by (apply Qmult_le_compat_r; lra).
  assert (A2 : q * E < (inject_Z f + 1) * E) by (apply Qmult_lt_compat_r; lra).
  assert (Z0 : q == inject_Z f -> q * E == inject_Z f * E).
  { intros Eq. rewrite Eq. reflexivity. }
  destruct (roundTiesToEven_cases q) as [[H R]|[[H R]|[H R]]]; fold f in H, R; rewrite R.
  - assert (HE : (q - inject_Z f) * E < (1 # 2) * E)
      by (apply Qmult_lt_compat_r; lra).
    split; [|split].
    + apply Qabs_Qle_condition. split; lra.
    + intros _. apply Qabs_Qle_condition. split; lra.
    + intros Eq. specialize (Z0 Eq). lra.
  - assert (HE : (q - inject_Z f) * E == (1 # 2) * E) by (rewrite H; reflexivity).
    assert (K : inject_Z (if Z.even f then f else (f + 1)%Z) * E == inject_Z f * E
                \/ inject_Z (if Z.even f then f else (f + 1)%Z) * E
                   == (inject_Z f + 1) * E).
    { destruct (Z.even f); [left; reflexivity|right].
      rewrite inject_Z_plus. reflexivity. }
    split; [|split].
    + apply Qabs_Qle_condition. destruct K as [K|K]; rewrite K; split; lra.
    + intros _. apply Qabs_Qle_condition. destruct K as [K|K]; rewrite K; split; lra.
    + intros Eq. exfalso. lra.
  - assert (HE : (1 # 2) * E < (q - inject_Z f) * E)
      by (apply Qmult_lt_compat_r; lra).
    rewrite inject_Z_plus. change (inject_Z 1) with 1.
    split; [|split].
    + apply Qabs_Qle_condition. split; lra.
    + intros _. apply Qabs_Qle_condition. split; lra.
    + intros Eq. exfalso. lra.
Qed.

(** Among the doubles none is nearer to a positive [x] than [round x]. *)
Lemma roundPositive_nearest (x d : Q) :
  0 < x -> round d == d ->
  Qabs (roundPositive x - x) <= Qabs (d - x).
Proof.
  intros Hx D.
  set (e := ulpExponent x).
  assert (P : 0 < 2 ^ e) by apply pow2_pos.
  set (q := x / 2 ^ e).
  assert (Xq : x == q * 2 ^ e).
  { unfold q. field. lra. }
  set (f := Qfloor q).
  pose proof (Qfloor_le q) as F1. pose proof (Qlt_floor q) as F2. fold f in F1, F2.
  rewrite inject_Z_plus in F2. change (inject_Z 1) with 1 in F2.
  assert (Q0 : 0 <= q).
  { unfold q. apply Qle_shift_div_l; [exact P | lra]. }
  assert (F0 : (0 <= f)%Z).
  { unfold f. rewrite <- (Qfloor_Z 0). apply Qfloor_resp_le. exact Q0. }
  assert (N : Qabs (roundPositive x - x) <= x - inject_Z f * 2 ^ e
              /\ (~ q == inject_Z f ->
                  Qabs (roundPositive x - x) <= (inject_Z f + 1) * 2 ^ e - x)
              /\ (q == inject_Z f -> roundPositive x == x)).
  { unfold roundPositive, toGrid. fold e. fold q.
    destruct (nearest_on_grid q (2 ^ e) P) as [G1 [G2 G3]]. fold f in G1, G2, G3.
    rewrite <- Xq in G1, G2, G3. split; [exact G1|]. split; [exact G2 | exact G3]. }
  destruct N as [N1 [N2 N3]].
  destruct (Qlt_le_dec x d) as [U|L].
  - (* a double above [x] *)
    assert (Hd : 0 < d) by lra.
    destruct (double_on_grid d e Hd D) as [m M].
    { apply ulpExponent_mono; lra. }
    destruct (Z.le_gt_cases m f) as [Le|Gt].
    + exfalso. rewrite Zle_Qle in Le.
      assert (inject_Z m * 2 ^ e <= inject_Z f * 2 ^ e)
        by (apply Qmult_le_compat_r; lra).
      assert (inject_Z f * 2 ^ e <= q * 2 ^ e) by (apply Qmult_le_compat_r; lra).
      lra.
    + assert (Ge : inject_Z (f + 1) <= inject_Z m) by (rewrite <- Zle_Qle; lia).
      rewrite inject_Z_plus in Ge. change (inject_Z 1) with 1 in Ge.
      assert ((inject_Z f + 1) * 2 ^ e <= inject_Z m * 2 ^ e)
        by (apply Qmult_le_compat_r; lra).
      rewrite (Qabs_pos (d - x)) by lra.
      destruct (Qeq_dec q (inject_Z f)) as [Eq|Ne].
      * rewrite (N3 Eq). setoid_replace (x - x) with 0 by ring. cbn. lra.
      * apply Qle_trans with ((inject_Z f + 1) * 2 ^ e - x); [apply N2; exact Ne | lra].
  - (* a double not above [x] *)
    setoid_replace (d - x) with (- (x - d)) by ring. rewrite Qabs_opp.
    rewrite (Qabs_pos (x - d)) by lra.
    apply Qle_trans with (x - inject_Z f * 2 ^ e); [exact N1|].
    assert (Fx : 0 <= inject_Z f * 2 ^ e).
    { apply Qmult_le_0_compat; [|lra].
      change 0 with (inject_Z 0). rewrite <- Zle_Qle. exact F0. }
    destruct (Qlt_le_dec 0 d) as [Hd|Hd]; [|lra].
    destruct (Z.le_gt_cases e (ulpExponent d)) as [Ee|Ee].
    + destruct (double_on_grid d e Hd D Ee) as [m M].
      assert (Mq : inject_Z m <= q).
      { destruct (Qlt_le_dec q (inject_Z m)) as [C|]; [exfalso|assumption].
        assert (q * 2 ^ e < inject_Z m * 2 ^ e) by (apply Qmult_lt_compat_r; lra).
        lra. }
      assert (Mf : (m <= f)%Z).
      { unfold f. rewrite <- (Qfloor_Z m). apply Qfloor_resp_le. exact Mq. }
      rewrite Zle_Qle in Mf.
      assert (inject_Z m * 2 ^ e <= inject_Z f * 2 ^ e)
        by (apply Qmult_le_compat_r; lra).
      lra.
    + (* [d] lies in a binade below that of [x] *)
      assert (En : e = (ilog2 x - 52)%Z).
      { unfold e, ulpExponent in *. lia. }
      assert (Ld : (ilog2 d < ilog2 x)%Z).
      { unfold e, ulpExponent in *. lia. }
      destruct (ilog2_spec d Hd) as [_ D2].
      destruct (ilog2_spec x Hx) as [X1 _].
      assert (D3 : 2 ^ (ilog2 d + 1) <= 2 ^ ilog2 x) by (apply pow2_le; lia).
      assert (Pw : 2 ^ ilog2 x == inject_Z (2 ^ 52) * 2 ^ e).
      { rewrite <- pow2_Z by lia. rewrite <- pow2_plus.
        replace (52 + e)%Z with (ilog2 x) by lia. reflexivity. }
      assert (Pq : inject_Z (2 ^ 52) <= q).
      { destruct (Qlt_le_dec q (inject_Z (2 ^ 52))) as [C|]; [exfalso|assumption].
        assert (q * 2 ^ e < inject_Z (2 ^ 52) * 2 ^ e)
          by (apply Qmult_lt_compat_r; lra).
        lra. }
      assert (Pf : (2 ^ 52 <= f)%Z).
      { unfold f. rewrite <- (Qfloor_Z (2 ^ 52)). apply Qfloor_resp_le. exact Pq. }
      rewrite Zle_Qle in Pf.
      assert (inject_Z (2 ^ 52) * 2 ^ e <= inject_Z f * 2 ^ e)
        by (apply Qmult_le_compat_r; lra).
      lra.
Qed.

(** [round] is rounding to nearest: what it gives is a double, a double
    is left as it is, and no double is nearer to [x] than [round x]. *)
Theorem round_nearest (x d : Q) :
  isDouble (round x)
  /\ (isDouble d -> round d == d /\ Qabs (round x - x) <= Qabs (d - x)).
Proof.
  split; [apply round_isDouble|].
  intros Dd. pose proof (isDouble_round d Dd) as D. split; [exact D|].
  unfold round at 1.
  destruct (Qcompare_spec x 0) as [X|X|X].
  - rewrite X. setoid_replace (0 - 0) with 0 by ring. apply Qabs_nonneg.
  - assert (D' : round (- d) == - d) by (rewrite round_opp, D; reflexivity).
    pose proof (roundPositive_nearest (- x) (- d) ltac:(lra) D') as N.
    setoid_replace (- roundPositive (- x) - x) with (- (roundPositive (- x) - - x)) by ring.
    setoid_replace (d - x) with (- (- d - - x)) by ring.
    rewrite !Qabs_opp. exact N.
  - apply roundPositive_nearest; assumption.
Qed.

(** And a tie goes to the even significand. *)
Lemma round_tie_even (x : Q) :
  0 < x ->
  x / 2 ^ ulpExponent x - inject_Z (Qfloor (x / 2 ^ ulpExponent x)) == 1 # 2 ->
  exists k : Z, Z.even k = true /\ round x == inject_Z k * 2 ^ ulpExponent x.
Proof.
  intros Hx T. unfold round.
  destruct (Qcompare_spec x 0) as [X|X|X]; try (exfalso; lra).
  unfold roundPositive, toGrid.
  exists (roundTiesToEven (x / 2 ^ ulpExponent x)). split; [|reflexivity].
  destruct (roundTiesToEven_cases (x / 2 ^ ulpExponent x)) as [[H _]|[[_ ->]|[H _]]];
    try (exfalso; lra).
  destruct (Z.even (Qfloor (x / 2 ^ ulpExponent x))) eqn:E; [exact E|].
  rewrite Z.even_add, E. reflexivity.
Qed.

(** The rounding of this file and the operations of the Standard Library's
    specification of IEEE 754 give the same sum, difference, product and
    quotient on these pairs of doubles. *)
Example agrees_with_SpecFloat :
  forallb (fun xy => agreeOn (fst xy) (snd xy))
    [ (142, 10); (literal (5416666666666666 # 10000000000000000), 1 # 2);
      (sub (literal (5416666666666666 # 10000000000000000)) (1 # 2), 12);
      (152, mul (sub (literal (5416666666666666 # 10000000000000000)) (1 # 2)) 12);
      (literal (31 # 100), 50); (45, mul (literal (31 # 100)) 50);
      (literal (3299999999999999 # 10000000000000000), 50);
      (literal (199999999999999 # 10000000000000000), 25);
      (60, mul (literal (199999999999999 # 10000000000000000)) 25);
      (literal (7 # 10), 25); (literal (1 # 10), literal (2 # 10));
      (1000000000000000000, 10); (9007199254740996, 3); (9007199254740996, 4);
      (9007199254740993 - 1, 1); (11, 7); (- (11), 7); (literal (1 # 3), - (7));
      (2 ^ (-1074), 2); (3 * 2 ^ (-1074), 4); (2 ^ (-1022), 3);
      (2 ^ 1000, 3 * 2 ^ 20); (1, 3) ] = true.
Proof. vm_compute. reflexivity. Qed.

Example agrees_with_SpecFloat_sampled :
  forallb (fun xy => agreeOn (fst xy) (snd xy)) (samplePairs 60) = true.
Proof. vm_compute. reflexivity. Qed.

End Binary64Facts.

(** ** components/AnalysisResults.tsx *)

Module AnalysisResultsFacts.
Import ECMA Age JS Types AnalysisResults Samples.

Local Open Scope Q_scope.

Lemma Math_round_comp (x y : Q) : x == y -> Math_round x = Math_round y.
Proof.
  intros E. unfold Math_round. apply Qfloor_comp. rewrite E. reflexivity.
Qed.

(** Rounding keeps a value between two integers between them. *)
Lemma Math_round_bounds (lo hi : Z) (x : Q) :
  inject_Z lo <= x <= inject_Z hi -> (lo <= Math_round x <= hi)%Z.
Proof.
  intros [L U]. unfold Math_round. split.
  - rewrite <- (Qfloor_Z lo). apply Qfloor_resp_le. lra.
  - destruct (Z.le_gt_cases (Qfloor (x + (1 # 2))) hi) as [|G]; [assumption|].
    exfalso.
    pose proof (Qfloor_le (x + (1 # 2))) as F.
    assert (inject_Z (hi + 1) <= inject_Z (Qfloor (x + (1 # 2))))
      by (rewrite <- Zle_Qle; lia).
    rewrite inject_Z_plus in *. change (inject_Z 1) with 1 in *. lra.
Qed.




End AnalysisResultsFacts.

(** ** components/AnalysisResults.tsx, in the program's arithmetic *)

Module AnalysisResults64Facts.
Import JS Types Binary64 Binary64Facts AnalysisResults64 Samples64.

Local Open Scope Q_scope.

(** Closes [round c == c] for a constant [c] by evaluation. *)
Ltac double := vm_compute; reflexivity.

Lemma Qmax_inject_Z (a b : Z) :
  Qmax (inject_Z a) (inject_Z b) == inject_Z (Z.max a b).
Proof.
  destruct (Z.max_spec a b) as [[L E]|[L E]]; rewrite E.
  - apply Q.max_r. rewrite <- Zle_Qle. lia.
  - apply Q.max_l. rewrite <- Zle_Qle. lia.
Qed.

Lemma Qmax_comp_r (x y y' : Q) : y == y' -> Qmax x y == Qmax x y'.
Proof.
  intros E.
  destruct (Q.max_spec x y) as [[H M]|[H M]]; rewrite M;
    destruct (Q.max_spec x y') as [[H' M']|[H' M']]; rewrite M'; lra.
Qed.

(** Subtracting 4 from, and adding 3 to, an integer below [2 ^ 52] in
    magnitude is exact. *)
Lemma predictedRange_exact (result : AnalysisResult) (patientInfo : PatientInfo) :
  (Z.abs (predictedHeight result patientInfo) <= 2 ^ 52)%Z ->
  min (predictedRange result patientInfo)
  == inject_Z (Z.max 120 (predictedHeight result patientInfo - 4))
  /\ max (predictedRange result patientInfo)
     == inject_Z (predictedHeight result patientInfo + 3).
Proof.
  intros B. unfold predictedRange. cbn [min max].
  set (N := predictedHeight result patientInfo) in *.
  assert (S : sub (inject_Z N) 4 == inject_Z (N - 4)).
  { unfold sub. transitivity (round (inject_Z (N - 4))).
    - apply round_comp. unfold Z.sub. rewrite inject_Z_plus. reflexivity.
    - apply round_Z. lia. }
  assert (A : add (inject_Z N) 3 == inject_Z (N + 3)).
  { unfold add. transitivity (round (inject_Z (N + 3))).
    - apply round_comp. rewrite inject_Z_plus. reflexivity.
    - apply round_Z. lia. }
  split; [|exact A].
  rewrite (Qmax_comp_r 120 _ _ S). apply (Qmax_inject_Z 120).
Qed.

(** C4.  The predicted adult height is
    [round((h, or 140 when h is unset) + 10 + (p - 0.5) * 12)], and the
    predicted range runs from [max(120, predicted - 4)] to
    [predicted + 3], each operation being the program's, on doubles.
    Short of [2 ^ 52] the two ends of the range are these integers
    exactly. *)
Theorem predictedHeight_formula (result : AnalysisResult) (patientInfo : PatientInfo) :
  predictedHeight result patientInfo
  = Spec.predictedAdultHeight (heightCm patientInfo) (probability result)
  /\ (min (predictedRange result patientInfo), max (predictedRange result patientInfo))
     = Spec.predictedRange (predictedHeight result patientInfo)
  /\ ((Z.abs (predictedHeight result patientInfo) <= 2 ^ 52)%Z ->
      min (predictedRange result patientInfo)
      == inject_Z (Z.max 120 (predictedHeight result patientInfo - 4))
      /\ max (predictedRange result patientInfo)
         == inject_Z (predictedHeight result patientInfo + 3)).
Proof.
  split; [|split].
  - unfold predictedHeight, Spec.predictedAdultHeight, number_or, Spec.unset.
    destruct (Qeq_bool (heightCm patientInfo) 0); reflexivity.
  - reflexivity.
  - apply predictedRange_exact.
Qed.

Lemma predictedHeight_formula_witness :
  max (predictedRange (resultOf (literal (7 # 10))) (patientOf 142))
  == inject_Z (predictedHeight (resultOf (literal (7 # 10))) (patientOf 142) + 3).
Proof.
  refine (proj2 (proj2 (proj2 (predictedHeight_formula
                                 (resultOf (literal (7 # 10))) (patientOf 142))) _)).
  vm_compute. discriminate.
Defined.

(** C5.  The composite score is [round(clamp(45 + p * 50, 55, 100))], in
    the program's arithmetic, and lies between 55 and 100, whatever the
    probability. *)
Theorem osteoAgeScore_clamped (result : AnalysisResult) :
  osteoAgeScore result = Spec.osteoAgeScore (probability result)
  /\ (55 <= osteoAgeScore result <= 100)%Z.
Proof.
  split; [reflexivity|].
  unfold osteoAgeScore. apply AnalysisResultsFacts.Math_round_bounds.
  set (x := add 45 (mul (probability result) 50)).
  change (inject_Z 55) with 55. change (inject_Z 100) with 100.
  split.
  - apply Q.min_glb; [lra | apply Q.le_max_l].
  - apply Q.le_min_l.
Qed.

(** For a probability within 0..1 the score of the sliders lies within
    60..85. *)
Lemma slider_base_bounds (p : Q) :
  0 <= p <= 1 -> 60 <= add 60 (mul p 25) <= 85.
Proof.
  intros [P0 P1]. unfold add, mul.
  assert (M : 0 <= round (p * 25) <= 25).
  { apply round_between; [double | double | lra]. }
  apply round_between; [double | double | lra].
Qed.

(** The upper clamp of a slider leaves a score below 100 as it is. *)
Lemma round_min_100 (x : Q) : x <= 100 -> Math_round (Qmin 100 x) = Math_round x.
Proof.
  intros H. apply AnalysisResultsFacts.Math_round_comp. apply Q.min_r. exact H.
Qed.

Lemma sliderValue_eq (p offset x : Q) (lo a b : Z) :
  x == add (add 60 (mul p 25)) offset ->
  inject_Z a <= x <= inject_Z b ->
  (lo <= a)%Z -> (b <= 100)%Z ->
  Math_round (Qmin 100 x) = Spec.sliderValue p offset lo
  /\ (lo <= Math_round (Qmin 100 x) <= 100)%Z.
Proof.
  intros E B La Lb.
  assert (x <= 100).
  { apply Qle_trans with (inject_Z b); [apply B|].
    change 100 with (inject_Z 100). rewrite <- Zle_Qle. exact Lb. }
  rewrite round_min_100 by assumption.
  pose proof (AnalysisResultsFacts.Math_round_bounds a b x B) as R.
  unfold Spec.sliderValue.
  rewrite <- (AnalysisResultsFacts.Math_round_comp _ _ E). lia.
Qed.

(** C6.  For a probability within 0..1 the three sliders (nutrition,
    hormone, activity) show [round(60 + p * 25 + offset)] for the offsets
    +5, -6 and +2, in the program's arithmetic, kept below 100 and above
    the slider's own lower bound (40, 30, 20); each value lies between its
    slider's bounds. *)
Theorem sliderParameters_values (result : AnalysisResult) :
  0 <= probability result <= 1 ->
  map (fun s => (AnalysisResults.slider_id s, AnalysisResults.value s,
                 AnalysisResults.slider_min s, AnalysisResults.slider_max s))
      (sliderParameters result)
  = [ ("nutrition"%string, Spec.sliderValue (probability result) 5 40, 40%Z, 100%Z);
      ("hormone"%string, Spec.sliderValue (probability result) (-6) 30, 30%Z, 100%Z);
      ("activity"%string, Spec.sliderValue (probability result) 2 20, 20%Z, 100%Z) ]
  /\ Forall (fun s => (AnalysisResults.slider_min s <= AnalysisResults.value s
                       <= AnalysisResults.slider_max s)%Z)
            (sliderParameters result).
Proof.
  intros HP.
  set (p := probability result) in *.
  pose proof (slider_base_bounds p HP) as [B0 B1].
  set (base := add 60 (mul p 25)) in *.
  destruct (sliderValue_eq p 5 (add base 5) 40 65 90) as [N1 N2];
    [reflexivity
    | unfold add at 1; apply round_between; [double | double | unfold inject_Z; lra]
    | lia | lia |].
  destruct (sliderValue_eq p (-6) (sub base 6) 30 54 79) as [H1 H2];
    [unfold sub, add at 1; apply round_comp; unfold Qminus; reflexivity
    | unfold sub; apply round_between; [double | double | unfold inject_Z; lra]
    | lia | lia |].
  destruct (sliderValue_eq p 2 (add base 2) 20 62 87) as [A1 A2];
    [reflexivity
    | unfold add at 1; apply round_between; [double | double | unfold inject_Z; lra]
    | lia | lia |].
  unfold sliderParameters. fold p. fold base.
  cbn [map AnalysisResults.slider_id AnalysisResults.value
           AnalysisResults.slider_min AnalysisResults.slider_max].
  split.
  - rewrite N1, H1, A1. reflexivity.
  - repeat apply Forall_cons; [exact N2 | exact H2 | exact A2 | apply Forall_nil].
Qed.

Lemma sliderParameters_values_witness :
  Forall (fun s => (AnalysisResults.slider_min s <= AnalysisResults.value s
                    <= AnalysisResults.slider_max s)%Z)
         (sliderParameters (resultOf (literal (7 # 10)))).
Proof.
  apply (sliderParameters_values (resultOf (literal (7 # 10)))).
  vm_compute. split; discriminate.
Defined.

(** Where rounding shows.  The predicted height for 142 cm and the
    probability 0.5416666666666666 is 153, the exact sum being just short
    of 152.5; the score for 0.31 is 61 and the sliders for
    0.0199999999999999 show 66, 55 and 63; a height of [10 ^ 18] takes up
    the whole gain; and past [2 ^ 53] the range is 8 wide. *)
Example rounding_shows :
  predictedHeight (resultOf (literal (5416666666666666 # 10000000000000000)))
                  (patientOf 142) = 153%Z
  /\ AnalysisResults.predictedHeight
       (resultOf (literal (5416666666666666 # 10000000000000000)))
       (patientOf 142) = 152%Z
  /\ osteoAgeScore (resultOf (literal (31 # 100))) = 61%Z
  /\ AnalysisResults.osteoAgeScore (resultOf (literal (31 # 100))) = 60%Z
  /\ map AnalysisResults.value
         (sliderParameters (resultOf (literal (199999999999999 # 10000000000000000))))
     = [66; 55; 63]%Z
  /\ predictedHeight (resultOf (1 # 2)) (patientOf 1000000000000000000)
     = 1000000000000000000%Z
  /\ predictedHeight (resultOf (1 # 2)) (patientOf 9007199254740986)
     = 9007199254740996%Z
  /\ Qeq_bool (min (predictedRange (resultOf (1 # 2)) (patientOf 9007199254740986)))
              9007199254740992 = true
  /\ Qeq_bool (max (predictedRange (resultOf (1 # 2)) (patientOf 9007199254740986)))
              9007199254741000 = true.
Proof. vm_compute. repeat split. Qed.

End AnalysisResults64Facts.

(** ** components/FileUpload.tsx *)

Module FileUploadFacts.
Import JS FileUpload.

Local Open Scope Q_scope.

Section Component.

Variable limitMB : Q.
Variable types : list (string * list string).
Variable show : Q -> string.


Lemma oversized_fails_size_check (file : File) :
  Spec.oversized limitMB (size file) ->
  Qle_bool (inject_Z (size file)) (sizeLimit limitMB) = false.
Proof.
  unfold Spec.oversized. intros H.
  destruct (Qle_bool _ _) eqn:E; [|reflexivity].
  apply Qle_bool_iff in E. lra.
Qed.

Lemma extension_check (file : File) :
  existsb (fun ext => endsWith (toLowerCase (file_name file)) ext)
          (supportedExtensions types) = true
  <-> Spec.hasSupportedExtension types (file_name file).
Proof. apply existsb_exists. Qed.

(** A file with a fault is turned down, with a message that depends on the
    file alone. *)
Lemma validateFile_rejects (file : File) :
  ~ Spec.hasSupportedExtension types (file_name file)
  \/ Spec.oversized limitMB (size file) ->
  exists msg,
    forall st, validateFile limitMB types show file st
               = (false, setError (Some msg) st).
Proof.
  intros H. unfold validateFile.
  destruct (Qle_bool _ _) eqn:E; cbn [negb].
  - destruct H as [H|H].
    + destruct (existsb _ _) eqn:X; cbn [negb].
      * apply extension_check in X. contradiction.
      * eexists. intros st. reflexivity.
    + rewrite (oversized_fails_size_check file H) in E. discriminate.
  - eexists. intros st. reflexivity.
Qed.

Lemma validateFile_accepts (file : File) (st : State) :
  Spec.hasSupportedExtension types (file_name file) ->
  inject_Z (size file) <= sizeLimit limitMB ->
  validateFile limitMB types show file st = (true, setError None st).
Proof.
  intros X S. unfold validateFile.
  apply Qle_bool_iff in S. rewrite S. cbn [negb].
  apply extension_check in X. rewrite X. reflexivity.
Qed.

(** C9.  A file whose name does not end in a supported extension, or
    whose size is past the ceiling by a byte or more, fails [validateFile]
    with a message; no handler calls [onFileSelect] for it, whatever
    [disabled] the handler holds, and a handler that goes on to the file
    leaves the message in the component's state.  A file that passes both
    checks clears the error and is handed to [onFileSelect].  A handler
    that holds [disabled] set returns before it looks at a file. *)
Theorem upload_validation_gate (file : File) (rest : list File) (st : State) :
  (~ Spec.hasSupportedExtension types (file_name file)
   \/ Spec.oversized limitMB (size file) ->
   exists msg,
     validateFile limitMB types show file st = (false, setError (Some msg) st)
     /\ (forall disabled,
           selected (handleDrop limitMB types show disabled (file :: rest) st)
           = selected st
           /\ selected (handleFileInput limitMB types show disabled (file :: rest) st)
              = selected st)
     /\ error (handleDrop limitMB types show false (file :: rest) st) = Some msg
     /\ error (handleFileInput limitMB types show false (file :: rest) st) = Some msg)
  /\ (Spec.hasSupportedExtension types (file_name file) ->
      inject_Z (size file) <= sizeLimit limitMB ->
      validateFile limitMB types show file st = (true, setError None st)
      /\ handleDrop limitMB types show false (file :: rest) st
         = onFileSelect file (setError None (setIsDragOver false st))
      /\ handleFileInput limitMB types show false (file :: rest) st
         = onFileSelect file (setError None st))
  /\ (forall files,
        handleDrop limitMB types show true files st = setIsDragOver false st
        /\ handleFileInput limitMB types show true files st = st).
Proof.
  split; [|split].
  - intros H.
    destruct (validateFile_rejects file H) as [msg Hv].
    exists msg. split; [apply Hv|]. split; [|split].
    + intros [|]; unfold handleDrop, handleFileInput; cbn [selected];
        rewrite ?Hv; split; reflexivity.
    + unfold handleDrop. rewrite Hv. reflexivity.
    + unfold handleFileInput. rewrite Hv. reflexivity.
  - intros X S. split; [|split].
    + apply validateFile_accepts; assumption.
    + unfold handleDrop. rewrite validateFile_accepts by assumption. reflexivity.
    + unfold handleFileInput. rewrite validateFile_accepts by assumption. reflexivity.
  - intros files. split; reflexivity.
Qed.

End Component.

Lemma upload_validation_gate_witness :
  (exists msg,
     validateFile Samples.MAX_FILE_SIZE_MB Samples.SUPPORTED_FILE_TYPES
       Samples.Number_toString Samples.largeFile Samples.idle
     = (false, setError (Some msg) Samples.idle))
  /\ handleDrop Samples.MAX_FILE_SIZE_MB Samples.SUPPORTED_FILE_TYPES
       Samples.Number_toString false [Samples.goodFile] Samples.idle
     = onFileSelect Samples.goodFile
         (setError None (setIsDragOver false Samples.idle)).
Proof.
  pose proof (upload_validation_gate Samples.MAX_FILE_SIZE_MB
                Samples.SUPPORTED_FILE_TYPES Samples.Number_toString
                Samples.largeFile [] Samples.idle) as [Bad _].
  pose proof (upload_validation_gate Samples.MAX_FILE_SIZE_MB
                Samples.SUPPORTED_FILE_TYPES Samples.Number_toString
                Samples.goodFile [] Samples.idle) as [_ [Good _]].
  split.
  - destruct Bad as [msg [Hv _]].
    + right. vm_compute. discriminate.
    + exists msg. exact Hv.
  - apply Good.
    + exists ".png"%string. split; [cbn; auto | vm_compute; reflexivity].
    + vm_compute. discriminate.
Defined.

End FileUploadFacts.

(** ** netlify/functions/analyze.js *)

Module AnalyzeFacts.
Import JS Analyze.

Local Open Scope string_scope.
Local Open Scope Q_scope.

Section Handler.

Variable host : Host.

(** [String(parsed.finding ?? '')] *)
Lemma respondToOutput_parsed (text : string) (parsed : JSON) :
  JSON_parse host text = Some parsed ->
  respondToOutput host text
  = match parsed with
    | JNull => analyzeFailed (nullPropertyError host)
    | _ =>
        match String_of host (nullish_or (get parsed "finding") (JString EmptyString)) with
        | inl e => analyzeFailed e
        | inr finding => json 200 (analysisResult host parsed finding)
        end
    end.
Proof.
  intros H. unfold respondToOutput. rewrite H. destruct parsed; reflexivity.
Qed.

(** A parsed output gets the success answer unless it is [null] or its
    finding cannot be turned into a string. *)
Lemma respondToOutput_status (text : string) (parsed : JSON) :
  JSON_parse host text = Some parsed ->
  statusCode (respondToOutput host text) = 200%Z
  <-> parsed <> JNull
      /\ exists finding,
           String_of host (nullish_or (get parsed "finding") (JString EmptyString))
           = inr finding.
Proof.
  intros H. rewrite (respondToOutput_parsed text parsed H).
  destruct parsed as [|b|n|s|items|props].
  1: { cbn [statusCode json analyzeFailed].
       split; [discriminate | intros [N _]; contradiction]. }
  all: destruct (String_of host _) as [e|finding];
    cbn [statusCode json analyzeFailed]; split.
  all: try (intros S; discriminate S).
  all: try (intros [_ [f E]]; discriminate E).
  all: try (intros _; split; [discriminate | eexists; reflexivity]).
  all: intros _; reflexivity.
Qed.

Lemma respondToOutput_success (text : string) (parsed : JSON) :
  JSON_parse host text = Some parsed ->
  statusCode (respondToOutput host text) = 200%Z ->
  exists finding,
    respondToOutput host text = json 200 (analysisResult host parsed finding).
Proof.
  intros H S. apply (respondToOutput_status text parsed H) in S.
  destruct S as [N [finding E]]. exists finding.
  rewrite (respondToOutput_parsed text parsed H), E.
  destruct parsed; congruence.
Qed.

Lemma clamp_unit_interval (p : Q) :
  0 <= Qmax 0 (Qmin 1 p) <= 1
  /\ Qmax 0 (Qmin 1 p) == Spec.clamp p 0 1.
Proof.
  unfold Spec.clamp.
  destruct (Q.max_spec 0 (Qmin 1 p)) as [[? ?]|[? ?]];
    destruct (Q.min_spec 1 p) as [[? ?]|[? ?]];
    destruct (Q.max_spec 0 p) as [[? ?]|[? ?]];
    destruct (Q.min_spec 1 (Qmax 0 p)) as [[? ?]|[? ?]];
    split; lra.
Qed.

(** C8.  Whenever the parsed model output gets a success answer (it does
    unless it is [null] or its finding cannot be turned into a string), the
    answer's probability is the upstream
    number clamped into 0..1, also when that number is out of range, and its
    severity is the upstream value when that is Low, Medium or High, and Low
    otherwise. *)
Theorem success_response_clamps (text : string) (parsed : JSON) :
  JSON_parse host text = Some parsed ->
  (statusCode (respondToOutput host text) = 200%Z
   <-> parsed <> JNull
       /\ exists finding,
            String_of host (nullish_or (get parsed "finding") (JString EmptyString))
            = inr finding)
  /\ (statusCode (respondToOutput host text) = 200%Z ->
      (exists q,
         bodyField (respondToOutput host text) "probability" = Some (JNumber q)
         /\ 0 <= q <= 1
         /\ forall p, get parsed "probability" = Some (JNumber p) ->
                      q == Spec.clamp p 0 1
                      /\ (p < 0 -> q == 0) /\ (1 < p -> q == 1)
                      /\ (0 <= p <= 1 -> q == p))
      /\ (forall s, get parsed "severity" = Some (JString s) ->
                    In s Spec.severityLevels ->
                    bodyField (respondToOutput host text) "severity"
                    = Some (JString s))
      /\ ((forall s, get parsed "severity" = Some (JString s) ->
                     ~ In s Spec.severityLevels) ->
          bodyField (respondToOutput host text) "severity"
          = Some (JString "Low"))).
Proof.
  intros H. split; [apply respondToOutput_status; exact H|].
  intros S. destruct (respondToOutput_success text parsed H S) as [finding ->].
  unfold bodyField, json, analysisResult. cbn [body get lookup String.eqb Ascii.eqb Bool.eqb].
  split; [|split].
  - eexists. split; [reflexivity|].
    destruct (get parsed "probability") as [[| | p | | |]|];
      try (split; [lra | intros p0 E; discriminate E]).
    destruct (clamp_unit_interval p) as [B C].
    split; [exact B|]. intros p0 E. injection E as <-.
    split; [exact C|]. unfold Spec.clamp in C.
    destruct (Q.max_spec 0 p) as [[? ?]|[? ?]];
      destruct (Q.min_spec 1 (Qmax 0 p)) as [[? ?]|[? ?]];
      repeat split; intros; lra.
  - intros s E I. rewrite E.
    destruct I as [<-|[<-|[<-|[]]]]; reflexivity.
  - intros N.
    destruct (get parsed "severity") as [[| | | s | |]|]; try reflexivity.
    specialize (N s eq_refl). unfold Spec.severityLevels in N. cbn [In] in N.
    destruct (String.eqb_spec s "High") as [->|]; [tauto|].
    destruct (String.eqb_spec s "Medium") as [->|]; [tauto|].
    destruct (String.eqb_spec s "Low") as [->|]; [tauto|].
    reflexivity.
Qed.

(** C10.  Whenever the parsed model output gets a success answer (it does
    unless it is [null] or its finding cannot be turned into a string): a
    probability that is missing or not a
    number gives probability 0, and bounding boxes that are missing or not
    an array give the empty array. *)
Theorem success_response_defaults (text : string) (parsed : JSON) :
  JSON_parse host text = Some parsed ->
  (statusCode (respondToOutput host text) = 200%Z
   <-> parsed <> JNull
       /\ exists finding,
            String_of host (nullish_or (get parsed "finding") (JString EmptyString))
            = inr finding)
  /\ (statusCode (respondToOutput host text) = 200%Z ->
      ((forall p, get parsed "probability" <> Some (JNumber p)) ->
       bodyField (respondToOutput host text) "probability" = Some (JNumber 0))
      /\ ((forall items, get parsed "boundingBoxes" <> Some (JArray items)) ->
          bodyField (respondToOutput host text) "boundingBoxes"
          = Some (JArray []))).
Proof.
  intros H. split; [apply respondToOutput_status; exact H|].
  intros S. destruct (respondToOutput_success text parsed H S) as [finding ->].
  unfold bodyField, json, analysisResult. cbn [body get lookup String.eqb Ascii.eqb Bool.eqb].
  split.
  - intros N.
    destruct (get parsed "probability") as [[| | p | | |]|]; try reflexivity.
    destruct (N p eq_refl).
  - intros N.
    destruct (get parsed "boundingBoxes") as [[| | | | items |]|]; try reflexivity.
    destruct (N items eq_refl).
Qed.

(** The path through [handler] that ends in [respondToOutput]. *)
Lemma handler_reaches_output
  (env : Env) (event : Event) (key raw url statusText : string)
  (requestBody payload : JSON) (status : Z) :
  httpMethod event = "POST" ->
  OPENAI_API_KEY env = Some key ->
  truthy (trim key) = true ->
  raw = match event_body event with
        | Some b => if truthy b then b else "{}"
        | None => "{}"
        end ->
  JSON_parse host raw = Some requestBody ->
  get requestBody "imageDataUrl" = Some (JString url) ->
  startsWith url "data:image/" = true ->
  (forall request, image_url request = url ->
                   fetch host request = Resolved true status statusText payload) ->
  handler host env event = respondToOutput host (extractOutputText payload).
Proof.
  intros M K T R P U D F. unfold handler.
  rewrite M, K. cbn [String.eqb Ascii.eqb Bool.eqb negb].
  rewrite T. cbn [negb]. rewrite <- R, P, U, D. cbn [negb].
  rewrite F by reflexivity. reflexivity.
Qed.

End Handler.

Lemma success_response_clamps_witness :
  exists q,
    bodyField (respondToOutput Samples.gatewayHost Samples.modelText) "probability"
    = Some (JNumber q)
    /\ 0 <= q <= 1.
Proof.
  destruct (success_response_clamps Samples.gatewayHost Samples.modelText
              Samples.modelOutput) as [_ S].
  - vm_compute. reflexivity.
  - destruct S as [[q [E [B _]]] _].
    + vm_compute. reflexivity.
    + exists q. split; assumption.
Defined.

Lemma success_response_defaults_witness :
  bodyField (respondToOutput Samples.gatewayHost Samples.modelText) "boundingBoxes"
  = Some (JArray []).
Proof.
  destruct (success_response_defaults Samples.gatewayHost Samples.modelText
              Samples.modelOutput) as [_ S].
  - vm_compute. reflexivity.
  - destruct S as [_ D].
    + vm_compute. reflexivity.
    + apply D. intros items. vm_compute. discriminate.
Defined.

(** The whole handler on the sample request: the out-of-range probability
    1.7 comes back as 1 and the unknown severity as Low. *)
Example handler_sample :
  statusCode (handler Samples.gatewayHost Samples.gatewayEnv Samples.gatewayEvent)
  = 200%Z
  /\ bodyField (handler Samples.gatewayHost Samples.gatewayEnv Samples.gatewayEvent)
       "probability" = Some (JNumber 1)
  /\ bodyField (handler Samples.gatewayHost Samples.gatewayEnv Samples.gatewayEvent)
       "severity" = Some (JString "Low").
Proof. vm_compute. repeat split; reflexivity. Qed.

(** A model output of [null] parses, and the handler answers 500. *)
Example handler_null_output :
  statusCode (respondToOutput Samples.gatewayHost "null") = 500%Z.
Proof. vm_compute. reflexivity. Qed.

End AnalyzeFacts.

(** * Further properties *)

(** ** utils/age.ts *)

Module AgeMore.
Import ECMA Age ECMAFacts Calendar.

Local Open Scope string_scope.
Local Open Scope Z_scope.

Ltac cases_age :=
  unfold calculateAge; cbn [safeDate]; cbv zeta;
  match goal with
  | |- context [Z.ltb (getDate ?h ?r) (getDate ?h ?b)] =>
      destruct (Z.ltb_spec (getDate h r) (getDate h b))
  end;
  cbv beta iota;
  match goal with
  | |- context [Z.ltb ?m 0] => destruct (Z.ltb_spec m 0)
  end;
  cbv beta iota;
  match goal with
  | |- context [Z.ltb ?y 0] => destruct (Z.ltb_spec y 0)
  end;
  cbn [years months].

Lemma calculateAge_of_instants (h : Host) (now1 now2 : Z) (b r : option string) (tb tr : Z) :
  match safeDate h b with Some d => d | None => now1 end = tb ->
  match safeDate h r with Some d => d | None => now2 end = tr ->
  calculateAge h now1 now2 b r = calculateAge h tb tr None None.
Proof.
  intros Hb Hr. unfold calculateAge. rewrite Hb, Hr. reflexivity.
Qed.

(** The age between two instants, in terms of the completed months. *)
Lemma age_of_instants (h : Host) (tb tr : Z) :
  (0 <= completedMonths h tb tr ->
   years (calculateAge h tb tr None None) = completedMonths h tb tr / 12
   /\ months (calculateAge h tb tr None None) = completedMonths h tb tr mod 12)
  /\ (completedMonths h tb tr < 0 ->
      calculateAge h tb tr None None = {| years := 0; months := 0 |}).
Proof.
  pose proof (MonthFromTime_bounds (LocalTime h tb)) as Bb.
  pose proof (MonthFromTime_bounds (LocalTime h tr)) as Br.
  fold (getMonth h tb) in Bb. fold (getMonth h tr) in Br.
  unfold completedMonths.
  split.
  - cases_age; intros HM; split; Z.div_mod_to_equations; lia.
  - cases_age; intros HM; f_equal; lia.
Qed.

(** X1.  With both dates parsed, the age is the number of completed months
    split by twelve: [years] is the quotient and [months] the remainder;
    a negative count gives 0 years 0 months. *)
Theorem calculateAge_completed_months
  (h : Host) (now1 now2 : Z) (birthDate referenceDate : string) (birth reference : Z) :
  safeDate h (Some birthDate) = Some birth ->
  safeDate h (Some referenceDate) = Some reference ->
  (0 <= completedMonths h birth reference ->
   years (calculateAge h now1 now2 (Some birthDate) (Some referenceDate))
   = completedMonths h birth reference / 12
   /\ months (calculateAge h now1 now2 (Some birthDate) (Some referenceDate))
      = completedMonths h birth reference mod 12)
  /\ (completedMonths h birth reference < 0 ->
      calculateAge h now1 now2 (Some birthDate) (Some referenceDate)
      = {| years := 0; months := 0 |}).
Proof.
  intros Hb Hr.
  rewrite (calculateAge_of_instants h now1 now2 _ _ birth reference)
    by (rewrite ?Hb, ?Hr; reflexivity).
  apply age_of_instants.
Qed.

Lemma calculateAge_completed_months_witness :
  years (calculateAge (isoHost 32400000) 0 0 (Some "2010-06-15") (Some "2024-06-10"))
  = completedMonths (isoHost 32400000) 1276560000000 1717977600000 / 12.
Proof.
  apply (calculateAge_completed_months (isoHost 32400000) 0 0
           "2010-06-15" "2024-06-10" 1276560000000 1717977600000).
  - vm_compute; reflexivity.
  - vm_compute; reflexivity.
  - vm_compute; discriminate.
Defined.

Lemma totalMonths_of_instants (h : Host) (tb tr : Z) :
  totalMonths (calculateAge h tb tr None None) = Z.max 0 (completedMonths h tb tr).
Proof.
  destruct (age_of_instants h tb tr) as [P N].
  destruct (Z.lt_ge_cases (completedMonths h tb tr) 0) as [L|G].
  - rewrite (N L). cbn. lia.
  - destruct (P G) as [Y M]. unfold totalMonths. rewrite Y, M.
    Z.div_mod_to_equations. lia.
Qed.

(** The completed months grow with the reference instant and shrink with
    the birth instant. *)
Lemma completedMonths_mono (h : Host) (b1 b2 r1 r2 : Z) :
  b2 <= b1 -> r1 <= r2 ->
  completedMonths h b1 r1 <= completedMonths h b2 r2.
Proof.
  intros Hb Hr.
  assert (B : LocalTime h b2 <= LocalTime h b1) by (unfold LocalTime; lia).
  assert (R : LocalTime h r1 <= LocalTime h r2) by (unfold LocalTime; lia).
  apply calendar_mono in B. apply calendar_mono in R.
  pose proof (MonthFromTime_bounds (LocalTime h b1)).
  pose proof (MonthFromTime_bounds (LocalTime h b2)).
  pose proof (MonthFromTime_bounds (LocalTime h r1)).
  pose proof (MonthFromTime_bounds (LocalTime h r2)).
  unfold completedMonths, getFullYear, getMonth, getDate.
  repeat match goal with
         | |- context [Z.ltb ?a ?b] => destruct (Z.ltb_spec a b)
         end; lia.
Qed.

(** X2.  The age never goes down when the reference date moves later or
    the birth date moves earlier: counted in months, the age for the later
    reference (earlier birth) is at least the other one. *)
Theorem calculateAge_monotone
  (h : Host) (now1 now2 : Z) (b1 b2 r1 r2 : string) (tb1 tb2 tr1 tr2 : Z) :
  safeDate h (Some b1) = Some tb1 -> safeDate h (Some b2) = Some tb2 ->
  safeDate h (Some r1) = Some tr1 -> safeDate h (Some r2) = Some tr2 ->
  tb2 <= tb1 -> tr1 <= tr2 ->
  totalMonths (calculateAge h now1 now2 (Some b1) (Some r1))
  <= totalMonths (calculateAge h now1 now2 (Some b2) (Some r2)).
Proof.
  intros B1 B2 R1 R2 Hb Hr.
  rewrite (calculateAge_of_instants h now1 now2 _ _ tb1 tr1)
    by (rewrite ?B1, ?R1; reflexivity).
  rewrite (calculateAge_of_instants h now1 now2 _ _ tb2 tr2)
    by (rewrite ?B2, ?R2; reflexivity).
  rewrite !totalMonths_of_instants.
  pose proof (completedMonths_mono h tb1 tb2 tr1 tr2 Hb Hr). lia.
Qed.

Lemma calculateAge_monotone_witness :
  totalMonths (calculateAge (isoHost 32400000) 0 0 (Some "2010-06-15") (Some "2024-06-10"))
  <= totalMonths (calculateAge (isoHost 32400000) 0 0 (Some "2010-06-15") (Some "2024-06-20")).
Proof.
  apply (calculateAge_monotone (isoHost 32400000) 0 0
           "2010-06-15" "2010-06-15" "2024-06-10" "2024-06-20"
           1276560000000 1276560000000 1717977600000 1718841600000).
  1-4: vm_compute; reflexivity.
  all: lia.
Defined.

Lemma age_not_after (h : Host) (tb tr : Z) :
  tr <= tb -> calculateAge h tb tr None None = {| years := 0; months := 0 |}.
Proof.
  intros H.
  pose proof (completedMonths_mono h tb tb tr tb (Z.le_refl _) H) as M.
  assert (Z : completedMonths h tb tb = 0).
  { unfold completedMonths. rewrite Z.ltb_irrefl. lia. }
  destruct (age_of_instants h tb tr) as [P N].
  destruct (Z.lt_ge_cases (completedMonths h tb tr) 0) as [L|G]; [exact (N L)|].
  destruct (P G) as [Y Mo].
  replace (completedMonths h tb tr) with 0 in * by lia.
  destruct (calculateAge h tb tr None None) as [y m]. cbn in *. subst. reflexivity.
Qed.

(** X3.  With the birth date missing or unparseable the birth instant is
    the clock's, so every reference date that is not in the future gives
    0 years 0 months. *)
Theorem calculateAge_birth_missing
  (h : Host) (now1 now2 : Z) (birthDate : option string)
  (referenceDate : string) (reference : Z) :
  safeDate h birthDate = None ->
  safeDate h (Some referenceDate) = Some reference ->
  reference <= now1 ->
  calculateAge h now1 now2 birthDate (Some referenceDate)
  = {| years := 0; months := 0 |}.
Proof.
  intros Hb Hr Hle.
  rewrite (calculateAge_of_instants h now1 now2 _ _ now1 reference)
    by (rewrite ?Hb, ?Hr; reflexivity).
  apply age_not_after. exact Hle.
Qed.

Lemma calculateAge_birth_missing_witness :
  calculateAge (isoHost 32400000) 1717977600000 1717977600000
    (Some EmptyString) (Some "2024-06-10")
  = {| years := 0; months := 0 |}.
Proof.
  apply (calculateAge_birth_missing (isoHost 32400000) 1717977600000 1717977600000
           (Some EmptyString) "2024-06-10" 1717977600000).
  - reflexivity.
  - vm_compute; reflexivity.
  - lia.
Defined.

(** Reading back a date built by [MakeDay], at any hour of that day. *)
Lemma civil_of_MakeDay (y m d ms : Z) :
  0 <= m <= 11 -> 1 <= d <= DaysInMonth y m -> 0 <= ms < msPerDay ->
  YearFromTime (MakeDate (MakeDay y m d) ms) = y
  /\ MonthFromTime (MakeDate (MakeDay y m d) ms) = m
  /\ DateFromTime (MakeDate (MakeDay y m d) ms) = d.
Proof.
  intros Hm Hd Hms.
  assert (HD : Day (MakeDate (MakeDay y m d) ms) = MakeDay y m d).
  { unfold Day, MakeDate, msPerDay in *. Z.div_mod_to_equations. lia. }
  assert (HY : YearFromDay (MakeDay y m d) = y)
    by (apply YearFromDay_MakeDay; assumption).
  unfold DateFromTime, MonthFromTime, InLeapYear, YearFromTime.
  rewrite HD. unfold DayWithinYear. rewrite HY.
  pose proof (leapDays_bounds y).
  unfold MakeDay, DaysInMonth in *.
  assert (m = 0 \/ m = 1 \/ m = 2 \/ m = 3 \/ m = 4 \/ m = 5 \/ m = 6
          \/ m = 7 \/ m = 8 \/ m = 9 \/ m = 10 \/ m = 11) as C by lia.
  repeat (destruct C as [C|C];
          [subst m; cbn [monthStart] in *;
           split; [reflexivity|]; split_month; cbn [monthStart]; lia|]).
  subst m; cbn [monthStart] in *.
  split; [reflexivity|]; split_month; cbn [monthStart]; lia.
Qed.

Lemma parseISODate_fields (s : string) (t : Z) :
  parseISODate s = Some t ->
  exists y m d,
    isoFields s = Some (y, m, d)
    /\ t = MakeDate (MakeDay y (m - 1) d) 0
    /\ 1 <= m <= 12 /\ 1 <= d <= DaysInMonth y (m - 1).
Proof.
  unfold parseISODate, isoFields. intros H.
  destruct (negb _); [discriminate|].
  destruct (negb _); [discriminate|].
  destruct (parseDigits 0 (substring 0 4 s)) as [y|]; [|discriminate].
  destruct (parseDigits 0 (substring 5 2 s)) as [m|]; [|discriminate].
  destruct (parseDigits 0 (substring 8 2 s)) as [d|]; [|discriminate].
  destruct ((1 <=? m) && (m <=? 12) && (1 <=? d) && (d <=? DaysInMonth y (m - 1)))
    eqn:V; [|discriminate].
  injection H as <-. exists y, m, d.
  repeat rewrite andb_true_iff in V. rewrite !Z.leb_le in V.
  repeat split; try reflexivity; lia.
Qed.

Lemma isoFields_parse (s : string) (y m d : Z) :
  isoFields s = Some (y, m, d) ->
  parseISODate s = Some (MakeDate (MakeDay y (m - 1) d) 0)
  /\ 1 <= m <= 12 /\ 1 <= d <= DaysInMonth y (m - 1).
Proof.
  unfold parseISODate, isoFields. intros H.
  destruct (negb _); [discriminate|].
  destruct (negb _); [discriminate|].
  destruct (parseDigits 0 (substring 0 4 s)) as [y0|]; [|discriminate].
  destruct (parseDigits 0 (substring 5 2 s)) as [m0|]; [|discriminate].
  destruct (parseDigits 0 (substring 8 2 s)) as [d0|]; [|discriminate].
  destruct ((1 <=? m0) && (m0 <=? 12) && (1 <=? d0) && (d0 <=? DaysInMonth y0 (m0 - 1)))
    eqn:V; [|discriminate].
  injection H as <- <- <-.
  repeat rewrite andb_true_iff in V. rewrite !Z.leb_le in V.
  repeat split; try reflexivity; lia.
Qed.

(** In a zone at or east of Greenwich the getters give back a date string's
    own fields. *)
Lemma getters_of_isoFields (tza : Z) (s : string) (y m d : Z) :
  0 <= tza < msPerDay ->
  isoFields s = Some (y, m, d) ->
  exists t,
    safeDate (isoHost tza) (Some s) = Some t
    /\ getFullYear (isoHost tza) t = y
    /\ getMonth (isoHost tza) t = m - 1
    /\ getDate (isoHost tza) t = d.
Proof.
  intros Hz F. destruct (isoFields_parse s y m d F) as [P [Hm Hd]].
  exists (MakeDate (MakeDay y (m - 1) d) 0). split.
  - destruct s as [|c s']; [discriminate F|]. exact P.
  - unfold getFullYear, getMonth, getDate, LocalTime. cbn [LocalTZA isoHost].
    replace (MakeDate (MakeDay y (m - 1) d) 0 + tza)
      with (MakeDate (MakeDay y (m - 1) d) tza) by (unfold MakeDate; lia).
    apply civil_of_MakeDay; lia.
Qed.

Lemma age_of_written_fields
  (tza now1 now2 : Z) (birthDate referenceDate : string) (y m d y' m' d' : Z) :
  0 <= tza < msPerDay ->
  isoFields birthDate = Some (y, m, d) ->
  isoFields referenceDate = Some (y', m', d') ->
  calculateAge (isoHost tza) now1 now2 (Some birthDate) (Some referenceDate)
  = (let total := 12 * (y' - y) + (m' - m) - (if d' <? d then 1 else 0) in
     if total <? 0 then {| years := 0; months := 0 |}
     else {| years := total / 12; months := total mod 12 |}).
Proof.
  intros Hz Fb Fr.
  destruct (getters_of_isoFields tza birthDate y m d Hz Fb) as [tb [Sb [Yb [Mb Db]]]].
  destruct (getters_of_isoFields tza referenceDate y' m' d' Hz Fr) as [tr [Sr [Yr [Mr Dr]]]].
  rewrite (calculateAge_of_instants (isoHost tza) now1 now2 _ _ tb tr)
    by (rewrite ?Sb, ?Sr; reflexivity).
  destruct (age_of_instants (isoHost tza) tb tr) as [P N].
  unfold completedMonths in P, N. rewrite Yb, Yr, Mb, Mr, Db, Dr in P, N.
  cbv zeta.
  replace (12 * (y' - y) + (m' - 1 - (m - 1)) - (if d' <? d then 1 else 0))
    with (12 * (y' - y) + (m' - m) - (if d' <? d then 1 else 0)) in P, N by lia.
  destruct (Z.ltb_spec (12 * (y' - y) + (m' - m) - (if d' <? d then 1 else 0)) 0) as [L|G].
  - exact (N L).
  - destruct (P G) as [Y Mo].
    destruct (calculateAge (isoHost tza) tb tr None None) as [yy mm].
    cbn in Y, Mo. subst. reflexivity.
Qed.


(** X4.  For two date strings of the form [YYYY-MM-DD], in a zone at or east
    of Greenwich, the age is computed from the fields as written: the
    completed months are [12 * (y' - y) + (m' - m)], less one when [d' < d];
    [years] and [months] are their quotient and remainder by twelve, and a
    negative count gives 0 years 0 months. *)
Theorem calculateAge_written_fields
  (tza now1 now2 : Z) (birthDate referenceDate : string) (y m d y' m' d' : Z) :
  0 <= tza < msPerDay ->
  isoFields birthDate = Some (y, m, d) ->
  isoFields referenceDate = Some (y', m', d') ->
  calculateAge (isoHost tza) now1 now2 (Some birthDate) (Some referenceDate)
  = (let total := 12 * (y' - y) + (m' - m) - (if d' <? d then 1 else 0) in
     if total <? 0 then {| years := 0; months := 0 |}
     else {| years := total / 12; months := total mod 12 |}).
Proof.
  intros Hz Fb Fr. apply age_of_written_fields; assumption.
Qed.

Lemma calculateAge_written_fields_witness :
  calculateAge (isoHost 32400000) 0 0 (Some "2012-02-29") (Some "2024-02-28")
  = {| years := 11; months := 11 |}.
Proof.
  apply (calculateAge_written_fields 32400000 0 0 "2012-02-29" "2024-02-28"
           2012 2 29 2024 2 28).
  - unfold msPerDay. lia.
  - vm_compute; reflexivity.
  - vm_compute; reflexivity.
Defined.

(** X5.  On the birthday itself, [n] years on, the age is exactly [n] years
    0 months. *)
Theorem calculateAge_birthday
  (tza now1 now2 : Z) (birthDate referenceDate : string) (y m d n : Z) :
  0 <= tza < msPerDay ->
  0 <= n ->
  isoFields birthDate = Some (y, m, d) ->
  isoFields referenceDate = Some (y + n, m, d) ->
  calculateAge (isoHost tza) now1 now2 (Some birthDate) (Some referenceDate)
  = {| years := n; months := 0 |}.
Proof.
  intros Hz Hn Fb Fr.
  rewrite (age_of_written_fields tza now1 now2 _ _ y m d (y + n) m d Hz Fb Fr).
  cbv zeta. rewrite Z.ltb_irrefl.
  replace (12 * (y + n - y) + (m - m) - 0) with (n * 12) by lia.
  destruct (Z.ltb_spec (n * 12) 0); [lia|].
  rewrite Z.div_mul, Z.mod_mul by lia. reflexivity.
Qed.

Lemma calculateAge_birthday_witness :
  calculateAge (isoHost 32400000) 0 0 (Some "2010-06-15") (Some "2024-06-15")
  = {| years := 14; months := 0 |}.
Proof.
  apply (calculateAge_birthday 32400000 0 0 "2010-06-15" "2024-06-15" 2010 6 15 14).
  - unfold msPerDay. lia.
  - lia.
  - vm_compute; reflexivity.
  - vm_compute; reflexivity.
Defined.

End AgeMore.

(** ** components/AnalysisResults.tsx: the chart *)

Module ChartFacts.
Import Age JS Types Chart.

Local Open Scope Q_scope.

Lemma Qltb_lt (a b : Q) : Qltb a b = true <-> a < b.
Proof.
  unfold Qltb. rewrite negb_true_iff. split.
  - intros H. apply Qnot_le_lt. intros L. apply Qle_bool_iff in L. congruence.
  - intros H. destruct (Qle_bool b a) eqn:E; [|reflexivity].
    apply Qle_bool_iff in E. lra.
Qed.

Lemma mapi_from_In {A B : Type} (f : A -> Z -> B) (l : list A) (k : Z) (q : B) :
  In q (mapi_from k f l) ->
  exists a i, In a l /\ (k <= i < k + Z.of_nat (List.length l))%Z /\ q = f a i.
Proof.
  revert k. induction l as [|a l IH]; intros k H; [destruct H|].
  cbn [mapi_from] in H. destruct H as [<-|H].
  - exists a, k. split; [left; reflexivity|]. split; [cbn [List.length]; lia|reflexivity].
  - destruct (IH _ H) as [a' [i [I [R E]]]].
    exists a', i. split; [right; exact I|]. split; [cbn [List.length]; lia|exact E].
Qed.

Lemma mapi_from_length {A B : Type} (f : A -> Z -> B) (l : list A) (k : Z) :
  List.length (mapi_from k f l) = List.length l.
Proof.
  revert k. induction l as [|a l IH]; intros k; [reflexivity|].
  cbn [mapi_from List.length]. rewrite IH. reflexivity.
Qed.

Lemma Math_min_of_le (rest : list Q) (first : Q) :
  Math_min_of first rest <= first
  /\ forall x, In x rest -> Math_min_of first rest <= x.
Proof.
  unfold Math_min_of. revert first.
  induction rest as [|a rest IH]; intros first; cbn [fold_left].
  - split; [lra|]. intros x [].
  - destruct (IH (Qmin first a)) as [H1 H2].
    pose proof (Q.le_min_l first a). pose proof (Q.le_min_r first a).
    split; [lra|]. intros x [<-|I]; [lra|]. apply H2, I.
Qed.

Lemma Math_max_of_ge (rest : list Q) (first : Q) :
  first <= Math_max_of first rest
  /\ forall x, In x rest -> x <= Math_max_of first rest.
Proof.
  unfold Math_max_of. revert first.
  induction rest as [|a rest IH]; intros first; cbn [fold_left].
  - split; [lra|]. intros x [].
  - destruct (IH (Qmax first a)) as [H1 H2].
    pose proof (Q.le_max_l first a). pose proof (Q.le_max_r first a).
    split; [lra|]. intros x [<-|I]; [lra|]. apply H2, I.
Qed.

Lemma padded_bounds (w : Q) (index total : Z) :
  0 <= w -> (0 <= index < total)%Z -> 0 <= padded w index total <= w.
Proof.
  intros Hw Hi. unfold padded.
  destruct (Z.leb_spec total 1).
  - split.
    + apply Qle_shift_div_l; lra.
    + apply Qle_shift_div_r; lra.
  - assert (P : 0 < inject_Z (total - 1))
      by (change 0 with (inject_Z 0); rewrite <- Zlt_Qlt; lia).
    assert (I0 : 0 <= inject_Z index)
      by (change 0 with (inject_Z 0); rewrite <- Zle_Qle; lia).
    assert (I1 : inject_Z index <= inject_Z (total - 1))
      by (rewrite <- Zle_Qle; lia).
    assert (Q0 : 0 <= inject_Z index / inject_Z (total - 1))
      by (apply Qle_shift_div_l; lra).
    assert (Q1 : inject_Z index / inject_Z (total - 1) <= 1)
      by (apply Qle_shift_div_r; lra).
    split.
    + apply Qmult_le_0_compat; assumption.
    + setoid_replace w with (1 * w) at 2 by ring.
      apply Qmult_le_compat_r; assumption.
Qed.

Section GraphMeta.

Variable show : Q -> string.

(** X6.  When no point of the curve is below 110 cm, every plotted point
    lies inside the padded drawing area of the 320 x 160 chart: [x] within
    28..292 and [y] within 28..132; the chart has one plotted point per
    curve point. *)
Theorem graphMeta_inside_viewport
  (graphPoints : list GrowthPoint) (chronologicalAge : AgeResult) (gm : GraphMeta) :
  graphMeta show graphPoints chronologicalAge = Some gm ->
  (forall pt, In pt graphPoints -> 110 <= gp_height pt) ->
  List.length (normalized gm) = List.length graphPoints
  /\ forall q, In q (normalized gm) ->
        28 <= cp_x q <= 292 /\ 28 <= cp_y q <= 132.
Proof.
  intros G Hh. unfold graphMeta in G.
  destruct graphPoints as [|first rest]; [discriminate|].
  cbv zeta in G.
  set (minH := Qmax 110 (Math_min_of (gp_height first) (map gp_height rest) - 4)) in *.
  set (maxH := Math_max_of (gp_height first) (map gp_height rest) + 6) in *.
  set (range := Qmax 1 (maxH - minH)) in *.
  set (pts := first :: rest) in *.
  match type of G with
  | match ?n with _ => _ end = _ => set (norm := n) in *
  end.
  assert (Hnorm : normalized gm = norm).
  { destruct norm as [|f' r'] eqn:E; [discriminate|].
    injection G as <-. reflexivity. }
  rewrite Hnorm. split; [apply mapi_from_length|].
  intros q Hq. apply mapi_from_In in Hq.
  destruct Hq as [pt [i [Hin [Hi ->]]]]. cbn [cp_x cp_y].
  pose proof (Math_min_of_le (map gp_height rest) (gp_height first)) as [Mn1 Mn2].
  pose proof (Math_max_of_ge (map gp_height rest) (gp_height first)) as [Mx1 Mx2].
  assert (Hmin : Math_min_of (gp_height first) (map gp_height rest) <= gp_height pt).
  { destruct Hin as [<-|Hin]; [exact Mn1|]. apply Mn2, in_map, Hin. }
  assert (Hmax : gp_height pt <= Math_max_of (gp_height first) (map gp_height rest)).
  { destruct Hin as [<-|Hin]; [exact Mx1|]. apply Mx2, in_map, Hin. }
  pose proof (Hh pt Hin) as H110.
  assert (HminH : minH <= gp_height pt).
  { unfold minH. apply Q.max_lub; lra. }
  assert (Hrange : 0 < range /\ gp_height pt - minH <= range).
  { unfold range.
    pose proof (Q.le_max_l 1 (maxH - minH)).
    pose proof (Q.le_max_r 1 (maxH - minH)).
    unfold maxH in *. split; lra. }
  destruct Hrange as [Rp Rle].
  assert (Q0 : 0 <= (gp_height pt - minH) / range)
    by (apply Qle_shift_div_l; lra).
  assert (Q1 : (gp_height pt - minH) / range <= 1)
    by (apply Qle_shift_div_r; lra).
  pose proof (padded_bounds (320 - 28 * 2) i (Z.of_nat (List.length pts))) as PB.
  split.
  - destruct PB as [P0 P1]; [lra | lia |]. lra.
  - set (r := (gp_height pt - minH) / range) in *. lra.
Qed.

Lemma closer_cases (c : Q) (acc a : ChartPoint) :
  (closer c acc a = a /\ distance c a < distance c acc)
  \/ (closer c acc a = acc /\ distance c acc <= distance c a).
Proof.
  unfold closer. fold (distance c a). fold (distance c acc).
  destruct (Qltb (distance c a) (distance c acc)) eqn:E.
  - left. split; [reflexivity|]. apply Qltb_lt, E.
  - right. split; [reflexivity|].
    destruct (Qlt_le_dec (distance c a) (distance c acc)) as [L|L]; [|exact L].
    apply Qltb_lt in L. congruence.
Qed.

(** The [reduce] keeps the first of the closest points. *)
Lemma fold_closer (c : Q) (l : list ChartPoint) (acc : ChartPoint) :
  (fold_left (closer c) l acc = acc
   /\ forall x, In x l -> distance c acc <= distance c x)
  \/ exists l1 l2,
       l = l1 ++ fold_left (closer c) l acc :: l2
       /\ distance c (fold_left (closer c) l acc) < distance c acc
       /\ (forall x, In x l1 -> distance c (fold_left (closer c) l acc) < distance c x)
       /\ (forall x, In x l2 -> distance c (fold_left (closer c) l acc) <= distance c x).
Proof.
  revert acc. induction l as [|a l IH]; intros acc; cbn [fold_left].
  - left. split; [reflexivity|]. intros x [].
  - destruct (closer_cases c acc a) as [[-> E]|[-> N]].
    + right.
      destruct (IH a) as [[R A]|[l1 [l2 [L [D [B1 B2]]]]]].
      * rewrite R. exists [], l. split; [reflexivity|]. split; [exact E|].
        split; [intros x []|exact A].
      * exists (a :: l1), l2. split; [cbn [app]; f_equal; exact L|].
        split; [lra|]. split; [|exact B2].
        intros x [<-|I]; [exact D|apply B1, I].
    + destruct (IH acc) as [[R A]|[l1 [l2 [L [D [B1 B2]]]]]].
      * left. split; [exact R|]. intros x [<-|I]; [exact N|apply A, I].
      * right. exists (a :: l1), l2. split; [cbn [app]; f_equal; exact L|].
        split; [exact D|]. split; [|exact B2].
        intros x [<-|I]; [lra|apply B1, I].
Qed.

(** X7.  The marker of the chart is the plotted point whose age is nearest
    to the patient's age in years and twelfths; of several nearest points it
    is the first. *)
Theorem currentPoint_nearest
  (graphPoints : list GrowthPoint) (chronologicalAge : AgeResult) (gm : GraphMeta) :
  graphMeta show graphPoints chronologicalAge = Some gm ->
  exists before after,
    normalized gm = before ++ currentPoint gm :: after
    /\ (forall q, In q before ->
          distance (inject_Z (years chronologicalAge)
                    + inject_Z (months chronologicalAge) / 12) (currentPoint gm)
          < distance (inject_Z (years chronologicalAge)
                      + inject_Z (months chronologicalAge) / 12) q)
    /\ (forall q, In q after ->
          distance (inject_Z (years chronologicalAge)
                    + inject_Z (months chronologicalAge) / 12) (currentPoint gm)
          <= distance (inject_Z (years chronologicalAge)
                       + inject_Z (months chronologicalAge) / 12) q).
Proof.
  intros G. unfold graphMeta in G.
  destruct graphPoints as [|first rest]; [discriminate|].
  cbv zeta in G.
  match type of G with
  | match ?n with _ => _ end = _ => set (norm := n) in *
  end.
  set (c := inject_Z (years chronologicalAge)
            + inject_Z (months chronologicalAge) / 12) in *.
  destruct norm as [|f' r'] eqn:E; [discriminate|].
  injection G as <-. cbn [normalized currentPoint].
  change (fold_left (closer c) r' (closer c f' f'))
    with (fold_left (closer c) (f' :: r') f').
  destruct (fold_closer c (f' :: r') f') as [[R A]|[l1 [l2 [L [D [B1 B2]]]]]].
  - rewrite R. exists [], r'. split; [reflexivity|]. split; [intros q []|].
    intros q I. apply A. right. exact I.
  - exists l1, l2. split; [exact L|]. split; assumption.
Qed.

End GraphMeta.

Lemma graphMeta_inside_viewport_witness :
  match graphMeta Samples.Number_toString ChartSamples.curve ChartSamples.age with
  | Some gm => List.length (normalized gm) = List.length ChartSamples.curve
  | None => False
  end.
Proof.
  destruct (graphMeta Samples.Number_toString ChartSamples.curve ChartSamples.age)
    as [gm|] eqn:G.
  - apply (graphMeta_inside_viewport Samples.Number_toString
             ChartSamples.curve ChartSamples.age gm G).
    intros pt H. vm_compute in H.
    repeat (destruct H as [<-|H]; [vm_compute; discriminate|]).
    destruct H.
  - vm_compute in G. discriminate G.
Defined.

Lemma currentPoint_nearest_witness :
  match graphMeta Samples.Number_toString ChartSamples.curve ChartSamples.age with
  | Some gm => In (currentPoint gm) (normalized gm)
  | None => False
  end.
Proof.
  destruct (graphMeta Samples.Number_toString ChartSamples.curve ChartSamples.age)
    as [gm|] eqn:G.
  - destruct (currentPoint_nearest Samples.Number_toString
                ChartSamples.curve ChartSamples.age gm G) as [l1 [l2 [L _]]].
    rewrite L. apply in_or_app. right. left. reflexivity.
  - vm_compute in G. discriminate G.
Defined.

End ChartFacts.

(** ** components/AnalysisResults.tsx: the derived values *)

Module AnalysisResultsMore.
Import ECMA Age JS Types AnalysisResults.

Local Open Scope Q_scope.

Lemma Math_round_mono (x y : Q) : x <= y -> (Math_round x <= Math_round y)%Z.
Proof. intros H. unfold Math_round. apply Qfloor_resp_le. lra. Qed.

(** A rounded number is within half a unit of the number. *)
Lemma Math_round_near (x : Q) :
  x - (1 # 2) < inject_Z (Math_round x) <= x + (1 # 2).
Proof.
  unfold Math_round.
  pose proof (Qfloor_le (x + (1 # 2))) as L.
  pose proof (Qlt_floor (x + (1 # 2))) as U.
  rewrite inject_Z_plus in U. change (inject_Z 1) with 1 in U.
  split; lra.
Qed.

Lemma number_or_nonzero (h d : Q) : ~ h == 0 -> number_or h d = h.
Proof.
  intros N. unfold number_or.
  destruct (Qeq_bool h 0) eqn:E; [|reflexivity].
  apply Qeq_bool_iff in E. contradiction.
Qed.

(** X8.  For one patient, a higher probability never gives a lower
    predicted adult height. *)
Theorem predictedHeight_monotone
  (result1 result2 : AnalysisResult) (patientInfo : PatientInfo) :
  probability result1 <= probability result2 ->
  (predictedHeight result1 patientInfo <= predictedHeight result2 patientInfo)%Z.
Proof.
  intros H. unfold predictedHeight. apply Math_round_mono. lra.
Qed.

Lemma predictedHeight_monotone_witness :
  (predictedHeight Samples.result Samples.patient
   <= predictedHeight ChartSamples.surer Samples.patient)%Z.
Proof.
  apply (predictedHeight_monotone Samples.result ChartSamples.surer Samples.patient).
  unfold Qle. cbn. lia.
Defined.

Lemma graphPoints_nth
  (h : Host) (now1 now2 : Z) (result : AnalysisResult) (patientInfo : PatientInfo)
  (i : nat) :
  ~ heightCm patientInfo == 0 ->
  (i < 8)%nat ->
  gp_height (nth i (graphPoints h now1 now2 result patientInfo) Samples.origin)
  = heightCm patientInfo
    + ((inject_Z (predictedHeight result patientInfo) - heightCm patientInfo) / 7)
      * inject_Z (Z.of_nat i).
Proof.
  intros Hset Hi. unfold graphPoints.
  rewrite (number_or_nonzero _ 140 Hset).
  do 8 (destruct i as [|i]; [reflexivity|]). lia.
Qed.

(** X12.  The composite score never goes down as the probability goes up,
    and for a probability of at most 1 it never passes 95: the upper bound
    100 is not reached. *)
Theorem osteoAgeScore_monotone (result1 result2 : AnalysisResult) :
  probability result1 <= probability result2 ->
  (osteoAgeScore result1 <= osteoAgeScore result2)%Z
  /\ (probability result2 <= 1 -> (osteoAgeScore result2 <= 95)%Z).
Proof.
  intros H. unfold osteoAgeScore. split.
  - apply Math_round_mono.
    apply Q.min_le_compat_l, Q.max_le_compat_l. lra.
  - intros P1.
    assert (B : Qmin 100 (Qmax 55 (45 + probability result2 * 50)) <= 95).
    { apply Qle_trans with (Qmax 55 (45 + probability result2 * 50));
        [apply Q.le_min_r|]. apply Q.max_lub; lra. }
    pose proof (Math_round_near (Qmin 100 (Qmax 55 (45 + probability result2 * 50)))) as N.
    destruct (Z.le_gt_cases (Math_round (Qmin 100 (Qmax 55 (45 + probability result2 * 50)))) 95)
      as [|G]; [assumption|].
    exfalso.
    assert (inject_Z 96 <= inject_Z (Math_round (Qmin 100 (Qmax 55 (45 + probability result2 * 50)))))
      by (rewrite <- Zle_Qle; lia).
    change (inject_Z 96) with 96 in *. lra.
Qed.

Lemma osteoAgeScore_monotone_witness :
  (osteoAgeScore Samples.result <= osteoAgeScore ChartSamples.surer)%Z.
Proof.
  refine (proj1 (osteoAgeScore_monotone Samples.result ChartSamples.surer _)).
  unfold Qle. cbn. lia.
Defined.

End AnalysisResultsMore.

(** ** components/AnalysisResults.tsx, in the program's arithmetic: the
    derived values *)

Module AnalysisResults64More.
Import ECMA Age JS Types Binary64 Binary64Facts AnalysisResults64 Samples64.
Import AnalysisResults64Facts.

Local Open Scope Q_scope.

Lemma pow2_50 : 2 ^ 50 == 1125899906842624.
Proof. reflexivity. Qed.

Lemma pow2_31 : 2 ^ 31 == 2147483648.
Proof. reflexivity. Qed.

(** For a probability within 0..1 the height gain before rounding lies
    within -6..6. *)
Lemma delta_bounds (p : Q) :
  0 <= p <= 1 -> - (6) <= mul (sub p (1 # 2)) 12 <= 6.
Proof.
  intros [P0 P1]. unfold mul, sub.
  assert (S : - (1 # 2) <= round (p - (1 # 2)) <= 1 # 2).
  { apply round_between; [double | double | lra]. }
  apply round_between; [double | double | lra].
Qed.

(** The predicted height of a patient whose height is set, and how far it
    is from zero. *)
Lemma predictedHeight_set (result : AnalysisResult) (patientInfo : PatientInfo) :
  ~ heightCm patientInfo == 0 ->
  predictedHeight result patientInfo
  = Math_round (add (add (heightCm patientInfo) 10)
                    (mul (sub (probability result) (1 # 2)) 12)).
Proof.
  intros Hset. unfold predictedHeight.
  rewrite (AnalysisResultsMore.number_or_nonzero _ 140 Hset). reflexivity.
Qed.

Lemma predictedHeight_magnitude (result : AnalysisResult) (patientInfo : PatientInfo) :
  ~ heightCm patientInfo == 0 ->
  Qabs (heightCm patientInfo) <= 2 ^ 50 ->
  0 <= probability result <= 1 ->
  (- 2 ^ 50 <= predictedHeight result patientInfo <= 2 ^ 50 + 16)%Z.
Proof.
  intros Hset HB HP. rewrite (predictedHeight_set _ _ Hset).
  apply Qabs_Qle_condition in HB. rewrite pow2_50 in HB.
  pose proof (delta_bounds (probability result) HP) as D.
  set (d := mul (sub (probability result) (1 # 2)) 12) in *.
  set (h := heightCm patientInfo) in *.
  assert (B : - (1125899906842624) + 10 <= add h 10 <= 1125899906842624 + 10).
  { unfold add. apply round_between; [double | double | lra]. }
  apply AnalysisResultsFacts.Math_round_bounds.
  change (inject_Z (- 2 ^ 50)) with (- (1125899906842624)).
  change (inject_Z (2 ^ 50 + 16)) with (1125899906842624 + 16).
  unfold add at 1. split.
  - apply Qle_trans with (- (1125899906842624) + 4); [lra|].
    apply round_above; [double | lra].
  - apply round_below; [double | lra].
Qed.

(** The gain lies strictly between 3.5 and 17: the halves and the integers
    on the way are doubles, so no rounding crosses them. *)
Lemma gain_bounds (result : AnalysisResult) (patientInfo : PatientInfo) :
  ~ heightCm patientInfo == 0 ->
  Qabs (heightCm patientInfo) <= 2 ^ 50 ->
  0 <= probability result <= 1 ->
  heightCm patientInfo + (7 # 2) < inject_Z (predictedHeight result patientInfo)
  /\ inject_Z (predictedHeight result patientInfo) < heightCm patientInfo + 17.
Proof.
  intros Hset HB HP.
  pose proof (predictedHeight_magnitude _ _ Hset HB HP) as M.
  rewrite (predictedHeight_set _ _ Hset) in *.
  apply Qabs_Qle_condition in HB. rewrite pow2_50 in HB.
  pose proof (delta_bounds (probability result) HP) as D.
  set (d := mul (sub (probability result) (1 # 2)) 12) in *.
  set (h := heightCm patientInfo) in *.
  pose proof (AnalysisResultsMore.Math_round_near (add (add h 10) d)) as R.
  set (N := Math_round (add (add h 10) d)) in *.
  split.
  - destruct (Qlt_le_dec (h + (7 # 2)) (inject_Z N)) as [|G]; [assumption|exfalso].
    assert (A : inject_Z (N + 6) + (1 # 2) <= add h 10).
    { unfold add. apply round_above; [apply round_half; lia|].
      rewrite inject_Z_plus. change (inject_Z 6) with 6. lra. }
    assert (S : inject_Z N + (1 # 2) <= add (add h 10) d).
    { unfold add at 1. apply round_above; [apply round_half; lia|].
      rewrite inject_Z_plus in A. change (inject_Z 6) with 6 in A. lra. }
    lra.
  - destruct (Qlt_le_dec (inject_Z N) (h + 17)) as [|G]; [assumption|exfalso].
    assert (A : add h 10 <= inject_Z (N - 7)).
    { unfold add. apply round_below; [apply round_Z; lia|].
      unfold Z.sub. rewrite inject_Z_plus. change (inject_Z (- (7))) with (- (7)). lra. }
    assert (S : add (add h 10) d <= inject_Z (N - 1)).
    { unfold add at 1. apply round_below; [apply round_Z; lia|].
      unfold Z.sub in *. rewrite inject_Z_plus in *.
      change (inject_Z (- (7))) with (- (7)) in A.
      change (inject_Z (- (1))) with (- (1)). lra. }
    unfold Z.sub in S. rewrite inject_Z_plus in S.
    change (inject_Z (- (1))) with (- (1)) in S. lra.
Qed.

(** From a whole number of centimetres every sum on the way is exact. *)
Lemma gain_whole (result : AnalysisResult) (patientInfo : PatientInfo) (z : Z) :
  ~ heightCm patientInfo == 0 ->
  Qabs (heightCm patientInfo) <= 2 ^ 50 ->
  0 <= probability result <= 1 ->
  heightCm patientInfo == inject_Z z ->
  (z + 4 <= predictedHeight result patientInfo <= z + 16)%Z.
Proof.
  intros Hset HB HP Hz.
  rewrite (predictedHeight_set _ _ Hset).
  apply Qabs_Qle_condition in HB. rewrite pow2_50 in HB.
  pose proof (delta_bounds (probability result) HP) as D.
  set (d := mul (sub (probability result) (1 # 2)) 12) in *.
  set (h := heightCm patientInfo) in *.
  rewrite Hz in HB.
  assert (Bz : (- 2 ^ 50 <= z <= 2 ^ 50)%Z).
  { split; rewrite Zle_Qle;
      [change (inject_Z (- 2 ^ 50)) with (- (1125899906842624))
      | change (inject_Z (2 ^ 50)) with 1125899906842624]; lra. }
  assert (A : add h 10 == inject_Z (z + 10)).
  { unfold add. transitivity (round (inject_Z (z + 10))).
    - apply round_comp. rewrite inject_Z_plus, Hz. reflexivity.
    - apply round_Z. lia. }
  apply AnalysisResultsFacts.Math_round_bounds.
  unfold add at 1. apply round_between; [apply round_Z; lia | apply round_Z; lia|].
  rewrite A, !inject_Z_plus.
  change (inject_Z 4) with 4. change (inject_Z 10) with 10.
  change (inject_Z 16) with 16. lra.
Qed.

(** X9.  For a height that is set and at most [2 ^ 50] in magnitude, and
    a probability within 0..1, the predicted adult height is more than
    3.5 cm and less than 17 cm above the patient's height; for a height of
    a whole number of centimetres it is 4 to 16 cm above it.  (The gain
    can pass 16.5: see [gain_past_16_5] below.) *)
Theorem predictedHeight_gain (result : AnalysisResult) (patientInfo : PatientInfo) :
  ~ heightCm patientInfo == 0 ->
  Qabs (heightCm patientInfo) <= 2 ^ 50 ->
  0 <= probability result <= 1 ->
  (heightCm patientInfo + (7 # 2) < inject_Z (predictedHeight result patientInfo)
   /\ inject_Z (predictedHeight result patientInfo) < heightCm patientInfo + 17)
  /\ (forall z : Z,
        heightCm patientInfo == inject_Z z ->
        (z + 4 <= predictedHeight result patientInfo <= z + 16)%Z).
Proof.
  intros Hset HB HP. split.
  - apply gain_bounds; assumption.
  - intros z Hz. apply (gain_whole result patientInfo z); assumption.
Qed.

Lemma predictedHeight_gain_witness :
  heightCm (patientOf 142) + (7 # 2)
  < inject_Z (predictedHeight (resultOf (literal (7 # 10))) (patientOf 142)).
Proof.
  refine (proj1 (proj1 (predictedHeight_gain (resultOf (literal (7 # 10)))
                          (patientOf 142) _ _ _))).
  - cbn. discriminate.
  - vm_compute. discriminate.
  - vm_compute. split; discriminate.
Defined.

(** The double next below 121.5 and the probability 1 give 138: the sum
    with 10 rounds up to 131.5, and the gain is a little more than 16.5. *)
Example gain_past_16_5 :
  let h := literal (12149999999999999 # 100000000000000) in
  predictedHeight (resultOf 1) (patientOf h) = 138%Z
  /\ Qle_bool 138 (h + (33 # 2)) = false.
Proof. vm_compute. split; reflexivity. Qed.

(** X10.  For a predicted height of at most [2 ^ 52] in magnitude, the
    predicted range never starts below 120, ends 3 above the prediction
    and is at most 7 wide; it holds the prediction exactly when the
    prediction is 120 or more, and is empty ([min > max]) exactly when the
    prediction is below 117. *)
Theorem predictedRange_band (result : AnalysisResult) (patientInfo : PatientInfo) :
  (Z.abs (predictedHeight result patientInfo) <= 2 ^ 52)%Z ->
  120 <= min (predictedRange result patientInfo)
  /\ max (predictedRange result patientInfo)
     == inject_Z (predictedHeight result patientInfo) + 3
  /\ max (predictedRange result patientInfo)
     - min (predictedRange result patientInfo) <= 7
  /\ (min (predictedRange result patientInfo)
      <= inject_Z (predictedHeight result patientInfo)
      <-> 120 <= inject_Z (predictedHeight result patientInfo))
  /\ (max (predictedRange result patientInfo) < min (predictedRange result patientInfo)
      <-> inject_Z (predictedHeight result patientInfo) < 117).
Proof.
  intros B. destruct (predictedRange_exact result patientInfo B) as [E1 E2].
  rewrite E1, E2. clear E1 E2 B.
  set (N := predictedHeight result patientInfo).
  rewrite inject_Z_plus. change (inject_Z 3) with 3.
  destruct (Z.max_spec 120 (N - 4)) as [[L E]|[L E]]; rewrite E.
  - rewrite Zlt_Qlt in L. unfold Z.sub in *. rewrite inject_Z_plus in *.
    change (inject_Z (- (4))) with (- (4)) in *. change (inject_Z 120) with 120 in *.
    repeat split; intros; lra.
  - rewrite Zle_Qle in L. unfold Z.sub in *. rewrite inject_Z_plus in *.
    change (inject_Z (- (4))) with (- (4)) in *. change (inject_Z 120) with 120 in *.
    repeat split; intros; lra.
Qed.

Lemma predictedRange_band_witness :
  120 <= min (predictedRange (resultOf (literal (7 # 10))) (patientOf 142)).
Proof.
  refine (proj1 (predictedRange_band (resultOf (literal (7 # 10))) (patientOf 142) _)).
  vm_compute. discriminate.
Defined.

(** The heights of the curve, one by one. *)
Lemma graphPoints64_nth
  (h : Host) (now1 now2 : Z) (result : AnalysisResult) (patientInfo : PatientInfo)
  (i : nat) :
  ~ heightCm patientInfo == 0 ->
  (i < 8)%nat ->
  gp_height (nth i (graphPoints h now1 now2 result patientInfo) Samples.origin)
  = add (heightCm patientInfo)
        (mul (div (sub (inject_Z (predictedHeight result patientInfo))
                       (heightCm patientInfo)) 7)
             (inject_Z (Z.of_nat i))).
Proof.
  intros Hset Hi. unfold graphPoints.
  rewrite (AnalysisResultsMore.number_or_nonzero _ 140 Hset).
  do 8 (destruct i as [|i]; [reflexivity|]). lia.
Qed.

(** Below [2 ^ 32] rounding moves a number by less than a millionth. *)
Lemma round_near_20 (x : Q) :
  - (4294967296) <= x <= 4294967296 ->
  x - (1 # 1048576) <= round x <= x + (1 # 1048576).
Proof. intros H. apply (round_near 20 x); [lia | exact H]. Qed.

(** The step of the curve: a seventh of the gain, within 0.5..2.5. *)
Lemma curve_step (result : AnalysisResult) (patientInfo : PatientInfo) :
  ~ heightCm patientInfo == 0 ->
  Qabs (heightCm patientInfo) <= 2 ^ 31 ->
  0 <= probability result <= 1 ->
  let gain := inject_Z (predictedHeight result patientInfo) - heightCm patientInfo in
  let step := div (sub (inject_Z (predictedHeight result patientInfo))
                       (heightCm patientInfo)) 7 in
  (7 # 2) < gain < 17
  /\ (1 # 2) <= step <= (5 # 2)
  /\ gain / 7 - (2 # 1048576) <= step <= gain / 7 + (2 # 1048576).
Proof.
  intros Hset HB HP gain step.
  assert (HB50 : Qabs (heightCm patientInfo) <= 2 ^ 50).
  { apply Qle_trans with (2 ^ 31); [exact HB | apply pow2_le; lia]. }
  destruct (gain_bounds result patientInfo Hset HB50 HP) as [G1 G2].
  assert (G : (7 # 2) < gain < 17) by (unfold gain; split; lra).
  split; [exact G|].
  unfold step, div, sub. fold gain.
  unfold Qdiv. change (/ 7) with (1 # 7).
  pose proof (round_near_20 gain ltac:(lra)) as N1.
  assert (S : (7 # 2) <= round gain <= 17).
  { apply round_between; [double | double | lra]. }
  pose proof (round_near_20 (round gain * (1 # 7)) ltac:(lra)) as N2.
  split.
  - apply round_between; [double | double | lra].
  - lra.
Qed.

(** X11.  For a height that is set and at most [2 ^ 31] in magnitude, and
    a probability within 0..1, the heights of the growth curve go strictly
    up from point to point, by more than 0.49 each. *)
Theorem graphPoints_rising
  (h : Host) (now1 now2 : Z) (result : AnalysisResult) (patientInfo : PatientInfo) :
  ~ heightCm patientInfo == 0 ->
  Qabs (heightCm patientInfo) <= 2 ^ 31 ->
  0 <= probability result <= 1 ->
  forall i, (i < 7)%nat ->
    gp_height (nth i (graphPoints h now1 now2 result patientInfo) Samples.origin)
    + (49 # 100)
    < gp_height (nth (S i) (graphPoints h now1 now2 result patientInfo) Samples.origin).
Proof.
  intros Hset HB HP i Hi.
  rewrite !graphPoints64_nth by (assumption || lia).
  destruct (curve_step result patientInfo Hset HB HP) as [_ [[S1 S2] _]].
  set (step := div (sub (inject_Z (predictedHeight result patientInfo))
                        (heightCm patientInfo)) 7) in *.
  apply Qabs_Qle_condition in HB. rewrite pow2_31 in HB.
  set (b := heightCm patientInfo) in *.
  unfold add, mul.
  do 7 (destruct i as [|i];
        [ cbn [Z.of_nat Pos.of_succ_nat Pos.succ]; unfold inject_Z;
          match goal with
          | |- round (b + round (step * ?m)) + _ < round (b + round (step * ?n)) =>
              pose proof (round_near_20 (step * m) ltac:(lra)) as T1;
              pose proof (round_near_20 (step * n) ltac:(lra)) as T2;
              pose proof (round_near_20 (b + round (step * m)) ltac:(lra)) as H1;
              pose proof (round_near_20 (b + round (step * n)) ltac:(lra)) as H2
          end; lra
        |]).
  lia.
Qed.

Lemma graphPoints_rising_witness :
  gp_height (nth 0 (graphPoints (isoHost 32400000) 0 0
                      (resultOf (literal (7 # 10))) (patientOf 142)) Samples.origin)
  + (49 # 100)
  < gp_height (nth 1 (graphPoints (isoHost 32400000) 0 0
                        (resultOf (literal (7 # 10))) (patientOf 142)) Samples.origin).
Proof.
  apply (graphPoints_rising (isoHost 32400000) 0 0
           (resultOf (literal (7 # 10))) (patientOf 142)).
  - cbn. discriminate.
  - vm_compute. discriminate.
  - vm_compute. split; discriminate.
  - lia.
Defined.

(** X26.  For a height that is set and at most [2 ^ 31] in magnitude, and
    a probability within 0..1, each height of the growth curve is within
    [2 ^ -16] of the interpolation [base + (predicted - base) / 7 * index]
    between the patient's height and the predicted adult height; the first
    height is the patient's height itself when that is a double. *)
Theorem graphPoints_near_interpolation
  (h : Host) (now1 now2 : Z) (result : AnalysisResult) (patientInfo : PatientInfo) :
  ~ heightCm patientInfo == 0 ->
  Qabs (heightCm patientInfo) <= 2 ^ 31 ->
  0 <= probability result <= 1 ->
  (forall i, (i < 8)%nat ->
     - (1 # 65536)
     <= gp_height (nth i (graphPoints h now1 now2 result patientInfo) Samples.origin)
        - Spec.curveHeight (heightCm patientInfo)
            (inject_Z (predictedHeight result patientInfo)) (Z.of_nat i)
     <= 1 # 65536)
  /\ (round (heightCm patientInfo) == heightCm patientInfo ->
      gp_height (nth 0 (graphPoints h now1 now2 result patientInfo) Samples.origin)
      == heightCm patientInfo).
Proof.
  intros Hset HB HP. split.
  - intros i Hi.
    rewrite graphPoints64_nth by assumption.
    destruct (curve_step result patientInfo Hset HB HP) as [G [[S1 S2] [E1 E2]]].
    unfold Spec.curveHeight.
    set (step := div (sub (inject_Z (predictedHeight result patientInfo))
                          (heightCm patientInfo)) 7) in *.
    set (gain := inject_Z (predictedHeight result patientInfo) - heightCm patientInfo) in *.
    apply Qabs_Qle_condition in HB. rewrite pow2_31 in HB.
    set (b := heightCm patientInfo) in *.
    unfold add, mul. unfold Qdiv in *. change (/ 7) with (1 # 7) in *.
    do 8 (destruct i as [|i];
          [ cbn [Z.of_nat Pos.of_succ_nat Pos.succ]; unfold inject_Z;
            match goal with
            | |- _ <= round (b + round (step * ?m)) - _ <= _ =>
                pose proof (round_near_20 (step * m) ltac:(lra)) as T1;
                pose proof (round_near_20 (b + round (step * m)) ltac:(lra)) as H1
            end; lra
          |]).
    lia.
  - intros D. rewrite graphPoints64_nth by (assumption || lia).
    unfold add, mul. cbn [Z.of_nat].
    set (step := div (sub (inject_Z (predictedHeight result patientInfo))
                          (heightCm patientInfo)) 7).
    assert (Z0 : round (step * inject_Z 0) == 0).
    { transitivity (round 0); [apply round_comp; apply Qmult_0_r | double]. }
    transitivity (round (heightCm patientInfo)); [|exact D].
    apply round_comp. rewrite Z0. ring.
Qed.

Lemma graphPoints_near_interpolation_witness :
  gp_height (nth 0 (graphPoints (isoHost 32400000) 0 0
                      (resultOf (literal (7 # 10))) (patientOf 142)) Samples.origin)
  == 142.
Proof.
  refine (proj2 (graphPoints_near_interpolation (isoHost 32400000) 0 0
                   (resultOf (literal (7 # 10))) (patientOf 142) _ _ _) _).
  - cbn. discriminate.
  - vm_compute. discriminate.
  - vm_compute. split; discriminate.
  - vm_compute. reflexivity.
Defined.

(** X27.  In the program's arithmetic too, a higher probability never
    gives a lower predicted adult height: each rounding keeps the order. *)
Theorem predictedHeight64_monotone
  (result1 result2 : AnalysisResult) (patientInfo : PatientInfo) :
  probability result1 <= probability result2 ->
  (predictedHeight result1 patientInfo <= predictedHeight result2 patientInfo)%Z.
Proof.
  intros H. unfold predictedHeight.
  apply AnalysisResultsMore.Math_round_mono.
  unfold add at 1 3. apply round_mono.
  apply Qplus_le_r. unfold mul. apply round_mono.
  apply Qmult_le_compat_r; [|discriminate].
  unfold sub. apply round_mono. lra.
Qed.

Lemma predictedHeight64_monotone_witness :
  (predictedHeight (resultOf (literal (7 # 10))) (patientOf 142)
   <= predictedHeight (resultOf (literal (9 # 10))) (patientOf 142))%Z.
Proof.
  apply (predictedHeight64_monotone (resultOf (literal (7 # 10)))
           (resultOf (literal (9 # 10))) (patientOf 142)).
  vm_compute. discriminate.
Defined.

(** X28.  In the program's arithmetic too, the composite score never goes
    down as the probability goes up, and for a probability of at most 1 it
    never passes 95. *)
Theorem osteoAgeScore64_monotone (result1 result2 : AnalysisResult) :
  probability result1 <= probability result2 ->
  (osteoAgeScore result1 <= osteoAgeScore result2)%Z
  /\ (probability result2 <= 1 -> (osteoAgeScore result2 <= 95)%Z).
Proof.
  intros H. unfold osteoAgeScore. split.
  - apply AnalysisResultsMore.Math_round_mono.
    apply Q.min_le_compat_l, Q.max_le_compat_l.
    unfold add. apply round_mono. apply Qplus_le_r.
    unfold mul. apply round_mono. lra.
  - intros P1.
    assert (M : mul (probability result2) 50 <= 50).
    { unfold mul. apply round_below; [double | lra]. }
    assert (A : add 45 (mul (probability result2) 50) <= 95).
    { unfold add. apply round_below; [double | lra]. }
    set (x := add 45 (mul (probability result2) 50)) in *.
    assert (B : Qmin 100 (Qmax 55 x) <= 95).
    { apply Qle_trans with (Qmax 55 x); [apply Q.le_min_r|]. apply Q.max_lub; lra. }
    pose proof (AnalysisResultsFacts.Math_round_bounds 0 95 (Qmin 100 (Qmax 55 x))) as R.
    apply R. split; [|exact B].
    apply Q.min_glb; [discriminate|].
    apply Qle_trans with 55; [discriminate | apply Q.le_max_l].
Qed.

Lemma osteoAgeScore64_monotone_witness :
  (osteoAgeScore (resultOf (literal (7 # 10)))
   <= osteoAgeScore (resultOf (literal (9 # 10))))%Z.
Proof.
  refine (proj1 (osteoAgeScore64_monotone (resultOf (literal (7 # 10)))
                   (resultOf (literal (9 # 10))) _)).
  vm_compute. discriminate.
Defined.

End AnalysisResults64More.

(** ** components/ImageViewer.tsx *)

Module ImageViewerFacts.
Import JS ImageViewer.

Local Open Scope Q_scope.

Lemma step_half_steps (s : Q) (a : Action) (k : Z) :
  (2 <= k <= 8)%Z -> s == inject_Z k / 2 ->
  exists k', (2 <= k' <= 8)%Z /\ step s a == inject_Z k' / 2.
Proof.
  intros K E.
  assert (B : 1 <= s <= 4).
  { rewrite E. split.
    - apply Qle_shift_div_l; [lra|]. change (1 * 2) with (inject_Z 2).
      rewrite <- Zle_Qle. lia.
    - apply Qle_shift_div_r; [lra|]. change (4 * 2) with (inject_Z 8).
      rewrite <- Zle_Qle. lia. }
  assert (Up : s + (1 # 2) == inject_Z (k + 1) / 2).
  { rewrite E, inject_Z_plus. change (inject_Z 1) with 1.
    unfold Qdiv. change (/ 2) with (1 # 2). lra. }
  assert (Down : s - (1 # 2) == inject_Z (k - 1) / 2).
  { rewrite E. unfold Z.sub. rewrite inject_Z_plus.
    change (inject_Z (- (1))) with (- (1)).
    unfold Qdiv. change (/ 2) with (1 # 2). lra. }
  destruct a; cbn [step]; unfold handleZoomIn, handleZoomOut, handleResetZoom.
  - destruct (Z.eq_dec k 8) as [->|N].
    + exists 8%Z. split; [lia|].
      rewrite Q.min_r; [reflexivity|]. rewrite E. cbn. discriminate.
    + exists (k + 1)%Z. split; [lia|].
      rewrite Q.min_l; [exact Up|]. rewrite Up.
      apply Qle_shift_div_r; [lra|]. change (4 * 2) with (inject_Z 8).
      rewrite <- Zle_Qle. lia.
  - destruct (Z.eq_dec k 2) as [->|N].
    + exists 2%Z. split; [lia|].
      rewrite Q.max_r; [reflexivity|]. rewrite E. cbn. discriminate.
    + exists (k - 1)%Z. split; [lia|].
      rewrite Q.max_l; [exact Down|]. rewrite Down.
      apply Qle_shift_div_l; [lra|]. change (1 * 2) with (inject_Z 2).
      rewrite <- Zle_Qle. lia.
  - exists 2%Z. split; [lia|reflexivity].
  - exists 2%Z. split; [lia|reflexivity].
Qed.

Lemma fold_half_steps (actions : list Action) (s : Q) (k : Z) :
  (2 <= k <= 8)%Z -> s == inject_Z k / 2 ->
  exists k', (2 <= k' <= 8)%Z /\ fold_left step actions s == inject_Z k' / 2.
Proof.
  revert s k. induction actions as [|a actions IH]; intros s k K E; cbn [fold_left].
  - exists k. split; assumption.
  - destruct (step_half_steps s a k K E) as [k' [K' E']].
    exact (IH _ k' K' E').
Qed.

(** X13.  Whatever buttons are pressed, the zoom level is a whole number of
    halves between 1 and 4, and the toolbar shows one of 100, 150, ...,
    400 percent. *)
Theorem zoom_stays_in_range (actions : list Action) :
  exists k,
    (2 <= k <= 8)%Z
    /\ run actions == inject_Z k / 2
    /\ 1 <= run actions <= 4
    /\ zoomPercent (run actions) = (50 * k)%Z.
Proof.
  destruct (fold_half_steps actions 1 2) as [k [K E]]; [lia|reflexivity|].
  exists k. fold (run actions) in E. split; [exact K|]. split; [exact E|].
  assert (L : inject_Z 2 <= inject_Z k <= inject_Z 8)
    by (rewrite <- !Zle_Qle; lia).
  change (inject_Z 2) with 2 in L. change (inject_Z 8) with 8 in L.
  split.
  - rewrite E. split.
    + apply Qle_shift_div_l; lra.
    + apply Qle_shift_div_r; lra.
  - unfold zoomPercent, Math_round.
    assert (R : run actions * 100 + (1 # 2) == inject_Z (50 * k) + (1 # 2)).
    { rewrite E, inject_Z_mult. change (inject_Z 50) with 50. field. }
    rewrite (Qfloor_comp _ _ R).
    apply Z.le_antisymm.
    + apply Z.lt_succ_r. rewrite Zlt_Qlt.
      eapply Qle_lt_trans; [apply Qfloor_le|].
      unfold Z.succ. rewrite inject_Z_plus. change (inject_Z 1) with 1. lra.
    + rewrite <- (Qfloor_Z (50 * k)) at 1. apply Qfloor_resp_le. lra.
Qed.

(** X14.  Zooming in and then out comes back to the same level from any
    level between 1 and 3.5; at 4 zooming in changes nothing, and at 1
    zooming out changes nothing. *)
Theorem zoom_in_out (s : Q) :
  (1 <= s <= 7 # 2 -> handleZoomOut (handleZoomIn s) == s)
  /\ (s == 4 -> handleZoomIn s == 4)
  /\ (s == 1 -> handleZoomOut s == 1).
Proof.
  unfold handleZoomIn, handleZoomOut. repeat split.
  - intros [L U]. rewrite Q.min_l by lra. rewrite Q.max_l by lra. ring.
  - intros E. rewrite Q.min_r by lra. reflexivity.
  - intros E. rewrite Q.max_r by lra. reflexivity.
Qed.

Lemma zoom_in_out_witness : handleZoomOut (handleZoomIn (5 # 2)) == 5 # 2.
Proof.
  apply (zoom_in_out (5 # 2)). split; discriminate.
Defined.

End ImageViewerFacts.

(** ** components/FileUpload.tsx: runs of events *)

Module FileUploadRunFacts.
Import JS FileUpload FileUploadRun.

Local Open Scope Q_scope.

Section Component.

Variable limitMB : Q.
Variable types : list (string * list string).
Variable show : Q -> string.

(** What [validateFile] lets through has passed both checks, and
    validation makes no call. *)
Lemma validateFile_sound (file : File) (st st' : State) (ok : bool) :
  validateFile limitMB types show file st = (ok, st') ->
  selected st' = selected st
  /\ (ok = true ->
      Spec.hasSupportedExtension types (file_name file)
      /\ inject_Z (size file) <= sizeLimit limitMB).
Proof.
  unfold validateFile. intros H.
  destruct (Qle_bool (inject_Z (size file)) (sizeLimit limitMB)) eqn:S;
    cbn [negb] in H.
  - destruct (existsb _ _) eqn:X; cbn [negb] in H;
      injection H as <- <-; (split; [reflexivity|]); intros T; try discriminate T.
    split; [apply existsb_exists, X | apply Qle_bool_iff, S].
  - injection H as <- <-. split; [reflexivity|]. intros T. discriminate T.
Qed.

Lemma handle_keeps_valid (disabled : bool) (files : list File) (st : State) :
  allValid limitMB types st ->
  allValid limitMB types (match files with
            | file :: _ =>
                let '(ok, st') := validateFile limitMB types show file st in
                if ok then onFileSelect file st' else st'
            | [] => st
            end).
Proof.
  intros V. destruct files as [|file rest]; [exact V|].
  destruct (validateFile limitMB types show file st) as [ok st'] eqn:E.
  destruct (validateFile_sound file st st' ok E) as [Sel Ok].
  destruct ok.
  - intros f [<-|I]; [apply Ok; reflexivity|]. apply V. rewrite <- Sel. exact I.
  - intros f I. apply V. rewrite <- Sel. exact I.
Qed.

Lemma step_keeps_valid (st : State) (ev : Event) :
  allValid limitMB types st -> allValid limitMB types (step limitMB types show st ev).
Proof.
  intros V. destruct ev as [d|d|d files|d files]; cbn [step].
  - unfold handleDragOver. destruct d; exact V.
  - unfold handleDragLeave. destruct d; exact V.
  - unfold handleDrop. destruct d; [exact V|].
    apply (handle_keeps_valid false files (setIsDragOver false st)). exact V.
  - unfold handleFileInput. destruct d; [exact V|].
    apply (handle_keeps_valid false files st). exact V.
Qed.

(** X15.  Whatever is dragged, dropped or picked, in any order and with the
    widget enabled or not, every file handed to [onFileSelect] has a
    supported extension and a size within the ceiling. *)
Theorem only_valid_files_selected (events : list Event) (file : File) :
  In file (selected (run limitMB types show events)) ->
  Spec.hasSupportedExtension types (file_name file)
  /\ inject_Z (size file) <= sizeLimit limitMB.
Proof.
  unfold run.
  assert (G : forall st, allValid limitMB types st ->
                allValid limitMB types (fold_left (step limitMB types show) events st)).
  { induction events as [|ev events IH]; intros st V; cbn [fold_left].
    - exact V.
    - apply IH, step_keeps_valid, V. }
  apply (G mounted). intros f [].
Qed.

Lemma widgetStep_keeps_valid (w : Rendered * State) (ev : WidgetEvent) :
  allValid limitMB types (snd w) ->
  allValid limitMB types (snd (widgetStep limitMB types show w ev)).
Proof.
  intros V. destruct ev as [d same| | |files|files]; cbn [widgetStep snd].
  - exact V.
  - apply (step_keeps_valid (snd w) (DragOver (disabled (fst w)))). exact V.
  - apply (step_keeps_valid (snd w) (DragLeave (disabled (fst w)))). exact V.
  - apply (step_keeps_valid (snd w) (Drop (dropDisabled (fst w)) files)). exact V.
  - apply (step_keeps_valid (snd w) (Input (disabled (fst w)) files)). exact V.
Qed.

Lemma widgetStep_fresh (w : Rendered * State) (ev : WidgetEvent) :
  (forall d same, ev = Render d same -> same = false) ->
  dropDisabled (fst w) = disabled (fst w) ->
  dropDisabled (fst (widgetStep limitMB types show w ev))
  = disabled (fst (widgetStep limitMB types show w ev)).
Proof.
  intros F E. destruct ev as [d same| | |files|files]; cbn [widgetStep fst]; try exact E.
  rewrite (F d same eq_refl). reflexivity.
Qed.

(** X29.  With the renders in the picture: whatever the widget is rendered
    with and whatever is dragged, dropped or picked in between, every file
    handed to [onFileSelect] has a supported extension and a size within
    the ceiling, also when [handleDrop] still holds the [disabled] of an
    earlier render; and when every render brings another [onFileSelect],
    [handleDrop] holds the [disabled] of the latest render. *)
Theorem widget_selects_valid_files
  (mountedDisabled : bool) (events : list WidgetEvent) :
  (forall file,
     In file (selected (snd (widgetRun limitMB types show mountedDisabled events))) ->
     Spec.hasSupportedExtension types (file_name file)
     /\ inject_Z (size file) <= sizeLimit limitMB)
  /\ (freshCallback events ->
      dropDisabled (fst (widgetRun limitMB types show mountedDisabled events))
      = disabled (fst (widgetRun limitMB types show mountedDisabled events))).
Proof.
  unfold widgetRun. split.
  - assert (G : forall w, allValid limitMB types (snd w) ->
                  allValid limitMB types
                    (snd (fold_left (widgetStep limitMB types show) events w))).
    { induction events as [|ev events IH]; intros w V; cbn [fold_left].
      - exact V.
      - apply IH, widgetStep_keeps_valid, V. }
    apply (G (mount mountedDisabled, mounted)). intros f [].
  - assert (G : forall w, freshCallback events ->
                  dropDisabled (fst w) = disabled (fst w) ->
                  dropDisabled (fst (fold_left (widgetStep limitMB types show) events w))
                  = disabled (fst (fold_left (widgetStep limitMB types show) events w))).
    { induction events as [|ev events IH]; intros w F E; cbn [fold_left].
      - exact E.
      - apply IH.
        + intros d same I. apply (F d same). right. exact I.
        + apply widgetStep_fresh; [|exact E].
          intros d same ->. apply (F d same). left. reflexivity. }
    intros F. apply (G (mount mountedDisabled, mounted) F). reflexivity.
Qed.

End Component.

Lemma widget_selects_valid_files_witness :
  dropDisabled
    (fst (widgetRun Samples.MAX_FILE_SIZE_MB Samples.SUPPORTED_FILE_TYPES
            Samples.Number_toString true
            [OnDrop [Samples.goodFile]; Render false false;
             OnDrop [Samples.gifFile]; OnChange [Samples.goodFile]]))
  = false.
Proof.
  refine (proj2 (widget_selects_valid_files Samples.MAX_FILE_SIZE_MB
                   Samples.SUPPORTED_FILE_TYPES Samples.Number_toString true
                   [OnDrop [Samples.goodFile]; Render false false;
                    OnDrop [Samples.gifFile]; OnChange [Samples.goodFile]]) _).
  intros d same [H|[H|[H|[H|[]]]]]; try discriminate H.
  injection H as _ <-. reflexivity.
Defined.

(** A drop is decided by the [disabled] that [handleDrop] holds: mounted
    disabled and rendered enabled with the same [onFileSelect], the widget
    still turns a dropped file away, and takes it from the file input. *)
Example drop_holds_earlier_disabled :
  selected (snd (widgetRun Samples.MAX_FILE_SIZE_MB Samples.SUPPORTED_FILE_TYPES
                   Samples.Number_toString true
                   [Render false true; OnDrop [Samples.goodFile]])) = []
  /\ selected (snd (widgetRun Samples.MAX_FILE_SIZE_MB Samples.SUPPORTED_FILE_TYPES
                      Samples.Number_toString true
                      [Render false true; OnChange [Samples.goodFile]]))
     = [Samples.goodFile].
Proof. vm_compute. split; reflexivity. Qed.

Lemma only_valid_files_selected_witness :
  inject_Z (size Samples.goodFile) <= sizeLimit Samples.MAX_FILE_SIZE_MB.
Proof.
  apply (only_valid_files_selected Samples.MAX_FILE_SIZE_MB
           Samples.SUPPORTED_FILE_TYPES Samples.Number_toString
           [Drop false [Samples.gifFile]; DragOver false;
            Drop false [Samples.goodFile; Samples.largeFile];
            Input false [Samples.largeFile]]
           Samples.goodFile).
  vm_compute. left. reflexivity.
Defined.

End FileUploadRunFacts.

(** ** netlify/functions/analyze.js: further properties *)

Module AnalyzeMore.
Import JS Analyze AnalyzeNotions.

Local Open Scope string_scope.

Lemma firstText_sound (content : list JSON) (text : string) :
  firstText content = Some text ->
  exists part,
    In part content /\ get part "text" = Some (JString text)
    /\ truthy (trim text) = true.
Proof.
  induction content as [|part rest IH]; cbn [firstText]; [discriminate|].
  intros H.
  destruct (get part "text") as [[| | | s | |]|] eqn:G;
    try (destruct (IH H) as [p [I R]]; exists p; split; [right; exact I|exact R]).
  destruct (truthy (trim s)) eqn:T.
  - injection H as <-. exists part. split; [left; reflexivity|]. split; assumption.
  - destruct (IH H) as [p [I R]]. exists p. split; [right; exact I|exact R].
Qed.

Lemma firstText_complete (content : list JSON) (part : JSON) (text : string) :
  In part content -> get part "text" = Some (JString text) ->
  truthy (trim text) = true ->
  firstText content <> None.
Proof.
  induction content as [|p rest IH]; intros I G T; [destruct I|].
  cbn [firstText]. destruct I as [->|I].
  - rewrite G, T. discriminate.
  - destruct (get p "text") as [[| | | s | |]|]; try (apply IH; assumption).
    destruct (truthy (trim s)); [discriminate|]. apply IH; assumption.
Qed.

Lemma scanOutput_sound (output : list JSON) :
  scanOutput output = EmptyString \/ isTextPart output (scanOutput output).
Proof.
  induction output as [|item rest IH]; cbn [scanOutput]; [left; reflexivity|].
  assert (Rest : scanOutput rest = EmptyString
                 \/ isTextPart (item :: rest) (scanOutput rest)).
  { destruct IH as [E|[i [c [p [I R]]]]]; [left; exact E|].
    right. exists i, c, p. split; [right; exact I|exact R]. }
  destruct (get item "content") as [[| | | | content |]|] eqn:G; try exact Rest.
  destruct (firstText content) as [text|] eqn:F; [|exact Rest].
  right. destruct (firstText_sound content text F) as [part [I [T B]]].
  exists item, content, part. split; [left; reflexivity|].
  split; [exact G|]. split; [exact I|]. split; assumption.
Qed.

Lemma scanOutput_complete (output : list JSON) (text : string) :
  isTextPart output text -> truthy (trim (scanOutput output)) = true.
Proof.
  intros [item [content [part [I [G [Ip [T B]]]]]]].
  induction output as [|i rest IH]; [destruct I|].
  cbn [scanOutput].
  assert (Here : forall c, get i "content" = Some (JArray c) ->
                   firstText c = None -> In item rest).
  { intros c Gc F. destruct I as [->|I]; [|exact I]. exfalso.
    rewrite G in Gc. injection Gc as <-.
    exact (firstText_complete content part text Ip T B F). }
  destruct (get i "content") as [[| | | | c |]|] eqn:Gi;
    try (apply IH; destruct I as [->|I]; [congruence|exact I]).
  destruct (firstText c) as [t|] eqn:F.
  - destruct (firstText_sound c t F) as [p [_ [_ Bt]]]. exact Bt.
  - apply IH. exact (Here c eq_refl F).
Qed.

(** X16.  [extractOutputText] gives [output_text] whenever that is a
    string.  Otherwise it gives the non-blank text of a content part of an
    item of [output], and does so whenever there is one; with none, or with
    [output] not an array, it gives the empty string. *)
Theorem extractOutputText_parts (payload : JSON) :
  (forall s, get payload "output_text" = Some (JString s) ->
             extractOutputText payload = s)
  /\ ((forall s, get payload "output_text" <> Some (JString s)) ->
      (forall output, get payload "output" = Some (JArray output) ->
         (isTextPart output (extractOutputText payload)
          \/ (extractOutputText payload = EmptyString
              /\ forall text, ~ isTextPart output text)))
      /\ ((forall output, get payload "output" <> Some (JArray output)) ->
          extractOutputText payload = EmptyString)).
Proof.
  unfold extractOutputText. split.
  - intros s E. rewrite E. reflexivity.
  - intros N.
    assert (NoText :
      match get payload "output_text" with
      | Some (JString s) => s
      | _ =>
          match get payload "output" with
          | Some (JArray output) => scanOutput output
          | _ => EmptyString
          end
      end
      = match get payload "output" with
        | Some (JArray output) => scanOutput output
        | _ => EmptyString
        end).
    { destruct (get payload "output_text") as [[| | | s | |]|]; try reflexivity.
      destruct (N s eq_refl). }
    rewrite NoText. split.
    + intros output E. rewrite E.
      destruct (scanOutput_sound output) as [Z|P]; [|left; exact P].
      right. split; [exact Z|]. intros text P.
      pose proof (scanOutput_complete output text P) as T.
      rewrite Z in T. discriminate T.
    + intros M.
      destruct (get payload "output") as [[| | | | output |]|]; try reflexivity.
      destruct (M output eq_refl).
Qed.

Lemma extractOutputText_parts_witness :
  isTextPart GatewaySamples.partsOutput
    (extractOutputText GatewaySamples.partsPayload)
  \/ (extractOutputText GatewaySamples.partsPayload = EmptyString
      /\ forall text, ~ isTextPart GatewaySamples.partsOutput text).
Proof.
  apply (proj2 (extractOutputText_parts GatewaySamples.partsPayload)).
  - intros s. vm_compute. discriminate.
  - reflexivity.
Defined.

Section Handler.

Variable host : Host.

Lemma analysisResult_shape (parsed : JSON) (finding : string) :
  isAnalysisResult (analysisResult host parsed finding).
Proof.
  unfold analysisResult, isAnalysisResult.
  do 7 eexists. split; [|split].
  - f_equal. repeat (f_equal; try reflexivity).
    + instantiate (1 := match get parsed "severity" with
                        | Some (JString s) =>
                            if String.eqb s "High" || String.eqb s "Medium"
                               || String.eqb s "Low" then s else "Low"
                        | _ => "Low"
                        end).
      destruct (get parsed "severity") as [[| | | s | |]|]; try reflexivity.
      destruct (String.eqb s "High" || String.eqb s "Medium" || String.eqb s "Low");
        reflexivity.
    + instantiate (1 := match get parsed "boundingBoxes" with
                        | Some (JArray boxes) => boxes
                        | _ => []
                        end).
      destruct (get parsed "boundingBoxes") as [[| | | | boxes |]|]; reflexivity.
  - destruct (get parsed "probability") as [[| | p | | |]|];
      try (split; discriminate).
    split; [apply Q.le_max_l|].
    apply Q.max_lub; [discriminate|apply Q.le_min_l].
  - unfold Spec.severityLevels.
    destruct (get parsed "severity") as [[| | | s | |]|]; try (left; reflexivity).
    destruct (String.eqb_spec s "High") as [->|]; [right; right; left; reflexivity|].
    destruct (String.eqb_spec s "Medium") as [->|]; [right; left; reflexivity|].
    destruct (String.eqb_spec s "Low") as [->|]; left; reflexivity.
Qed.

Lemma respondToOutput_shape (text : string) :
  statusCode (respondToOutput host text) = 200%Z ->
  exists v, body (respondToOutput host text) = Stringify v /\ isAnalysisResult v.
Proof.
  unfold respondToOutput.
  destruct (JSON_parse host text) as [parsed|]; [|discriminate].
  destruct parsed;
    try discriminate;
    (destruct (String_of host _) as [e|finding]; [discriminate|]);
    intros _; eexists; (split; [reflexivity|apply analysisResult_shape]).
Qed.

(** X17.  Whatever the request and the upstream do, an answer with status
    200 has exactly the result shape: the eight fields, a probability within
    0..1, a severity of Low, Medium or High and the bounding boxes as an
    array. *)
Theorem handler_success_shape (env : Env) (event : Event) :
  fetchWellFormed host ->
  statusCode (handler host env event) = 200%Z ->
  exists v,
    body (handler host env event) = Stringify v /\ isAnalysisResult v.
Proof.
  intros W. unfold handler.
  destruct (String.eqb (httpMethod event) "OPTIONS"); [discriminate|].
  destruct (negb (String.eqb (httpMethod event) "POST")); [discriminate|].
  destruct (negb (truthy _)); [discriminate|].
  destruct (JSON_parse host _) as [requestBody|]; [|discriminate].
  destruct (get requestBody "imageDataUrl") as [[| | | url | |]|]; try discriminate.
  destruct (negb (startsWith url "data:image/")); [discriminate|].
  unfold respondToUpstream.
  destruct (fetch host _) as [e|ok status statusText payload] eqn:F; [discriminate|].
  destruct ok; cbn [negb].
  - apply respondToOutput_shape.
  - cbn [statusCode json]. intros S. exfalso.
    pose proof (proj2 (W _ _ _ _ _ F)) as R.
    destruct (Z.eqb_spec status 0) as [->|N]; [discriminate S|].
    subst status. assert (false = true) by (apply R; lia). discriminate.
Qed.

Lemma four_digits_table :
  forallb (fun i => (String.length (String_of_Z (1000 + Z.of_nat i)) =? 4)%nat)
          (seq 0 (Z.to_nat 9000)) = true.
Proof. vm_compute. reflexivity. Qed.

Lemma four_digits (n : Z) :
  (1000 <= n <= 9999)%Z -> String.length (String_of_Z n) = 4%nat.
Proof.
  intros H.
  pose proof (proj1 (forallb_forall _ _) four_digits_table (Z.to_nat (n - 1000))) as T.
  cbv beta in T. rewrite Z2Nat.id in T by lia.
  replace (1000 + (n - 1000))%Z with n in T by lia.
  apply Nat.eqb_eq, T. apply in_seq. lia.
Qed.

(** X18.  With [Math.random()] in its range, from 0 up to but not reaching
    1, the patient id of a result is [ANON-] followed by a number from 1000
    to 9999, which is four characters long. *)
Theorem patientId_format (parsed : JSON) (finding : string) :
  (0 <= Math_random host)%Q -> (Math_random host < 1)%Q ->
  exists n,
    (1000 <= n <= 9999)%Z
    /\ get (analysisResult host parsed finding) "patientId"
       = Some (JString ("ANON-" ++ String_of_Z n))
    /\ String.length (String_of_Z n) = 4%nat.
Proof.
  intros R0 R1.
  exists (Qfloor (Math_random host * 9000) + 1000)%Z.
  assert (B : (0 <= Qfloor (Math_random host * 9000) <= 8999)%Z).
  { split.
    - rewrite <- (Qfloor_Z 0). apply Qfloor_resp_le. change (inject_Z 0) with 0%Q. lra.
    - apply Z.lt_succ_r. rewrite Zlt_Qlt.
      eapply Qle_lt_trans; [apply Qfloor_le|].
      change (inject_Z (Z.succ 8999)) with 9000%Q. lra. }
  split; [lia|]. split; [reflexivity|]. apply four_digits. lia.
Qed.

(** X19.  A request that is not a POST, a missing or blank API key, or a
    body without an image data URL (unparseable, no [imageDataUrl], not a
    string, not starting with [data:image/]) is answered without any call
    upstream: the answer is the same whatever [fetch] would do. *)
Theorem handler_no_upstream_call
  (env : Env) (event : Event) (f : UpstreamRequest -> FetchOutcome) :
  httpMethod event <> "POST"
  \/ (forall key, OPENAI_API_KEY env = Some key -> trim key = EmptyString)
  \/ (forall requestBody url,
        JSON_parse host (requestText event) = Some requestBody ->
        get requestBody "imageDataUrl" = Some (JString url) ->
        startsWith url "data:image/" = false) ->
  handler (withFetch host f) env event = handler host env event.
Proof.
  intros H. unfold handler. cbn [JSON_parse withFetch fetch].
  fold (requestText event).
  destruct (String.eqb (httpMethod event) "OPTIONS"); [reflexivity|].
  destruct (String.eqb_spec (httpMethod event) "POST") as [M|M];
    cbn [negb]; [|reflexivity].
  destruct (truthy match OPENAI_API_KEY env with
                   | Some k => trim k
                   | None => EmptyString
                   end) eqn:K; cbn [negb]; [|reflexivity].
  destruct (JSON_parse host (requestText event)) as [requestBody|] eqn:P;
    [|reflexivity].
  destruct (get requestBody "imageDataUrl") as [[| | | url | |]|] eqn:G;
    try reflexivity.
  destruct (startsWith url "data:image/") eqn:D; cbn [negb]; [|reflexivity].
  exfalso. destruct H as [H|[H|H]].
  - contradiction.
  - destruct (OPENAI_API_KEY env) as [key|]; [|discriminate K].
    rewrite (H key eq_refl) in K. discriminate K.
  - rewrite (H requestBody url eq_refl G) in D. discriminate D.
Qed.

End Handler.

Lemma patientId_format_witness :
  exists n,
    (1000 <= n <= 9999)%Z
    /\ get (analysisResult Samples.gatewayHost Samples.modelOutput "finding") "patientId"
       = Some (JString ("ANON-" ++ String_of_Z n))
    /\ String.length (String_of_Z n) = 4%nat.
Proof.
  apply (patientId_format Samples.gatewayHost Samples.modelOutput "finding").
  - cbn. discriminate.
  - cbn. reflexivity.
Defined.

Lemma handler_no_upstream_call_witness :
  handler (withFetch Samples.gatewayHost (fun _ => Rejected (nullPropertyError Samples.gatewayHost)))
    Samples.gatewayEnv GatewaySamples.getEvent
  = handler Samples.gatewayHost Samples.gatewayEnv GatewaySamples.getEvent.
Proof.
  apply (handler_no_upstream_call Samples.gatewayHost Samples.gatewayEnv
           GatewaySamples.getEvent).
  left. discriminate.
Defined.

Lemma handler_success_shape_witness :
  exists v,
    body (handler Samples.gatewayHost Samples.gatewayEnv Samples.gatewayEvent)
    = Stringify v
    /\ isAnalysisResult v.
Proof.
  apply (handler_success_shape Samples.gatewayHost Samples.gatewayEnv
           Samples.gatewayEvent).
  - intros request ok status statusText payload F.
    vm_compute in F. injection F as <- <- _ _. split; [lia|reflexivity].
  - vm_compute. reflexivity.
Defined.

(** White space is what [trim] strips, not the ASCII blanks alone: a text
    of one no-break space is no text, and a key of one is no key, so the
    answer is 500 before any call upstream. *)
Example no_break_space_is_blank :
  extractOutputText GatewaySamples.nbspPayload = EmptyString
  /\ statusCode (handler Samples.gatewayHost GatewaySamples.nbspEnv Samples.gatewayEvent)
     = 500
  /\ handler (withFetch Samples.gatewayHost
                (fun _ => Rejected (nullPropertyError Samples.gatewayHost)))
             GatewaySamples.nbspEnv Samples.gatewayEvent
     = handler Samples.gatewayHost GatewaySamples.nbspEnv Samples.gatewayEvent.
Proof. vm_compute. repeat split. Qed.

End AnalyzeMore.

(** ** services/analysisService.ts *)

Module AnalysisServiceFacts.
Import JS Analyze AnalysisService.

Local Open Scope string_scope.

Section Service.

Variable host : Host.

(** X20.  The message taken from a failed call is never empty: whatever the
    body and the status, [extractApiError] returns a truthy value. *)
Theorem extractApiError_never_empty (text : string) (status : Z) :
  truthyJSON (extractApiError host text status) = true.
Proof.
  unfold extractApiError.
  destruct (truthy text) eqn:T; cbn [negb]; [|reflexivity].
  assert (OrText : forall v : option JSON,
            truthyJSON match v with
                       | Some v => if truthyJSON v then v else JString text
                       | None => JString text
                       end = true).
  { intros [v|]; [|exact T]. destruct (truthyJSON v) eqn:V; [exact V|exact T]. }
  destruct (JSON_parse host text) as [payload|]; [|exact T].
  destruct (get payload "message") as [m|]; [|apply OrText].
  destruct (truthyJSON m); [|apply OrText].
  destruct (String_of host m) as [e|s]; [exact T|].
  destruct (truthy s) eqn:S; [exact S|apply OrText].
Qed.

(** X21.  From a body that parses, the message shown is the body's
    [message] when that is a non-empty string; with no [message] it is the
    body's [error] when that is a non-empty string. *)
Theorem extractApiError_priority (text : string) (status : Z) (payload : JSON) :
  truthy text = true ->
  JSON_parse host text = Some payload ->
  (forall m, truthy m = true ->
             get payload "message" = Some (JString m) ->
             String_of host (JString m) = inr m ->
             extractApiError host text status = JString m)
  /\ (forall e, truthy e = true ->
                get payload "message" = None ->
                get payload "error" = Some (JString e) ->
                extractApiError host text status = JString e).
Proof.
  intros T P. unfold extractApiError. rewrite T, P. cbn [negb]. split.
  - intros m M G S. rewrite G. cbn [truthyJSON]. rewrite M, S, M. reflexivity.
  - intros e E G G'. rewrite G, G'. cbn [truthyJSON]. rewrite E.
    cbn [truthyJSON]. rewrite E. reflexivity.
Qed.

End Service.

Lemma extractApiError_priority_witness :
  extractApiError GatewaySamples.browserHost GatewaySamples.methodText 405
  = JString "Method Not Allowed".
Proof.
  apply (extractApiError_priority GatewaySamples.browserHost
           GatewaySamples.methodText 405
           (JObject [("error", JString "Method Not Allowed")])).
  - reflexivity.
  - vm_compute. reflexivity.
  - reflexivity.
  - reflexivity.
  - reflexivity.
Defined.

Section Gateway.

(** The gateway's host, and the browser's. *)
Variable gateway : Host.
Variable browser : Host.

(** Every answer of the gateway but a success and the preflight answer is
    an object whose [error] is a non-empty text. *)
Lemma handler_failure_error (env : Env) (event : Event) (v : JSON) :
  body (handler gateway env event) = Stringify v ->
  statusCode (handler gateway env event) <> 200%Z ->
  exists e, truthy e = true /\ get v "error" = Some (JString e).
Proof.
  unfold handler.
  destruct (String.eqb (httpMethod event) "OPTIONS"); [discriminate|].
  destruct (negb (String.eqb (httpMethod event) "POST")).
  { intros B _. injection B as <-. eexists. split; [|reflexivity]. reflexivity. }
  destruct (negb (truthy _)).
  { intros B _. injection B as <-. eexists. split; [|reflexivity]. reflexivity. }
  destruct (JSON_parse gateway _) as [requestBody|].
  2: { intros B _. injection B as <-. eexists. split; [|reflexivity]. reflexivity. }
  assert (Required : forall r,
            r = json 400 (JObject [("error", JString "`imageDataUrl` is required (data URL)")]) ->
            body r = Stringify v -> statusCode r <> 200%Z ->
            exists e, truthy e = true /\ get v "error" = Some (JString e)).
  { intros r -> B _. injection B as <-. eexists. split; [|reflexivity]. reflexivity. }
  destruct (get requestBody "imageDataUrl") as [[| | | url | |]|];
    try (apply Required; reflexivity).
  destruct (negb (startsWith url "data:image/")); [apply Required; reflexivity|].
  unfold respondToUpstream, respondToOutput, analyzeFailed.
  destruct (fetch gateway _) as [e|ok status statusText payload].
  { intros B _. injection B as <-. eexists. split; [|reflexivity]. reflexivity. }
  destruct ok; cbn [negb].
  2: { intros B _. injection B as <-. eexists. split; [|reflexivity]. reflexivity. }
  destruct (JSON_parse gateway _) as [parsed|].
  2: { intros B _. injection B as <-. eexists. split; [|reflexivity]. reflexivity. }
  destruct parsed;
    try (intros B _; injection B as <-; eexists; split; [|reflexivity]; reflexivity);
    (destruct (String_of gateway _) as [e|finding];
     [ intros B _; injection B as <-; eexists; split; [|reflexivity]; reflexivity
     | intros _ S; exfalso; apply S; reflexivity ]).
Qed.

(** X22.  The gateway and the browser together: for every answer of the
    gateway other than a success, read back by the browser as the value the
    gateway serialised, the message shown is the answer's [message] when
    that is a non-empty string, and the answer's [error] text, which is
    never empty, when [message] is absent or the empty string. *)
Theorem gateway_failure_message
  (env : Env) (event : Event) (text : string) (v : JSON) :
  body (handler gateway env event) = Stringify v ->
  statusCode (handler gateway env event) <> 200%Z ->
  truthy text = true ->
  JSON_parse browser text = Some v ->
  (forall m, String_of browser (JString m) = inr m) ->
  exists e,
    truthy e = true
    /\ get v "error" = Some (JString e)
    /\ (forall m, get v "message" = Some (JString m) ->
          extractApiError browser text (statusCode (handler gateway env event))
          = JString (if truthy m then m else e))
    /\ (get v "message" = None ->
        extractApiError browser text (statusCode (handler gateway env event))
        = JString e).
Proof.
  intros B S T P Str.
  destruct (handler_failure_error env event v B S) as [e [E G]].
  exists e. split; [exact E|]. split; [exact G|].
  unfold extractApiError. rewrite T, P. cbn [negb]. rewrite G.
  cbn [truthyJSON]. rewrite E. cbn [truthyJSON]. rewrite E.
  split.
  - intros m M. rewrite M. cbn [truthyJSON].
    destruct (truthy m) eqn:Tm; [|reflexivity].
    rewrite Str, Tm. reflexivity.
  - intros M. rewrite M. reflexivity.
Qed.

End Gateway.

Lemma gateway_failure_message_witness :
  exists e,
    truthy e = true
    /\ get (JObject [("error", JString "Method Not Allowed")]) "error"
       = Some (JString e).
Proof.
  destruct (gateway_failure_message Samples.gatewayHost GatewaySamples.browserHost
              Samples.gatewayEnv GatewaySamples.getEvent GatewaySamples.methodText
              (JObject [("error", JString "Method Not Allowed")]))
    as [e [E [G _]]].
  - reflexivity.
  - vm_compute. discriminate.
  - reflexivity.
  - vm_compute. reflexivity.
  - intros m. reflexivity.
  - exists e. split; assumption.
Defined.

End AnalysisServiceFacts.

(** ** vite.config.ts against netlify/functions/analyze.js *)

Module ViteProxyFacts.
Import JS Analyze.

Local Open Scope string_scope.

Section Proxy.

Variable host : Host.

(** X23.  The development proxy and the deployed function agree.  For a
    POST with the same non-empty key (free of surrounding white space), the
    same model setting and the same non-empty body text (free of surrounding
    white space) that does not parse to [null], the proxy answers, and:
    when the body does not parse, or its [imageDataUrl] is a string starting
    with [data:image/], with the very answer of the function; when
    [imageDataUrl] is absent, not a string or empty, with status 400 as the
    function does. *)
Theorem proxy_agrees_with_function
  (env : Env) (event : Event) (req : ViteProxy.Request) (key raw : string) :
  httpMethod event = "POST" -> ViteProxy.method req = "POST" ->
  OPENAI_API_KEY env = Some key -> trim key = key -> truthy key = true ->
  event_body event = Some raw -> ViteProxy.chunks req = raw ->
  trim raw = raw -> truthy raw = true ->
  JSON_parse host raw <> Some JNull ->
  exists answer,
    ViteProxy.handler host (Some key) (OPENAI_MODEL env) req = inr answer
    /\ (JSON_parse host raw = None -> answer = handler host env event)
    /\ (forall requestBody url,
          JSON_parse host raw = Some requestBody ->
          get requestBody "imageDataUrl" = Some (JString url) ->
          startsWith url "data:image/" = true ->
          answer = handler host env event)
    /\ (forall requestBody,
          JSON_parse host raw = Some requestBody ->
          (forall url, get requestBody "imageDataUrl" = Some (JString url) ->
                       url = EmptyString) ->
          statusCode answer = 400%Z
          /\ statusCode (handler host env event) = 400%Z).
Proof.
  intros M M' K Tk Kt B C Tr Nr N.
  unfold ViteProxy.handler, ViteProxy.readJsonBody, handler.
  rewrite M, M', K, B, C, Tk, Tr, Nr, Kt.
  cbn [String.eqb Ascii.eqb Bool.eqb negb].
  destruct (JSON_parse host raw) as [requestBody|] eqn:P.
  2: { eexists. split; [reflexivity|]. split; [reflexivity|].
       split; intros; discriminate. }
  assert (NotNull : requestBody <> JNull) by congruence.
  assert (Other : forall r : Response,
            statusCode r = 400%Z ->
            (forall url, get requestBody "imageDataUrl" <> Some (JString url)
                         \/ startsWith url "data:image/" = false) ->
            exists answer,
              @inr Thrown Response
                (json 400 (JObject [("error", JString "`imageDataUrl` is required")]))
              = inr answer
              /\ (Some requestBody = None -> answer = r)
              /\ (forall requestBody0 url,
                    Some requestBody = Some requestBody0 ->
                    get requestBody0 "imageDataUrl" = Some (JString url) ->
                    startsWith url "data:image/" = true -> answer = r)
              /\ (forall requestBody0,
                    Some requestBody = Some requestBody0 ->
                    (forall url, get requestBody0 "imageDataUrl" = Some (JString url) ->
                                 url = EmptyString) ->
                    statusCode answer = 400%Z /\ statusCode r = 400%Z)).
  { intros r S Hno. eexists. split; [reflexivity|]. split; [discriminate|].
    split.
    - intros b url E G D. injection E as <-.
      destruct (Hno url) as [H|H]; congruence.
    - intros b E _. split; [reflexivity|exact S]. }
  destruct requestBody as [|bb|n|str|items|props]; [contradiction| | | | |].
  1-4: apply Other; [reflexivity | intros url; left; discriminate].
  cbn [get].
  destruct (lookup "imageDataUrl" props) as [[| | | url | |]|] eqn:G.
  1-3,5-7: apply Other; [reflexivity | intros url'; left; cbn [get]; rewrite G; discriminate].
  destruct (truthy url) eqn:Tu; cbn [negb].
  - destruct (startsWith url "data:image/") eqn:D; cbn [negb].
    + eexists. split; [reflexivity|]. split; [discriminate|]. split.
      * intros b u E Gu Du. reflexivity.
      * intros b E Hempty. injection E as <-.
        cbn [get] in Hempty. rewrite (Hempty url G) in Tu. discriminate Tu.
    + eexists. split; [reflexivity|]. split; [discriminate|]. split.
      * intros b u E Gu Du. injection E as <-. cbn [get] in Gu.
        rewrite G in Gu. injection Gu as <-. congruence.
      * intros b E Hempty. injection E as <-.
        cbn [get] in Hempty. rewrite (Hempty url G) in Tu. discriminate Tu.
  - assert (url = EmptyString) by (destruct url; [reflexivity|discriminate Tu]).
    subst url. cbn [startsWith prefix negb].
    eexists. split; [reflexivity|]. split; [discriminate|]. split.
    + intros b u E Gu Du. injection E as <-. cbn [get] in Gu.
      rewrite G in Gu. injection Gu as <-. discriminate Du.
    + intros b E _. split; reflexivity.
Qed.

End Proxy.

Lemma proxy_agrees_with_function_witness :
  exists answer,
    ViteProxy.handler Samples.gatewayHost (Some "sk-sample") None
      GatewaySamples.devRequest = inr answer
    /\ answer = handler Samples.gatewayHost GatewaySamples.cleanEnv Samples.gatewayEvent.
Proof.
  destruct (proxy_agrees_with_function Samples.gatewayHost GatewaySamples.cleanEnv
              Samples.gatewayEvent GatewaySamples.devRequest
              "sk-sample" Samples.requestText)
    as [answer [A [_ [D _]]]].
  1-9: try reflexivity.
  - vm_compute. discriminate.
  - exists answer. split; [exact A|].
    apply (D (JObject [("imageDataUrl", JString "data:image/png;base64,AAAA")])
             "data:image/png;base64,AAAA").
    + vm_compute. reflexivity.
    + reflexivity.
    + reflexivity.
Defined.

End ViteProxyFacts.

(** ** App.tsx *)

Module AppFacts.
Import ECMA Age JS Types App.

Local Open Scope Q_scope.

Ltac fields := cbn [appState currentFile result analysisError patientInfo alerts inFlight].

Lemma step_sound (st st' : State) (ev : Event) :
  sound st -> step st ev = Some st' -> sound st'.
Proof.
  intros [I1 [I2 I3]] H. unfold step in H.
  assert (Idle : appState st = IDLE -> currentFile st = None).
  { intros E. destruct (currentFile st) as [f|] eqn:C; [|reflexivity].
    destruct I1 as [N _]; [discriminate|]. contradiction. }
  destruct ev as [changes|f url|data|message|].
  - destruct (appState st) eqn:A; try discriminate H. injection H as <-.
    unfold sound, handlePatientInfoChange. fields. rewrite (Idle eq_refl), ?A.
    repeat split; intros; congruence.
  - destruct (appState st) eqn:A; try discriminate H. injection H as <-.
    unfold handleFileSelect.
    destruct (isPatientFormComplete (patientInfo st)) eqn:C; cbn [negb].
    + unfold sound, startAnalysis. fields.
      repeat split; intros; try congruence; try discriminate; lia.
    + unfold sound. fields. rewrite (Idle eq_refl), ?A.
      repeat split; intros; congruence.
  - destruct (0 <? inFlight st)%nat; [|destruct (appState st); discriminate H].
    assert (E : st' = analysisResolved data st)
      by (destruct (appState st); injection H as <-; reflexivity).
    subst st'. unfold sound, analysisResolved. fields.
    split; [|split].
    + intros C. split; [discriminate|]. apply I1, C.
    + discriminate.
    + discriminate.
  - destruct (0 <? inFlight st)%nat; [|destruct (appState st); discriminate H].
    assert (E : st' = analysisRejected message st)
      by (destruct (appState st); injection H as <-; reflexivity).
    subst st'. unfold sound, analysisRejected. fields.
    repeat split; intros; congruence.
  - assert (E : st' = resetApp st)
      by (destruct (appState st); try discriminate H; injection H as <-; reflexivity).
    subst st'. unfold sound, resetApp. fields.
    repeat split; intros; congruence.
Qed.

Lemma run_sound (events : list Event) (st st' : State) :
  sound st -> run events st = Some st' -> sound st'.
Proof.
  revert st. induction events as [|ev events IH]; intros st S H; cbn [run] in H.
  - injection H as <-. exact S.
  - destruct (step st ev) as [st1|] eqn:E; [|discriminate H].
    exact (IH st1 (step_sound st st1 ev S E) H).
Qed.

Lemma initial_sound (today : string) : sound (initial today).
Proof.
  unfold sound, initial. cbn. repeat split; intros; congruence.
Qed.

(** X24.  At every moment of a session: while a file is held the page is
    not idle and the patient form is complete; while the page is analysing a
    file is held and a call is in flight; while the page is in the results
    state a result is held. *)
Theorem session_invariant (today : string) (events : list Event) (st : State) :
  run events (initial today) = Some st ->
  (currentFile st <> None ->
   appState st <> IDLE /\ isPatientFormComplete (patientInfo st) = true)
  /\ (appState st = ANALYZING -> currentFile st <> None /\ (0 < inFlight st)%nat)
  /\ (appState st = RESULTS -> result st <> None).
Proof.
  intros H. exact (run_sound events (initial today) st (initial_sound today) H).
Qed.

Lemma session_invariant_witness :
  result (analysisResolved Samples.result
            (handleFileSelect Samples.goodFile "blob:preview"
               (handlePatientInfoChange SessionSamples.fillIn (initial "2024-06-10"))))
  <> None.
Proof.
  refine (proj2 (proj2 (session_invariant "2024-06-10" SessionSamples.session _ _)) _).
  - vm_compute. reflexivity.
  - reflexivity.
Defined.

Lemma complete_height_set (p : PatientInfo) :
  isPatientFormComplete p = true -> ~ heightCm p == 0.
Proof.
  unfold isPatientFormComplete. intros C.
  repeat rewrite andb_true_iff in C. destruct C as [[[_ _] H] _].
  rewrite negb_true_iff in H. intros E. apply Qeq_bool_iff in E. congruence.
Qed.

(** X25.  Whenever the results view is on the page, the patient's height is
    set: the fallback of 140 cm plays no part, the growth curve starts at
    the patient's own height, and the birth date and the exam date are not
    empty. *)
Theorem results_view_height_set
  (today : string) (events : list Event) (st : State)
  (h : Host) (now1 now2 : Z) (data : AnalysisResult) :
  run events (initial today) = Some st ->
  showsResults st ->
  result st = Some data ->
  ~ heightCm (patientInfo st) == 0
  /\ gp_height (nth 0 (AnalysisResults.graphPoints h now1 now2 data (patientInfo st))
                  Samples.origin)
     == heightCm (patientInfo st)
  /\ birthDate (patientInfo st) <> EmptyString
  /\ examDate (patientInfo st) <> EmptyString.
Proof.
  intros H [A [C R]] D.
  destruct (run_sound events (initial today) st (initial_sound today) H) as [I1 _].
  destruct (I1 C) as [_ F].
  pose proof (complete_height_set _ F) as Hset.
  split; [exact Hset|]. split.
  - rewrite (AnalysisResultsMore.graphPoints_nth h now1 now2 data (patientInfo st) 0 Hset)
      by lia.
    cbn. ring.
  - unfold isPatientFormComplete in F.
    repeat rewrite andb_true_iff in F. destruct F as [[[B E] _] _].
    split; intros Z; [rewrite Z in B|rewrite Z in E]; discriminate.
Qed.

Lemma results_view_height_set_witness :
  ~ heightCm (merge (patientInfo (initial "2024-06-10")) SessionSamples.fillIn) == 0.
Proof.
  apply (results_view_height_set "2024-06-10" SessionSamples.session
           (analysisResolved Samples.result
              (handleFileSelect Samples.goodFile "blob:preview"
                 (handlePatientInfoChange SessionSamples.fillIn (initial "2024-06-10"))))
           (isoHost 32400000) 0 0 Samples.result).
  - vm_compute. reflexivity.
  - unfold showsResults. cbn. repeat split; discriminate.
  - reflexivity.
Defined.

End AppFacts.
